(** * DCGAN_FID_batched/model.py: loss/penalty engine and training loop

    A shallow embedding of [DCGAN] from [DCGAN_FID_batched/model.py].

    - Tensors are a shape together with an element function; the binary
      TensorFlow operators broadcast as TensorFlow does (shapes aligned on the
      right, a dimension of size 1 stretched), and a graph whose shapes do not
      broadcast is rejected ([None]).
    - Scalars are rationals ([Q]) and the tensor arithmetic is exact.  Where
      the code decides on a floating-point constant or rounds to an integer
      (the threshold of line 217, [conv_out_size_same]) the rounding of
      binary32 and binary64 is modelled ([Float]).  Square root, the sigmoid
      cross entropy, the networks and their symbolic gradients belong to
      TensorFlow and are taken as parameters.
    - Random draws ([tf.random_uniform]) are inputs of the graph.
    - [__init__], [build_model] and [train] run in a small state-and-exception
      monad over a trace of the effects the code performs. *)

From Stdlib Require Import ZArith QArith Qminmax Qabs Qround Qpower Lia Lqa.
From stdpp Require Import base option list strings gmap.

Local Open Scope Q_scope.

(** ** Floating point *)

Module Float.

(** For [q > 0]: the [e] with [2^e <= q < 2^(e+1)]. *)
Definition floor_log2 (q : Q) : Z :=
  let e0 := (Z.log2 (Qnum q) - Z.log2 (Zpos (Qden q)))%Z in
  if Qle_bool (2 ^ e0) q then e0 else (e0 - 1)%Z.

(** The nearest integer, a tie going to the even one. *)
Definition round_half_even (q : Q) : Z :=
  let f := Qfloor q in
  match Qcompare (q - inject_Z f) (1 # 2) with
  | Lt => f
  | Gt => (f + 1)%Z
  | Eq => if Z.even f then f else (f + 1)%Z
  end.

(** The distance between neighbouring values of a binary format of
    precision [prec] and smallest normal exponent [emin], around [q]. *)
Definition ulp (prec emin : Z) (q : Q) : Q :=
  2 ^ (Z.max (floor_log2 (Qabs q)) emin - (prec - 1)).

(** Rounding to nearest, ties to even, without a largest value. *)
Definition round_nearest (prec emin : Z) (q : Q) : Q :=
  if Qeq_bool q 0 then 0
  else inject_Z (round_half_even (q / ulp prec emin q)) * ulp prec emin q.

(** IEEE 754 binary32 and binary64. *)
Definition float32 : Q -> Q := round_nearest 24 (-126).
Definition float64 : Q -> Q := round_nearest 53 (-1022).

End Float.

(** ** Tensors *)

Module Tensor.

Record tensor := Tensor { shape : list nat; elem : list nat -> Q }.

(** A Python float used as an operand is a tensor of shape []. *)
Definition scalar (q : Q) : tensor := Tensor [] (fun _ => q).

(** The value of a tensor of shape []. *)
Definition value (t : tensor) : Q := elem t [].

Definition tf_zeros (s : list nat) : tensor := Tensor s (fun _ => 0).
Definition tf_zeros_like (t : tensor) : tensor := tf_zeros (shape t).
Definition tf_ones_like (t : tensor) : tensor := Tensor (shape t) (fun _ => 1).

(** [tf.random_uniform(shape, minval, maxval)]: the draw is an input. *)
Definition tf_random_uniform (s : list nat) (draw : list nat -> Q) : tensor :=
  Tensor s draw.

(** *** Broadcasting *)

Definition broadcast_dim (a b : nat) : option nat :=
  if (a =? b)%nat then Some a
  else if (a =? 1)%nat then Some b
  else if (b =? 1)%nat then Some a
  else None.

(** Shapes given innermost dimension first. *)
Fixpoint broadcast_rev (ra rb : list nat) : option (list nat) :=
  match ra, rb with
  | [], _ => Some rb
  | _, [] => Some ra
  | a :: ra', b :: rb' =>
      match broadcast_dim a b, broadcast_rev ra' rb' with
      | Some d, Some r => Some (d :: r)
      | _, _ => None
      end
  end.

Definition broadcast_shape (sa sb : list nat) : option (list nat) :=
  match broadcast_rev (rev sa) (rev sb) with
  | Some r => Some (rev r)
  | None => None
  end.

(** The index an operand of shape [s] is read at, for the index [idx] of the
    broadcast result: the trailing [length s] coordinates, with 0 wherever
    the operand has size 1. *)
Definition operand_index (s idx : list nat) : list nat :=
  zip_with (fun d i => if (d =? 1)%nat then O else i) s
           (drop (length idx - length s) idx).

Definition tf_binop (f : Q -> Q -> Q) (a b : tensor) : option tensor :=
  match broadcast_shape (shape a) (shape b) with
  | Some s =>
      Some (Tensor s (fun idx =>
              f (elem a (operand_index (shape a) idx))
                (elem b (operand_index (shape b) idx))))
  | None => None
  end.

Definition tf_add := tf_binop Qplus.
Definition tf_sub := tf_binop Qminus.
Definition tf_mul := tf_binop Qmult.
Definition tf_div := tf_binop Qdiv.
Definition tf_maximum := tf_binop Qmax.

Definition tf_map (f : Q -> Q) (t : tensor) : tensor :=
  Tensor (shape t) (fun idx => f (elem t idx)).

Definition tf_square : tensor -> tensor := tf_map (fun x => x * x).

(** [tf.pow(x, -n)] for a positive integer [n]. *)
Definition tf_pow_neg (n : positive) : tensor -> tensor :=
  tf_map (fun x => / (x ^ Zpos n)).

(** *** Reductions *)

Fixpoint sum_upto (n : nat) (f : nat -> Q) : Q :=
  match n with
  | O => 0
  | S m => sum_upto m f + f m
  end.

Definition insert_at (k j : nat) (idx : list nat) : list nat :=
  take k idx ++ j :: drop k idx.

Definition remove_at (k : nat) (s : list nat) : list nat :=
  take k s ++ drop (S k) s.

(** [tf.reduce_sum(x, axis=[k])]. *)
Definition reduce_sum_axis (k : nat) (t : tensor) : tensor :=
  Tensor (remove_at k (shape t))
         (fun idx => sum_upto (nth k (shape t) 1%nat)
                              (fun j => elem t (insert_at k j idx))).

(** [tf.reduce_sum(x, axis=axes)], [axes] increasing: the last axis first, so
    that the remaining axis numbers stay valid. *)
Definition tf_reduce_sum (axes : list nat) (t : tensor) : tensor :=
  fold_right reduce_sum_axis t axes.

Definition numel (s : list nat) : nat := fold_right Nat.mul 1%nat s.

Definition all_axes (t : tensor) : list nat := seq 0 (length (shape t)).

(** [tf.reduce_mean(x)] over every axis. *)
Definition tf_reduce_mean (t : tensor) : tensor :=
  tf_map (fun x => x / inject_Z (Z.of_nat (numel (shape t))))
         (tf_reduce_sum (all_axes t) t).

(** [tf.reduce_mean(x, axis=[0])]. *)
Definition tf_reduce_mean_axis0 (t : tensor) : tensor :=
  tf_map (fun x => x / inject_Z (Z.of_nat (nth 0 (shape t) 1%nat)))
         (reduce_sum_axis 0 t).

(** *** Shape changes *)

(** The index of [t] behind the index [idx] of [tf.squeeze(t)]: a 0 is put
    back at every dimension of size 1. *)
Fixpoint unsqueeze_index (s idx : list nat) : list nat :=
  match s with
  | [] => []
  | d :: s' =>
      if (d =? 1)%nat then O :: unsqueeze_index s' idx
      else match idx with
           | [] => O :: unsqueeze_index s' []
           | i :: idx' => i :: unsqueeze_index s' idx'
           end
  end.

Definition tf_squeeze (t : tensor) : tensor :=
  Tensor (filter (fun d => d <> 1%nat) (shape t))
         (fun idx => elem t (unsqueeze_index (shape t) idx)).

(** Row-major position of an index, and the index at a position. *)
Fixpoint flat_index (s idx : list nat) : nat :=
  match s, idx with
  | d :: s', i :: idx' => (i * numel s' + flat_index s' idx')%nat
  | _, _ => O
  end.

Fixpoint unflat_index (s : list nat) (p : nat) : list nat :=
  match s with
  | [] => []
  | d :: s' => (p / numel s')%nat :: unflat_index s' (p mod numel s')%nat
  end.

(** [tf.reshape(t, s)]; TensorFlow rejects a change of the element count. *)
Definition tf_reshape (s : list nat) (t : tensor) : option tensor :=
  if (numel s =? numel (shape t))%nat
  then Some (Tensor s (fun idx =>
               elem t (unflat_index (shape t) (flat_index s idx))))
  else None.

(** The [i]-th slice along axis 0, as [tf.map_fn] hands it to its function. *)
Definition slice0 (i : nat) (t : tensor) : tensor :=
  Tensor (drop 1 (shape t)) (fun idx => elem t (i :: idx)).

(** [tf.less(a, b)]: a tensor of booleans. *)
Record mask := Mask { mshape : list nat; test : list nat -> bool }.

Definition Qltb (x y : Q) : bool := if Qlt_le_dec x y then true else false.

Definition tf_less (a b : tensor) : option mask :=
  match broadcast_shape (shape a) (shape b) with
  | Some s =>
      Some (Mask s (fun idx =>
              Qltb (elem a (operand_index (shape a) idx))
                   (elem b (operand_index (shape b) idx))))
  | None => None
  end.

(** [tf.where(cond, x, y)], the three of one shape: elementwise choice. *)
Definition tf_where (c : mask) (x y : tensor) : tensor :=
  Tensor (mshape c)
         (fun idx => if test c idx then elem x idx else elem y idx).

End Tensor.

Import Tensor.

(** ** Python exceptions and results *)

Inductive exn :=
| KeyboardInterrupt
| SystemExit
| AssertionError (msg : string)
| ZeroDivisionError
| ValueError
| OverflowError
| AttributeError
| RuntimeError (msg : string).

(** [isinstance(e, Exception)]: what [except Exception] catches.
    [KeyboardInterrupt] and [SystemExit] derive from [BaseException] only. *)
Definition is_Exception (e : exn) : bool :=
  match e with
  | KeyboardInterrupt | SystemExit => false
  | _ => true
  end.

Definition is_KeyboardInterrupt (e : exn) : bool :=
  match e with
  | KeyboardInterrupt => true
  | _ => false
  end.

Inductive result (A : Type) :=
| Ok (a : A)
| Raise (e : exn).
Arguments Ok {A} a.
Arguments Raise {A} e.

Definition rbind {A B} (r : result A) (k : A -> result B) : result B :=
  match r with
  | Ok a => k a
  | Raise e => Raise e
  end.

(** TensorFlow raises [ValueError] on shapes that do not fit. *)
Definition shaped {A} (o : option A) : result A :=
  match o with
  | Some a => Ok a
  | None => Raise ValueError
  end.

Declare Scope result_scope.
Delimit Scope result_scope with result.
Notation "'let+' x := r 'in' k" := (rbind r (fun x => k))
  (at level 10, x name, r at level 100, k at level 200) : result_scope.
Notation "'let+' x :=? o 'in' k" := (rbind (shaped o) (fun x => k))
  (at level 10, x name, o at level 100, k at level 200) : result_scope.

(** Python's [a / b] on floats. *)
Definition py_truediv (a b : Q) : result Q :=
  if Qeq_bool b 0 then Raise ZeroDivisionError else Ok (a / b).

(** Python's [a // b] and [a % b] on ints (floor division; [Z.div] and
    [Z.modulo] round the same way for a non-zero divisor). *)
Definition py_floordiv (a b : Z) : result Z :=
  if (b =? 0)%Z then Raise ZeroDivisionError else Ok (a / b)%Z.

Definition py_mod (a b : Z) : result Z :=
  if (b =? 0)%Z then Raise ZeroDivisionError else Ok (a mod b)%Z.

(** [np.zeros(dims)]: the shape of the new array; a negative dimension is
    refused. *)
Definition np_zeros (dims : list Z) : result (list nat) :=
  if forallb (fun d => 0 <=? d)%Z dims
  then Ok (map Z.to_nat dims)
  else Raise ValueError.

(** The length of [a[lo:hi]] for an axis of length [n]: a negative bound
    counts from the end, and both are clipped to the axis. *)
Definition py_slice_len (n : nat) (lo hi : Z) : nat :=
  let clip i := (if i <? 0 then Z.max (i + Z.of_nat n) 0
                 else Z.min i (Z.of_nat n))%Z in
  Z.to_nat (clip hi - clip lo).

(** [a[lo:hi] = v] for an array [a] of shape [n :: rest] and a value of shape
    [v] of the same rank: [v] has to broadcast to the shape of the slice. *)
Definition np_assign_slice (n : nat) (rest : list nat) (lo hi : Z)
    (v : list nat) : result unit :=
  let target := py_slice_len n lo hi :: rest in
  if decide (broadcast_shape v target = Some target)
  then Ok tt
  else Raise ValueError.

(** [np.mod(a, b)] on ints: 0 (and a warning) for a zero divisor. *)
Definition np_mod (a b : Z) : Z :=
  if (b =? 0)%Z then 0%Z else (a mod b)%Z.

(** [range(n)] runs [n] times, and not at all for [n <= 0]. *)
Definition range_len (n : Z) : nat := Z.to_nat n.

(** Substring test, Python's [needle in s] on strings. *)
Fixpoint contains (needle s : string) : bool :=
  String.prefix needle s ||
  match s with
  | EmptyString => false
  | String _ s' => contains needle s'
  end.

(** ** Configuration: the arguments of [DCGAN.__init__] *)

Record config := Config {
  batch_size : nat;
  sample_num : nat;
  output_height : nat;
  output_width : nat;
  y_dim : option nat;
  z_dim : nat;
  c_dim : nat;
  gan_method : string;
  lipschitz_penalty : Q;
  gradient_penalty : Q;
  optimize_penalty : bool;
  calculate_slope : bool;
  discriminator_batch_norm : bool;
  counter_start : Z;
  fid_n_samples : Z;
  fid_sample_batchsize : Z;
  fid_batch_size : Z;
  num_discriminator_updates : Z;
  load_checkpoint : bool
}.

(** The defaults of [__init__]. *)
Definition default_config : config := {|
  batch_size := 64; sample_num := 64;
  output_height := 64; output_width := 64;
  y_dim := None; z_dim := 100; c_dim := 3;
  gan_method := "regular_gan";
  lipschitz_penalty := 1 # 10;
  gradient_penalty := 1 # 10;
  optimize_penalty := false;
  calculate_slope := true;
  discriminator_batch_norm := true;
  counter_start := 0;
  fid_n_samples := 10000;
  fid_sample_batchsize := 5000;
  fid_batch_size := 500;
  num_discriminator_updates := 1;
  load_checkpoint := false
|}.

(** ** The graph of [build_model]: losses and penalties *)

(** What TensorFlow and the layer library (ops.py) provide: elementwise
    functions, the two networks under the current weights, and the symbolic
    gradient of the discriminator's logits with respect to its input. *)
Record backend := Backend {
  tf_sqrt : Q -> Q;
  tf_sigmoid : Q -> Q;
  tf_sigmoid_cross_entropy : Q -> Q -> Q;
  generator_net : tensor -> tensor;
  discriminator_net : tensor -> tensor;
  discriminator_grad : tensor -> tensor
}.

(** What one [sess.run] draws: the batch of real images, the latent batch and
    the two interpolation coefficients. *)
Record feed := Feed {
  inputs : tensor;
  z : tensor;
  alpha_penalized : list nat -> Q;
  alpha_improved : list nat -> Q
}.

(** The attributes [build_model] sets on [self] for the losses. *)
Record losses := Losses {
  d_lipschitz_penalty_loss : tensor;
  d_gradient_penalty_loss : tensor;
  d_mean_slope_target : tensor;
  d_lipschitz_estimate : tensor;
  d_loss_real : option tensor;
  d_loss_fake : option tensor;
  g_loss : option tensor
}.

Section Graph.
Local Open Scope result_scope.

Variable tf : backend.
Variable cfg : config.
Variable fd : feed.

Definition l2norm (x : tensor) : tensor :=
  tf_squeeze (tf_map (tf_sqrt tf) (tf_reduce_sum [1; 2; 3]%nat (tf_square x))).

(** [discriminator(image)]: [(tf.nn.sigmoid(h4), h4)]. *)
Definition discriminator (image : tensor) : tensor * tensor :=
  let h4 := discriminator_net tf image in
  (tf_map (tf_sigmoid tf) h4, h4).

Definition G : tensor := generator_net tf (z fd).
Definition D_real : tensor := fst (discriminator (inputs fd)).
Definition D_logits_real : tensor := snd (discriminator (inputs fd)).
Definition D_fake : tensor := fst (discriminator G).
Definition D_logits_fake : tensor := snd (discriminator G).

(** [alpha * x + (1. - alpha) * g]. *)
Definition interpolate (alpha x g : tensor) : result tensor :=
  let+ ax :=? tf_mul alpha x in
  let+ one_minus :=? tf_sub (scalar 1) alpha in
  let+ bg :=? tf_mul one_minus g in
  shaped (tf_add ax bg).

(** Lines 177-183: the interpolate of the penalized method, built for every
    method; [alpha] has shape [batch_size, 1, 1, 1]. *)
Definition G_interpolate : result tensor :=
  let alpha :=
    tf_random_uniform [batch_size cfg; 1; 1; 1]%nat (alpha_penalized fd) in
  interpolate alpha (inputs fd) G.

(** Lines 280-285: the interpolate of improved_wgan; [alpha] has shape
    [batch_size, 1]. *)
Definition interpolates : result tensor :=
  let alpha :=
    tf_random_uniform [batch_size cfg; 1]%nat (alpha_improved fd) in
  interpolate alpha (inputs fd) G.

(** Lines 196-200. *)
Definition initial_losses : losses := {|
  d_lipschitz_penalty_loss := tf_zeros [];
  d_gradient_penalty_loss := tf_zeros [];
  d_mean_slope_target := tf_zeros [];
  d_lipschitz_estimate := tf_zeros [];
  d_loss_real := None; d_loss_fake := None; g_loss := None
|}.

(** A Python float written as the decimal [x] and handed to an operator of
    float32 tensors: the binary64 value of the literal, converted to
    float32. *)
Definition float32_constant (x : Q) : Q := Float.float32 (Float.float64 x).

(** The constant [10e-9] of lines 217 and 218. *)
Definition lipschitz_threshold : Q := float32_constant (10 / 10 ^ 9).

(** Line 217: the guarded quotient
    [tf.where(bot < 10e-9 * ones_like(top, float32), 0, num / bot)]. *)
Definition guarded_div (num top bot : tensor) : result tensor :=
  let+ threshold :=? tf_mul (scalar lipschitz_threshold) (tf_ones_like top) in
  let+ small :=? tf_less bot threshold in
  let+ quotient :=? tf_div num bot in
  Ok (tf_where small (tf_zeros_like top) quotient).

(** [map_function] of lines 233-244, at the [i]-th sample. *)
Definition map_function (Gi Di : tensor) (i : nat) : result tensor :=
  let map_G_interpolate := slice0 i Gi in
  let map_g_logits_interpolate := slice0 i Di in
  let+ map_input_difference :=? tf_sub (inputs fd) map_G_interpolate in
  let+ map_norm :=?
    tf_add (l2norm map_input_difference) (scalar (10 / 10 ^ 7)) in
  let map_bot := tf_squeeze (tf_pow_neg 3 map_norm) in
  let+ logit_difference :=? tf_sub D_logits_real map_g_logits_interpolate in
  let map_top := tf_squeeze logit_difference in
  let+ weights :=? tf_mul map_top map_bot in
  let+ column :=? tf_reshape [batch_size cfg; 1; 1; 1]%nat weights in
  let+ weighted :=? tf_mul map_input_difference column in
  let averaged := tf_reduce_mean_axis0 weighted in
  let first_output :=
    tf_map (tf_sqrt tf) (tf_reduce_sum (all_axes averaged) (tf_square averaged)) in
  let second_output := tf_reduce_mean (tf_pow_neg 1 map_norm) in
  let+ ratio :=? tf_div first_output second_output in
  shaped (tf_maximum (scalar 0) ratio).

(** [tf.map_fn(map_function, (G_interpolate, D_logits_interpolate))]: one
    scalar per sample, stacked. *)
Fixpoint map_fn (f : nat -> result tensor) (n : nat) : result (list Q) :=
  match n with
  | O => Ok []
  | S m =>
      let+ front := map_fn f m in
      let+ last := f m in
      Ok (front ++ [value last])
  end.

Definition stack (l : list Q) : tensor :=
  Tensor [length l] (fun idx => nth (nth 0 idx O) l 0).

(** Lines 211-217: [diff_penalty], the per-sample terms of the Lipschitz
    penalty for the interpolate [Gi]. *)
Definition diff_penalty (Gi : tensor) : result tensor :=
  let D_logits_interpolate := snd (discriminator Gi) in
  let+ logit_difference :=? tf_sub D_logits_real D_logits_interpolate in
  let top := tf_squeeze logit_difference in
  let+ input_difference :=? tf_sub (inputs fd) Gi in
  let bot := l2norm input_difference in
  guarded_div (tf_square top) top bot.

(** Lines 202-270. *)
Definition penalized_wgan_losses (l : losses) : result losses :=
  let+ Gi := G_interpolate in
  let D_logits_interpolate := snd (discriminator Gi) in
  let+ loss_real :=? tf_mul (scalar (-1)) (tf_reduce_mean D_logits_real) in
  let loss_fake := tf_reduce_mean D_logits_interpolate in
  let+ loss_g :=? tf_mul (scalar (-1)) (tf_reduce_mean D_logits_interpolate) in
  let+ logit_difference :=? tf_sub D_logits_real D_logits_interpolate in
  let top := tf_squeeze logit_difference in
  let+ input_difference :=? tf_sub (inputs fd) Gi in
  let bot := l2norm input_difference in
  let+ diff_penalty := guarded_div (tf_square top) top bot in
  let+ estimate := guarded_div top top bot in
  let+ lipschitz_loss :=?
    tf_mul (scalar (lipschitz_penalty cfg)) (tf_reduce_mean diff_penalty) in
  let gradients := discriminator_grad tf Gi in
  let slopes :=
    tf_map (tf_sqrt tf) (tf_reduce_sum [1; 2; 3]%nat (tf_square gradients)) in
  let+ d_slope_target :=
    if calculate_slope cfg
    then let+ targets := map_fn (map_function Gi D_logits_interpolate)
                                (nth 0 (shape Gi) O) in
         Ok (stack targets)
    else let+ target := py_truediv 1 (2 * lipschitz_penalty cfg) in
         Ok (scalar target) in
  let+ slope_difference :=? tf_sub slopes d_slope_target in
  let penalty := tf_reduce_mean (tf_square slope_difference) in
  let+ gradient_loss :=? tf_mul (scalar (gradient_penalty cfg)) penalty in
  Ok {| d_lipschitz_penalty_loss := lipschitz_loss;
        d_gradient_penalty_loss := gradient_loss;
        d_mean_slope_target := tf_reduce_mean d_slope_target;
        d_lipschitz_estimate := tf_reduce_mean estimate;
        d_loss_real := Some loss_real;
        d_loss_fake := Some loss_fake;
        g_loss := Some loss_g |}.

(** Lines 272-290. *)
Definition improved_wgan_losses (l : losses) : result losses :=
  let+ loss_real :=? tf_mul (scalar (-1)) (tf_reduce_mean D_logits_real) in
  let loss_fake := tf_reduce_mean D_logits_fake in
  let+ loss_g :=? tf_mul (scalar (-1)) (tf_reduce_mean D_logits_fake) in
  let+ x_hat := interpolates in
  let gradients := discriminator_grad tf x_hat in
  let slopes := l2norm gradients in
  let+ slope_difference :=? tf_sub slopes (scalar 1) in
  let penalty := tf_reduce_mean (tf_square slope_difference) in
  let+ gradient_loss :=? tf_mul (scalar (gradient_penalty cfg)) penalty in
  Ok {| d_lipschitz_penalty_loss := d_lipschitz_penalty_loss l;
        d_gradient_penalty_loss := gradient_loss;
        d_mean_slope_target := d_mean_slope_target l;
        d_lipschitz_estimate := d_lipschitz_estimate l;
        d_loss_real := Some loss_real;
        d_loss_fake := Some loss_fake;
        g_loss := Some loss_g |}.

Definition cross_entropy_mean (logits labels : tensor) : result tensor :=
  let+ entropy :=? tf_binop (tf_sigmoid_cross_entropy tf) logits labels in
  Ok (tf_reduce_mean entropy).

(** Lines 292-301. *)
Definition regular_gan_losses (l : losses) : result losses :=
  let+ loss_real := cross_entropy_mean D_logits_real (tf_ones_like D_real) in
  let+ loss_fake := cross_entropy_mean D_logits_fake (tf_zeros_like D_fake) in
  let+ loss_g := cross_entropy_mean D_logits_fake (tf_ones_like D_fake) in
  Ok {| d_lipschitz_penalty_loss := d_lipschitz_penalty_loss l;
        d_gradient_penalty_loss := d_gradient_penalty_loss l;
        d_mean_slope_target := d_mean_slope_target l;
        d_lipschitz_estimate := d_lipschitz_estimate l;
        d_loss_real := Some loss_real;
        d_loss_fake := Some loss_fake;
        g_loss := Some loss_g |}.

Definition when (b : bool) (f : losses -> result losses) (l : losses)
  : result losses :=
  if b then f l else Ok l.

(** Lines 177-301: the three [if self.gan_method == ...] in sequence, after
    the interpolate of lines 177-183. *)
Definition build_losses : result losses :=
  let+ _ := G_interpolate in
  let+ l1 := when (String.eqb (gan_method cfg) "penalized_wgan")
                  penalized_wgan_losses initial_losses in
  let+ l2 := when (String.eqb (gan_method cfg) "improved_wgan")
                  improved_wgan_losses l1 in
  when (String.eqb (gan_method cfg) "regular_gan") regular_gan_losses l2.

(** An attribute that was never set. *)
Definition getattr (o : option tensor) : result tensor :=
  match o with
  | Some t => Ok t
  | None => Raise AttributeError
  end.

(** Line 307. *)
Definition d_loss (l : losses) : result tensor :=
  let+ real := getattr (d_loss_real l) in
  let+ fake := getattr (d_loss_fake l) in
  let+ s1 :=? tf_add real fake in
  let+ s2 :=? tf_add s1 (d_lipschitz_penalty_loss l) in
  shaped (tf_add s2 (d_gradient_penalty_loss l)).

(** Lines 342-345: what the generator's optimizer minimises. *)
Definition g_objective (l : losses) : result tensor :=
  let+ g := getattr (g_loss l) in
  if optimize_penalty cfg
  then let+ s1 :=? tf_sub g (d_lipschitz_penalty_loss l) in
       shaped (tf_sub s1 (d_gradient_penalty_loss l))
  else Ok g.

End Graph.

(** ** Trainable variables and the two optimizers (lines 321-346) *)

Module Variables.

(** The layers of ops.py that create trainable variables. *)
Inductive layer_kind := Conv2d | Deconv2d | Linear | BatchNorm.

(** TensorFlow's name of a variable created by a layer called [layer] inside
    [tf.variable_scope(scope)]. *)
Definition var_name (scope layer suffix : string) : string :=
  scope ++ "/" ++ layer ++ "/" ++ suffix ++ ":0".

(** [discriminator]: lines 528-532, with [d_bn1..3] of lines 98-105. *)
Definition discriminator_layers (cfg : config) : list (string * layer_kind) :=
  [("d_h0_conv", Conv2d); ("d_h1_conv", Conv2d)] ++
  (if discriminator_batch_norm cfg then [("d_bn1", BatchNorm)] else []) ++
  [("d_h2_conv", Conv2d)] ++
  (if discriminator_batch_norm cfg then [("d_bn2", BatchNorm)] else []) ++
  [("d_h3_conv", Conv2d)] ++
  (if discriminator_batch_norm cfg then [("d_bn3", BatchNorm)] else []) ++
  [("d_h3_lin", Linear)].

(** [generator]: lines 548-565. *)
Definition generator_layers : list (string * layer_kind) :=
  [("g_h0_lin", Linear); ("g_bn0", BatchNorm);
   ("g_h1", Deconv2d); ("g_bn1", BatchNorm);
   ("g_h2", Deconv2d); ("g_bn2", BatchNorm);
   ("g_h3", Deconv2d); ("g_bn3", BatchNorm);
   ("g_h4", Deconv2d)].

Section Optimizers.

(** The names ops.py gives the trainable variables of each kind of layer. *)
Variable suffixes : layer_kind -> list string.

(** Values of variables and of gradients; the symbolic gradient of a loss
    and Adam's update of one variable belong to TensorFlow. *)
Variable Val : Type.
Variable gradient : bool -> gmap string Val -> string -> Val.
Variable adam : bool -> Val -> Val -> Val.

Variable cfg : config.

Definition scope_variables (scope : string) (layers : list (string * layer_kind))
  : list string :=
  flat_map (fun l => map (var_name scope (fst l)) (suffixes (snd l))) layers.

(** [tf.trainable_variables()], in the order of creation (lines 170-171). *)
Definition t_vars : list string :=
  scope_variables "generator" generator_layers ++
  scope_variables "discriminator" (discriminator_layers cfg).

(** Lines 323-324. *)
Definition d_vars : list string := List.filter (contains "d_") t_vars.
Definition g_vars : list string := List.filter (contains "g_") t_vars.

(** [opt.compute_gradients(loss, var_list=vars)]; the loss is [d_loss]
    ([true]) or the generator's objective ([false]). *)
Definition compute_gradients (loss : bool) (var_list : list string)
    (store : gmap string Val) : list (Val * string) :=
  map (fun v => (gradient loss store v, v)) var_list.

(** [opt.apply_gradients(grads_and_vars)]: each listed variable is updated. *)
Definition apply_gradients (opt : bool) (grads_and_vars : list (Val * string))
    (store : gmap string Val) : gmap string Val :=
  fold_left (fun m gv => alter (adam opt (fst gv)) (snd gv) m)
            grads_and_vars store.

(** One run of [self.d_optim] and of [self.g_optim]. *)
Definition d_optim (store : gmap string Val) : gmap string Val :=
  apply_gradients true (compute_gradients true d_vars store) store.

Definition g_optim (store : gmap string Val) : gmap string Val :=
  apply_gradients false (compute_gradients false g_vars store) store.

End Optimizers.

(** An instance of [suffixes]: the names the usual ops.py of DCGAN gives its
    trainable variables. *)
Definition ops_suffixes (k : layer_kind) : list string :=
  match k with
  | Conv2d | Deconv2d => ["w"; "biases"]
  | Linear => ["Matrix"; "bias"]
  | BatchNorm => ["beta"; "gamma"]
  end.

End Variables.

(** ** Effects: a trace of calls, and a state-and-exception monad *)

Inductive message :=
| MsgBuildModel
| MsgOk
| MsgConditionalNotSupported
| MsgFidWarning (n_old n_new : Z)
| MsgLoadTrainStats
| MsgLoadSuccess
| MsgLoadFailed
| MsgStatus (epoch batch_idx : Z) (g_updates : Z)
| MsgSample
| MsgException (e : exn)
| MsgSampleImageError
| MsgSamplesForInceptStart
| MsgSamplesForIncept (btch n_batches : Z)
| MsgCalculateFid
| MsgFid (v : Q).

(** A rendered summary, as [sess.run] returns it for [d_sum], [g_sum] and
    [fid_sum]. *)
Definition summary := nat.

(** The calls [__init__], [build_model] and [train] make to the outside. *)
Inductive event :=
| Print (m : message)
| GetLoader
| InitVariables
| StartQueueRunners
| NpLoadStats
| LoadCheckpoint
| AssignLearningRateD (lr : Q)
| AssignLearningRateG (lr : Q)
| RunDOptim
| RunGOptim
| AddSummary (s : summary) (counter : Z)
| RunSampler
| SaveImages (epoch batch_idx : Z)
| RunSamplerFid
| ActivationStatistics
| FrechetDistance
| AssignFid (v : Q)
| RunFidSum
| SaverSave (step : Z)
| RequestStop
| JoinThreads.

(** The values one [sess.run] of line 425 returns. *)
Record d_fetch := DFetch {
  errD_fake_ : Q;
  errD_real_ : Q;
  d_summary_str : summary;
  penD_gradient_ : Q;
  penD_lipschitz_ : Q;
  esti_slope_ : Q;
  lipschitz_estimate_ : Q
}.

(** The values the [sess.run] of line 436 returns. *)
Record g_fetch := GFetch { errG_ : Q; g_summary_str : summary }.

(** The outside: whether a call raises, what it returns, and how it changes
    the outside.  An interrupt shows as a call raising [KeyboardInterrupt]. *)
Record environment (W : Type) := Environment {
  raises : event -> W -> option exn;
  advance : event -> W -> W;
  d_fetches : W -> d_fetch;
  g_fetches : W -> g_fetch;
  fid_summary : W -> summary;
  frechet_distance : W -> Q;
  checkpoint_found : W -> bool;
  paths : W -> nat
}.
Arguments raises {W}. Arguments advance {W}. Arguments d_fetches {W}.
Arguments g_fetches {W}. Arguments fid_summary {W}.
Arguments frechet_distance {W}. Arguments checkpoint_found {W}.
Arguments paths {W}.

(** The local variables of [train] that outlive an exception. *)
Record locals := Locals {
  counter : Z;
  errD_fake : Q;
  errD_real : Q;
  errG : Q;
  errG_count : Z;
  penD_gradient : Q;
  penD_lipschitz : Q;
  esti_slope : Q;
  lipschitz_estimate : Q
}.

Definition reset_accumulators (c : Z) : locals :=
  {| counter := c; errD_fake := 0; errD_real := 0; errG := 0;
     errG_count := 0%Z; penD_gradient := 0; penD_lipschitz := 0;
     esti_slope := 0; lipschitz_estimate := 0 |}.

Definition with_counter (c : Z) (l : locals) : locals :=
  {| counter := c; errD_fake := errD_fake l; errD_real := errD_real l;
     errG := errG l; errG_count := errG_count l;
     penD_gradient := penD_gradient l; penD_lipschitz := penD_lipschitz l;
     esti_slope := esti_slope l; lipschitz_estimate := lipschitz_estimate l |}.

Definition add_g (g : g_fetch) (l : locals) : locals :=
  {| counter := counter l; errD_fake := errD_fake l; errD_real := errD_real l;
     errG := errG l + errG_ g; errG_count := (errG_count l + 1)%Z;
     penD_gradient := penD_gradient l; penD_lipschitz := penD_lipschitz l;
     esti_slope := esti_slope l; lipschitz_estimate := lipschitz_estimate l |}.

Definition add_d (d : d_fetch) (l : locals) : locals :=
  {| counter := counter l;
     errD_fake := errD_fake l + errD_fake_ d;
     errD_real := errD_real l + errD_real_ d;
     errG := errG l; errG_count := errG_count l;
     penD_gradient := penD_gradient l + penD_gradient_ d;
     penD_lipschitz := penD_lipschitz l + penD_lipschitz_ d;
     esti_slope := esti_slope l + esti_slope_ d;
     lipschitz_estimate := lipschitz_estimate l + lipschitz_estimate_ d |}.

Declare Scope effect_scope.
Delimit Scope effect_scope with effect.

Section Effects.

Variable W : Type.
Variable env : environment W.

Record state := State {
  world : W;
  trace : list event;
  vars : locals
}.

Definition M (A : Type) : Type := state -> result A * state.

Definition ret {A} (a : A) : M A := fun s => (Ok a, s).

Definition bind {A B} (m : M A) (k : A -> M B) : M B :=
  fun s => match m s with
           | (Ok a, s') => k a s'
           | (Raise e, s') => (Raise e, s')
           end.

Definition raise {A} (e : exn) : M A := fun s => (Raise e, s).

Definition lift {A} (r : result A) : M A := fun s => (r, s).

Local Notation "m ;; k" := (bind m (fun _ => k))
  (at level 100, right associativity).

(** A call to the outside: recorded, then it returns or raises. *)
Definition call (e : event) : M unit :=
  fun s =>
    let s' := {| world := advance env e (world s);
                 trace := trace s ++ [e];
                 vars := vars s |} in
    match raises env e (world s) with
    | Some x => (Raise x, s')
    | None => (Ok tt, s')
    end.

(** [print] does not fail. *)
Definition print (m : message) : M unit :=
  fun s => (Ok tt, {| world := world s; trace := trace s ++ [Print m];
                      vars := vars s |}).

Definition ask {A} (f : W -> A) : M A := fun s => (Ok (f (world s)), s).

Definition get_locals : M locals := fun s => (Ok (vars s), s).

Definition set_locals (l : locals) : M unit :=
  fun s => (Ok tt, {| world := world s; trace := trace s; vars := l |}).

Definition modify_locals (f : locals -> locals) : M unit :=
  fun s => (Ok tt, {| world := world s; trace := trace s; vars := f (vars s) |}).

Definition py_assert (b : bool) (msg : string) : M unit :=
  if b then ret tt else raise (AssertionError msg).

Definition when_ (b : bool) (m : M unit) : M unit :=
  if b then m else ret tt.

(** [try: body  except ...: handler]; [handler e] is [None] when no clause
    matches [e], which then propagates. *)
Definition try_except {A} (body : M A) (handler : exn -> option (M A)) : M A :=
  fun s => match body s with
           | (Ok a, s') => (Ok a, s')
           | (Raise e, s') =>
               match handler e with
               | Some h => h s'
               | None => (Raise e, s')
               end
           end.

(** [try: body  finally: fin]: [fin] runs on every exit of [body]; an
    exception of [body] is raised again after it unless [fin] raises. *)
Definition try_finally {A} (body : M A) (fin : M unit) : M A :=
  fun s => match body s with
           | (r, s') =>
               match fin s' with
               | (Ok _, s'') => (r, s'')
               | (Raise e, s'') => (Raise e, s'')
               end
           end.

(** [for i in range(n): body] *)
Fixpoint for_loop (n : nat) (body : Z -> M unit) : M unit :=
  match n with
  | O => ret tt
  | S m => for_loop m body ;; body (Z.of_nat m)
  end.

Definition for_range (n : Z) (body : Z -> M unit) : M unit :=
  for_loop (range_len n) body.

End Effects.

Arguments ret {W A}. Arguments bind {W A B}. Arguments raise {W A}.
Arguments lift {W A}. Arguments call {W}. Arguments print {W}.
Arguments ask {W A}. Arguments get_locals {W}. Arguments set_locals {W}.
Arguments modify_locals {W}. Arguments py_assert {W}. Arguments when_ {W}.
Arguments try_except {W A}. Arguments try_finally {W A}.
Arguments for_loop {W}. Arguments for_range {W}.
Arguments State {W}. Arguments world {W}. Arguments trace {W}.
Arguments vars {W}.

Notation "x <- m ;; k" := (bind m (fun x => k))
  (at level 100, m at next level, right associativity) : effect_scope.
Notation "m ;; k" := (bind m (fun _ => k))
  (at level 100, right associativity) : effect_scope.

(** ** [DCGAN.__init__] and [DCGAN.build_model] *)

(** The attributes of [self] the training loop reads. *)
Record dcgan := Dcgan {
  self_config : config;
  self_fid_n_samples : Z;
  self_paths : nat
}.

(** Python's truth value of [y_dim]. *)
Definition truthy (y : option nat) : bool :=
  match y with
  | Some (S _) => true
  | _ => false
  end.

Definition gan_methods : list string :=
  ["penalized_wgan"; "improved_wgan"; "regular_gan"].

Definition string_in (x : string) (l : list string) : bool :=
  existsb (String.eqb x) l.

Section Model.
Local Open Scope effect_scope.

Variable W : Type.
Variable env : environment W.
Variable tf : backend.

(** Lines 371-377. *)
Definition adjust_fid_n_samples (n batchsize : Z) : M W Z :=
  r <- lift (py_mod n batchsize) ;;
  if negb (r =? 0)%Z
  then new_bs <- lift (py_floordiv n batchsize) ;;
       let n_old := n in
       let n_new := (new_bs * batchsize)%Z in
       print (MsgFidWarning n_old n_new) ;;
       ret n_new
  else ret n.

(** Lines 151-155: [tf.random_normal(shape, ...)] creates its op only for a
    shape without a negative dimension. *)
Definition tf_random_normal (dims : list Z) : result unit :=
  if forallb (fun d => 0 <=? d)%Z dims then Ok tt else Raise ValueError.

(** [build_model]; [fd] stands for the tensors the loader and the random ops
    put into the graph, and constructing the graph raises what evaluating it
    there raises. *)
Definition build_model (cfg : config) (fd : feed) : M W dcgan :=
  call env GetLoader ;;
  n_paths <- ask (paths env) ;;
  lift (tf_random_normal [Z.of_nat (batch_size cfg); Z.of_nat (z_dim cfg)]) ;;
  lift (tf_random_normal [fid_sample_batchsize cfg; Z.of_nat (z_dim cfg)]) ;;
  lift (tf_random_normal [Z.of_nat (sample_num cfg); Z.of_nat (z_dim cfg)]) ;;
  if truthy (y_dim cfg)
  then print MsgConditionalNotSupported ;; raise SystemExit
  else
    lift (rbind (build_losses tf cfg fd) (fun l =>
          rbind (d_loss l) (fun _ => g_objective cfg l))) ;;
    call env InitVariables ;;
    call env StartQueueRunners ;;
    n <- adjust_fid_n_samples (fid_n_samples cfg) (fid_sample_batchsize cfg) ;;
    ret {| self_config := cfg; self_fid_n_samples := n;
           self_paths := n_paths |}.

(** Lines 68-72 and 135-137 of [__init__]. *)
Definition __init__ (cfg : config) (fd : feed) : M W dcgan :=
  py_assert (Qle_bool 0 (lipschitz_penalty cfg))
            "the lipschitz penalty must be non-negative" ;;
  py_assert (Qle_bool 0 (gradient_penalty cfg))
            "the lipschitz penalty must be non-negative" ;;
  py_assert (string_in (gan_method cfg) gan_methods)
            ("the gan method must be of type 'penalized_wgan', 'improved_wgan' or 'regular_gan', not "
             ++ gan_method cfg) ;;
  py_assert (1 <=? num_discriminator_updates cfg)%Z
            "num_discriminator_updates must be at least 1" ;;
  print MsgBuildModel ;;
  self <- build_model cfg fd ;;
  print MsgOk ;;
  ret self.

(** ** [DCGAN.train] *)

(** The fields of [config] that [train] reads. *)
Record train_config := TrainConfig {
  epoch : Z;
  learning_rate_d : Q;
  learning_rate_g : Q;
  train_size : Z;
  config_batch_size : Z;
  fid_eval_steps : Z
}.

Variable self : dcgan.
Variable config : train_config.

Definition Qgtb (x y : Q) : bool := Qltb y x.

(** Lines 425-430: the discriminator's updates; the values of the first run
    are kept. *)
Definition update_D : M W d_fetch :=
  call env RunDOptim ;;
  d <- ask (d_fetches env) ;;
  for_range (num_discriminator_updates (self_config self) - 1)
            (fun _ => call env RunDOptim) ;;
  ret d.

(** Lines 434-440. *)
Definition update_G (c : Z) : M W unit :=
  when_ (Qgtb (learning_rate_g config) 0)
    (call env RunGOptim ;;
     g <- ask (g_fetches env) ;;
     when_ (np_mod c 20 =? 0)%Z (call env (AddSummary (g_summary_str g) c)) ;;
     modify_locals (add_g g)).

(** Lines 466-474. *)
Definition save_samples (epoch_ batch_idx : Z) : M W unit :=
  try_except
    (call env RunSampler ;;
     call env (SaveImages epoch_ batch_idx) ;;
     print MsgSample)
    (fun e => if is_Exception e
              then Some (print (MsgException e) ;; print MsgSampleImageError)
              else None).

(** The shape of [self.sampler_fid] (lines 172 and 596): one image of
    [c_dim] channels for each row of [z_fid]. *)
Definition sampler_fid_shape : list nat :=
  [Z.to_nat (fid_sample_batchsize (self_config self));
   output_height (self_config self); output_width (self_config self);
   c_dim (self_config self)].

(** Lines 495-500. *)
Definition calculate_fid : M W Q :=
  try_except
    (call env FrechetDistance ;; ask (frechet_distance env))
    (fun e => if is_Exception e
              then Some (print (MsgException e) ;; ret 500)
              else None).

(** Lines 464-507; [samples] is the shape of the array of line 479, filled
    slice by slice in line 484. *)
Definition evaluate_fid (epoch_ batch_idx c : Z) : M W unit :=
  save_samples epoch_ batch_idx ;;
  print MsgSamplesForInceptStart ;;
  samples <- lift (np_zeros [self_fid_n_samples self;
                             Z.of_nat (output_height (self_config self));
                             Z.of_nat (output_width (self_config self));
                             3%Z]) ;;
  n_batches <- lift (py_floordiv (self_fid_n_samples self)
                                 (fid_sample_batchsize (self_config self))) ;;
  for_range n_batches
    (fun btch =>
       let lo := (btch * fid_sample_batchsize (self_config self))%Z in
       print (MsgSamplesForIncept (btch + 1) n_batches) ;;
       call env RunSamplerFid ;;
       lift (np_assign_slice (hd O samples) (tl samples)
               lo (lo + fid_sample_batchsize (self_config self))
               sampler_fid_shape)) ;;
  print MsgOk ;;
  call env ActivationStatistics ;;
  print MsgCalculateFid ;;
  FID <- calculate_fid ;;
  print (MsgFid FID) ;;
  call env (AssignFid FID) ;;
  call env RunFidSum ;;
  summary_str <- ask (fid_summary env) ;;
  call env (AddSummary summary_str c).

(** Line 510. *)
Definition checkpoint_due (c : Z) : bool :=
  negb (c =? 0)%Z && (np_mod c 2000 =? 0)%Z.

(** Lines 431-513: the rest of the body once the discriminator is updated,
    with [d] the values fetched by line 425 and [c] the counter. *)
Definition finish_step (epoch_ batch_idx : Z) (d : d_fetch) (c : Z) : M W unit :=
  when_ (np_mod c 20 =? 0)%Z (call env (AddSummary (d_summary_str d) c)) ;;
  update_G c ;;
  modify_locals (add_d d) ;;
  when_ (np_mod c 100 =? 0)%Z
    (l <- get_locals ;;
     print (MsgStatus epoch_ batch_idx (errG_count l)) ;;
     set_locals (reset_accumulators c)) ;;
  when_ (np_mod c (fid_eval_steps config) =? 0)%Z
    (evaluate_fid epoch_ batch_idx c) ;;
  when_ (checkpoint_due c) (call env (SaverSave c)) ;;
  modify_locals (with_counter (c + 1)%Z).

(** Lines 424-513: the body of the loop over batches. *)
Definition step (epoch_ batch_idx : Z) : M W unit :=
  d <- update_D ;;
  l <- get_locals ;;
  finish_step epoch_ batch_idx d (counter l).

(** Lines 414-513. *)
Definition epochs (batch_nums : Z) : M W unit :=
  for_range (epoch config)
    (fun epoch_ =>
       call env (AssignLearningRateD (learning_rate_d config)) ;;
       call env (AssignLearningRateG (learning_rate_g config)) ;;
       for_range batch_nums (fun batch_idx => step epoch_ batch_idx)).

(** Lines 514-517: the two [except] clauses. *)
Definition handlers (e : exn) : option (M W unit) :=
  if is_KeyboardInterrupt e
  then Some (l <- get_locals ;; call env (SaverSave (counter l)))
  else if is_Exception e
  then Some (print (MsgException e))
  else None.

(** Lines 518-521: the [finally] clause. *)
Definition shutdown : M W unit :=
  call env RequestStop ;; call env JoinThreads.

(** Lines 412-521. *)
Definition training_loop (batch_nums : Z) : M W unit :=
  try_finally (try_except (epochs batch_nums) handlers) shutdown.

Definition train : M W unit :=
  py_assert (0 <? self_paths self)%nat "no data loaded, was model not built?" ;;
  print MsgLoadTrainStats ;;
  call env NpLoadStats ;;
  print MsgOk ;;
  when_ (load_checkpoint (self_config self))
    (call env LoadCheckpoint ;;
     found <- ask (checkpoint_found env) ;;
     print (if found : bool then MsgLoadSuccess else MsgLoadFailed)) ;;
  batch_nums <- lift (py_floordiv (Z.min (Z.of_nat (self_paths self))
                                         (train_size config))
                                  (config_batch_size config)) ;;
  set_locals (reset_accumulators (counter_start (self_config self))) ;;
  training_loop batch_nums.

End Model.

(** ** Concrete instances, for evaluating the model *)

Module Demo.

(** Rational stand-ins for TensorFlow's elementwise functions. *)
Definition sqrt_floor (q : Q) : Q :=
  Z.sqrt (Qnum q * 10 ^ 12 / Zpos (Qden q)) # 1000000.

Definition soft_sign (x : Q) : Q := (1 # 2) + x / (2 * (1 + Qabs x)).

Definition hinge (x y : Q) : Q := Qmax x 0 - x * y.

(** A discriminator that sums the pixels of each sample (logits of shape
    [batch, 1]), its gradient, and a generator with the constant output [g]. *)
Definition sum_logits (x : tensor) : tensor :=
  Tensor [nth 0 (shape x) O; 1%nat]
         (fun idx => elem (tf_reduce_sum [1; 2; 3]%nat x) [nth 0 idx O]).

Definition linear_backend (g : tensor) : backend := {|
  tf_sqrt := sqrt_floor;
  tf_sigmoid := soft_sign;
  tf_sigmoid_cross_entropy := hinge;
  generator_net := fun _ => g;
  discriminator_net := sum_logits;
  discriminator_grad := tf_ones_like
|}.



(** Two samples of 2 x 2 pixels and one channel. *)
Definition small_config (method : string) : config := {|
  batch_size := 2; sample_num := 2;
  output_height := 2; output_width := 2;
  y_dim := None; z_dim := 1; c_dim := 1;
  gan_method := method;
  lipschitz_penalty := 1 # 10;
  gradient_penalty := 1 # 10;
  optimize_penalty := false;
  calculate_slope := true;
  discriminator_batch_norm := true;
  counter_start := 0;
  fid_n_samples := 10000;
  fid_sample_batchsize := 3000;
  fid_batch_size := 500;
  num_discriminator_updates := 3;
  load_checkpoint := false
|}.

Definition real_images : tensor := Tensor [2; 2; 2; 1]%nat (fun _ => 1).
Definition fake_images : tensor := tf_zeros [2; 2; 2; 1]%nat.

(** The draw 1/4 for row 0 of [alpha] and 3/4 for row 1. *)
Definition quarters (idx : list nat) : Q :=
  match idx with
  | O :: _ => 1 # 4
  | _ => 3 # 4
  end.

Definition small_feed : feed := {|
  inputs := real_images;
  z := tf_zeros [2; 1]%nat;
  alpha_penalized := fun idx => quarters idx / 100;
  alpha_improved := quarters
|}.



(** An outside that counts the calls made so far; [script] says which call
    raises. *)
Definition scripted (script : event -> nat -> option exn) : environment nat := {|
  raises := script;
  advance := fun _ w => S w;
  d_fetches := fun w =>
    {| errD_fake_ := inject_Z (Z.of_nat w); errD_real_ := 1;
       d_summary_str := w; penD_gradient_ := 0; penD_lipschitz_ := 0;
       esti_slope_ := 0; lipschitz_estimate_ := 0 |};
  g_fetches := fun w => {| errG_ := 1; g_summary_str := w |};
  fid_summary := fun w => w;
  frechet_distance := fun _ => 42;
  checkpoint_found := fun _ => false;
  paths := fun _ => 8%nat
|}.

Definition quiet : environment nat := scripted (fun _ _ => None).

(** An outside where the Frechet distance always fails. *)
Definition singular : exn := RuntimeError "singular product".

Definition failing_fid : environment nat :=
  scripted (fun e _ => match e with
                       | FrechetDistance => Some singular
                       | _ => None
                       end).

(** An outside where the user interrupts the loop at its call number [n]. *)
Definition interrupted (n : nat) : environment nat :=
  scripted (fun e w =>
              match e with
              | SaverSave _ | RequestStop | JoinThreads => None
              | _ => if (w =? n)%nat then Some KeyboardInterrupt else None
              end).

Definition at_counter (c : Z) : state nat :=
  {| world := O; trace := []; vars := reset_accumulators c |}.

Definition start : state nat := at_counter 0.

Definition model : dcgan :=
  {| self_config := small_config "regular_gan";
     self_fid_n_samples := 9000;
     self_paths := 8 |}.

Definition run : train_config :=
  {| epoch := 1;
     learning_rate_d := 1 # 5000;
     learning_rate_g := 1 # 5000;
     train_size := 8;
     config_batch_size := 2;
     fid_eval_steps := 500 |}.

End Demo.

(** ** Statements used by the properties *)

(** [idx] is an index into a tensor of shape [s]. *)
Definition in_range (idx s : list nat) : Prop := Forall2 lt idx s.




(** [t] is [a b * x + (1 - a b) * g] on every element of sample [b], for one
    coefficient [a b] per sample. *)
Definition one_alpha_per_sample (x g t : tensor) : Prop :=
  exists a : nat -> Q,
    forall b h w c, in_range [b; h; w; c] (shape t) ->
      elem t [b; h; w; c] ==
      a b * elem x [b; h; w; c] + (1 - a b) * elem g [b; h; w; c].

Definition is_ok {A} (r : result A) : bool :=
  match r with
  | Ok _ => true
  | Raise _ => false
  end.

(** A variable name of the layer library that mentions neither prefix. *)
Definition plain (suffix : string) : Prop :=
  contains "d_" suffix = false /\ contains "g_" suffix = false.

(** Which calls a trace counts. *)
Definition is_RunDOptim (e : event) : bool :=
  match e with RunDOptim => true | _ => false end.

Definition is_RunGOptim (e : event) : bool :=
  match e with RunGOptim => true | _ => false end.

Definition is_SaverSave (e : event) : bool :=
  match e with SaverSave _ => true | _ => false end.

Definition is_AssignFid (e : event) : bool :=
  match e with AssignFid _ => true | _ => false end.

Definition count (P : event -> bool) (tr : list event) : nat :=
  length (List.filter P tr).

(** Whatever [m] does, it only adds calls satisfying [P] to the trace, and a
    value it returns satisfies [R]. *)
Definition emits {W A} (P : event -> bool) (R : A -> Prop) (m : M W A) : Prop :=
  forall s r s', m s = (r, s') ->
    (exists tr, trace s' = trace s ++ tr /\ forallb P tr = true) /\
    (forall a, r = Ok a -> R a).

(** [m] returns, from every state. *)
Definition total {W A} (m : M W A) : Prop :=
  forall s, exists a s', m s = (Ok a, s').

(** Calls that are neither an optimizer run nor a checkpoint, and those
    among them that do not write the FID variable. *)
Definition is_eval_call (e : event) : bool :=
  negb (is_RunDOptim e || is_RunGOptim e || is_SaverSave e).

Definition is_plain_call (e : event) : bool :=
  is_eval_call e && negb (is_AssignFid e).

Definition is_generator_call (e : event) : bool :=
  is_RunGOptim e || is_plain_call e.

(** What the rest of a step at counter [c] may call: no discriminator update,
    and no checkpoint other than the one of step [c], and that only when it
    is due. *)
Definition after_update_call (c : Z) (e : event) : bool :=
  match e with
  | RunDOptim => false
  | SaverSave n => (n =? c)%Z && checkpoint_due c
  | _ => true
  end.

(** ** [conv_out_size_same] and the sizes inside the generator *)

(** [float(n)] of a Python int: the nearest binary64 value, and
    [OverflowError] when that is beyond the largest one. *)
Definition py_float (n : Z) : result Q :=
  let x := Float.float64 (inject_Z n) in
  if Qle_bool (2 ^ 1024) (Qabs x) then Raise OverflowError else Ok x.

(** [a / b] on Python floats. *)
Definition py_float_truediv (a b : Q) : result Q :=
  if Qeq_bool b 0 then Raise ZeroDivisionError
  else Ok (Float.float64 (a / b)).

(** Lines 18-19: [int(math.ceil(float(size) / float(stride)))].  The
    quotient of two binary64 integers does not overflow, and [math.ceil] and
    [int] are exact. *)
Definition conv_out_size_same (size stride : Z) : result Z :=
  rbind (py_float size) (fun a =>
  rbind (py_float stride) (fun b =>
  rbind (py_float_truediv a b) (fun q =>
  Ok (Qceiling q)))).

(** Lines 541-545 (and 576-580 of [sampler_func]): the sizes [s_h2], [s_h4],
    [s_h8] and [s_h16] of one axis of output size [s]. *)
Definition halvings (s : Z) : result (Z * Z * Z * Z) :=
  rbind (conv_out_size_same s 2) (fun s2 =>
  rbind (conv_out_size_same s2 2) (fun s4 =>
  rbind (conv_out_size_same s4 2) (fun s8 =>
  rbind (conv_out_size_same s8 2) (fun s16 =>
  Ok (s2, s4, s8, s16))))).

(** Lines 383-400 of [train]: what runs before the [try]. *)
Definition train_prelude {W} (env : environment W) (self : dcgan)
    (config : train_config) : M W Z :=
  bind (py_assert (0 <? self_paths self)%nat
                  "no data loaded, was model not built?") (fun _ =>
  bind (print MsgLoadTrainStats) (fun _ =>
  bind (call env NpLoadStats) (fun _ =>
  bind (print MsgOk) (fun _ =>
  bind (when_ (load_checkpoint (self_config self))
          (bind (call env LoadCheckpoint) (fun _ =>
           bind (ask (checkpoint_found env)) (fun found =>
           print (if found : bool then MsgLoadSuccess else MsgLoadFailed)))))
       (fun _ =>
  bind (lift (py_floordiv (Z.min (Z.of_nat (self_paths self))
                                 (train_size config))
                          (config_batch_size config))) (fun batch_nums =>
  bind (set_locals (reset_accumulators (counter_start (self_config self))))
       (fun _ => ret batch_nums))))))).

(** [m] started at counter [c] leaves the counter at [c]. *)
Definition keeps_counter {W A} (c : Z) (m : M W A) : Prop :=
  forall s r s', counter (vars s) = c -> m s = (r, s') -> counter (vars s') = c.

(** [m] started at counter [c] ends at [c + 1] when it returns and at [c]
    when it raises. *)
Definition counts_one {W A} (c : Z) (m : M W A) : Prop :=
  forall s r s', counter (vars s) = c -> m s = (r, s') ->
    counter (vars s') = (if is_ok r then c + 1 else c)%Z.

(** [m] leaves the local variables as they are. *)
Definition keeps_vars {W A} (m : M W A) : Prop :=
  forall s r s', m s = (r, s') -> vars s' = vars s.

Definition is_RunSamplerFid (e : event) : bool :=
  match e with RunSamplerFid => true | _ => false end.

Definition is_shutdown_call (e : event) : bool :=
  match e with RequestStop | JoinThreads => true | _ => false end.

(** [m] moves the counter forward by [d] when it returns, and by no more
    than [d] when it raises. *)
Definition advances {W A} (d : Z) (m : M W A) : Prop :=
  forall s r s', m s = (r, s') ->
    (is_ok r = true -> counter (vars s') = (counter (vars s) + d)%Z) /\
    (counter (vars s) <= counter (vars s') <= counter (vars s) + d)%Z.

(** * Properties *)

(** ** Broadcasting *)

Lemma broadcast_dim_refl d : broadcast_dim d d = Some d.
Proof. unfold broadcast_dim. now rewrite Nat.eqb_refl. Qed.

Lemma broadcast_dim_one_l d : broadcast_dim 1 d = Some d.
Proof.
  unfold broadcast_dim. destruct (Nat.eqb_spec 1 d) as [<- | _]; reflexivity.
Qed.

Lemma broadcast_dim_one_r d : broadcast_dim d 1 = Some d.
Proof.
  unfold broadcast_dim. destruct (Nat.eqb_spec d 1) as [-> | _]; [reflexivity |].
  destruct (Nat.eqb_spec 1 1); [reflexivity | contradiction].
Qed.

Lemma broadcast_dim_none a b :
  a <> b -> a <> 1%nat -> b <> 1%nat -> broadcast_dim a b = None.
Proof.
  intros Hab Ha Hb. unfold broadcast_dim.
  destruct (Nat.eqb_spec a b); [contradiction |].
  destruct (Nat.eqb_spec a 1); [contradiction |].
  destruct (Nat.eqb_spec b 1); [contradiction | reflexivity].
Qed.

Lemma broadcast_rev_refl r : broadcast_rev r r = Some r.
Proof.
  induction r as [| d r IH]; [reflexivity |].
  simpl. now rewrite broadcast_dim_refl, IH.
Qed.

Lemma broadcast_shape_refl s : broadcast_shape s s = Some s.
Proof.
  unfold broadcast_shape. now rewrite broadcast_rev_refl, rev_involutive.
Qed.

Lemma broadcast_shape_scalar_l s : broadcast_shape [] s = Some s.
Proof. unfold broadcast_shape. simpl. now rewrite rev_involutive. Qed.

Lemma broadcast_rev_nil_r r : broadcast_rev r [] = Some r.
Proof. now destruct r. Qed.

Lemma broadcast_shape_scalar_r s : broadcast_shape s [] = Some s.
Proof.
  unfold broadcast_shape. simpl. now rewrite broadcast_rev_nil_r, rev_involutive.
Qed.

(** The improved_wgan coefficient of shape [B, 1] against images of shape
    [B, H, B, C]. *)
Lemma broadcast_shape_column B H C :
  broadcast_shape [B; 1]%nat [B; H; B; C] = Some [B; H; B; C].
Proof.
  unfold broadcast_shape. simpl.
  now rewrite broadcast_dim_one_l, broadcast_dim_refl.
Qed.

(** The penalized_wgan coefficient of shape [B, 1, 1, 1]. *)
Lemma broadcast_shape_sample B H Wd C :
  broadcast_shape [B; 1; 1; 1]%nat [B; H; Wd; C] = Some [B; H; Wd; C].
Proof.
  unfold broadcast_shape. simpl.
  now rewrite !broadcast_dim_one_l, broadcast_dim_refl.
Qed.

Lemma broadcast_shape_column_mismatch B H Wd C :
  B <> Wd -> B <> 1%nat -> Wd <> 1%nat ->
  broadcast_shape [B; 1]%nat [B; H; Wd; C] = None.
Proof.
  intros. unfold broadcast_shape. simpl.
  rewrite broadcast_dim_one_l, broadcast_dim_none; auto.
Qed.

Lemma pick_in_range d i : (i < d)%nat -> (if (d =? 1)%nat then O else i) = i.
Proof. intros Hi. destruct (Nat.eqb_spec d 1); [lia | reflexivity]. Qed.

Lemma operand_index_full B H Wd C b h w c :
  in_range [b; h; w; c] [B; H; Wd; C] ->
  operand_index [B; H; Wd; C] [b; h; w; c] = [b; h; w; c].
Proof.
  intros Hr. unfold in_range in Hr.
  repeat match goal with
         | Hx : Forall2 _ (_ :: _) (_ :: _) |- _ =>
             apply Forall2_cons_1 in Hx; destruct Hx
         end.
  unfold operand_index. simpl. now rewrite !pick_in_range.
Qed.

(** ** The interpolation coefficient (improved_wgan and penalized_wgan) *)

Lemma operand_index_column B b h w c :
  B <> 1%nat -> operand_index [B; 1]%nat [b; h; w; c] = [w; O].
Proof.
  intros HB. unfold operand_index. simpl.
  destruct (Nat.eqb_spec B 1); [contradiction | reflexivity].
Qed.

Lemma operand_index_column2 B w :
  B <> 1%nat -> operand_index [B; 1]%nat [w; O] = [w; O].
Proof.
  intros HB. unfold operand_index. simpl.
  destruct (Nat.eqb_spec B 1); [contradiction | reflexivity].
Qed.

Lemma operand_index_sample B b h w c :
  (b < B)%nat -> operand_index [B; 1; 1; 1]%nat [b; h; w; c] = [b; O; O; O].
Proof.
  intros Hb. unfold operand_index. simpl. now rewrite pick_in_range.
Qed.

(** With as many columns as samples, improved_wgan's [alpha] of shape
    [batch_size, 1] lines up with the column axis: element [b, h, w, c] of
    the interpolate is mixed with the coefficient of row [w]. *)
Lemma interpolates_by_column tf cfg fd H C :
  batch_size cfg <> 1%nat ->
  shape (inputs fd) = [batch_size cfg; H; batch_size cfg; C] ->
  shape (G tf fd) = [batch_size cfg; H; batch_size cfg; C] ->
  exists t,
    interpolates tf cfg fd = Ok t /\
    shape t = [batch_size cfg; H; batch_size cfg; C] /\
    forall b h w c,
      in_range [b; h; w; c] [batch_size cfg; H; batch_size cfg; C] ->
      elem t [b; h; w; c] =
      alpha_improved fd [w; O] * elem (inputs fd) [b; h; w; c]
      + (1 - alpha_improved fd [w; O]) * elem (G tf fd) [b; h; w; c].
Proof.
  intros HB Hx Hg.
  unfold interpolates, interpolate, tf_mul, tf_sub, tf_add, tf_binop.
  cbn [shape tf_random_uniform scalar].
  rewrite Hx, Hg, broadcast_shape_column, broadcast_shape_scalar_l.
  cbn [shaped rbind shape]. rewrite broadcast_shape_column.
  cbn [shaped rbind shape]. rewrite broadcast_shape_refl.
  cbn [shaped rbind shape].
  eexists. split; [reflexivity |]. split; [reflexivity |].
  intros b h w c Hr. cbn [elem].
  rewrite !(operand_index_full _ _ _ _ _ _ _ _ Hr).
  rewrite !operand_index_column, operand_index_column2 by assumption.
  reflexivity.
Qed.

(** Otherwise TensorFlow rejects the product [alpha * inputs]. *)
Lemma interpolates_rejected tf cfg fd H Wd C :
  batch_size cfg <> Wd -> batch_size cfg <> 1%nat -> Wd <> 1%nat ->
  shape (inputs fd) = [batch_size cfg; H; Wd; C] ->
  interpolates tf cfg fd = Raise ValueError.
Proof.
  intros H1 H2 H3 Hx.
  unfold interpolates, interpolate, tf_mul, tf_binop.
  cbn [shape tf_random_uniform].
  now rewrite Hx, broadcast_shape_column_mismatch.
Qed.


(** C1 (code fails the claim).  improved_wgan, two samples of 2 x 2 pixels,
    real images all 1, generated images all 0, [alpha] drawn as 1/4 and 3/4:
    within sample 0 the interpolate is 1/4 in column 0 and 3/4 in column 1,
    and sample 1 repeats sample 0, so no single coefficient per sample
    produces it. *)
Theorem improved_wgan_alpha_varies_within_sample :
  exists t,
    interpolates (Demo.linear_backend Demo.fake_images)
                 (Demo.small_config "improved_wgan") Demo.small_feed = Ok t /\
    elem t [0; 0; 0; 0]%nat == 1 # 4 /\
    elem t [0; 0; 1; 0]%nat == 3 # 4 /\
    elem t [1; 0; 0; 0]%nat == 1 # 4 /\
    ~ one_alpha_per_sample Demo.real_images Demo.fake_images t.
Proof.
  eexists. split; [reflexivity |].
  match goal with |- elem ?t _ == _ /\ _ => set (x_hat := t) end.
  assert (E1 : elem x_hat [0; 0; 0; 0]%nat == 1 # 4) by (vm_compute; reflexivity).
  assert (E2 : elem x_hat [0; 0; 1; 0]%nat == 3 # 4) by (vm_compute; reflexivity).
  assert (E3 : elem x_hat [1; 0; 0; 0]%nat == 1 # 4) by (vm_compute; reflexivity).
  repeat (split; [assumption |]).
  intros [a Ha].
  assert (R : forall w, (w < 2)%nat -> in_range [0; 0; w; 0]%nat (shape x_hat)).
  { intros w Hw. unfold in_range. cbn.
    repeat (constructor; [lia |]). constructor. }
  pose proof (Ha O O O O (R O ltac:(lia))) as A1.
  pose proof (Ha O O 1%nat O (R 1%nat ltac:(lia))) as A2.
  cbn [Demo.real_images Demo.fake_images elem tf_zeros] in A1, A2.
  lra.
Qed.

(** ** The penalty scalars (lines 196-301) *)

Lemma rbind_ok_inv {A B} (r : result A) (k : A -> result B) b :
  rbind r k = Ok b -> exists a, r = Ok a /\ k a = Ok b.
Proof. destruct r as [a | e]; simpl; [eauto | discriminate]. Qed.

Lemma shaped_ok_inv {A} (o : option A) a : shaped o = Ok a -> o = Some a.
Proof. destruct o; simpl; congruence. Qed.

Ltac invert_binds H :=
  repeat (let a := fresh "a" in
          let E := fresh "E" in
          apply rbind_ok_inv in H; destruct H as (a & E & H);
          try apply shaped_ok_inv in E).

Lemma when_false f l : when false f l = Ok l.
Proof. reflexivity. Qed.

Lemma improved_wgan_keeps tf cfg fd l l' :
  improved_wgan_losses tf cfg fd l = Ok l' ->
  d_lipschitz_penalty_loss l' = d_lipschitz_penalty_loss l /\
  d_mean_slope_target l' = d_mean_slope_target l /\
  d_lipschitz_estimate l' = d_lipschitz_estimate l.
Proof.
  unfold improved_wgan_losses. intros Hl. invert_binds Hl.
  injection Hl as <-. auto.
Qed.

Lemma regular_gan_keeps tf fd l l' :
  regular_gan_losses tf fd l = Ok l' ->
  d_lipschitz_penalty_loss l' = d_lipschitz_penalty_loss l /\
  d_gradient_penalty_loss l' = d_gradient_penalty_loss l /\
  d_mean_slope_target l' = d_mean_slope_target l /\
  d_lipschitz_estimate l' = d_lipschitz_estimate l.
Proof.
  unfold regular_gan_losses. intros Hl. invert_binds Hl.
  injection Hl as <-. auto.
Qed.

Lemma when_keeps (P : losses -> losses -> Prop) b f l l' :
  (forall x, P x x) -> (forall x y, f x = Ok y -> P x y) ->
  when b f l = Ok l' -> P l l'.
Proof.
  intros Hrefl Hf. destruct b; simpl; [apply Hf |].
  intros [= <-]. apply Hrefl.
Qed.

(** C2.  Whatever [build_model] computes, the penalty scalars of a method
    that is not selected are the zeros of lines 197-200: without
    penalized_wgan the Lipschitz penalty, the mean slope target and the
    Lipschitz estimate are exactly 0, and without penalized_wgan and
    improved_wgan the gradient penalty is exactly 0 too.  So regular_gan has
    all four at 0 and improved_wgan the three. *)
Theorem unselected_penalties_zero tf cfg fd l :
  build_losses tf cfg fd = Ok l ->
  (gan_method cfg <> "penalized_wgan" ->
     value (d_lipschitz_penalty_loss l) = 0 /\
     value (d_mean_slope_target l) = 0 /\
     value (d_lipschitz_estimate l) = 0) /\
  (gan_method cfg <> "penalized_wgan" -> gan_method cfg <> "improved_wgan" ->
     value (d_gradient_penalty_loss l) = 0) /\
  (gan_method cfg = "regular_gan" ->
     value (d_lipschitz_penalty_loss l) = 0 /\
     value (d_gradient_penalty_loss l) = 0 /\
     value (d_mean_slope_target l) = 0 /\
     value (d_lipschitz_estimate l) = 0) /\
  (gan_method cfg = "improved_wgan" ->
     value (d_lipschitz_penalty_loss l) = 0 /\
     value (d_mean_slope_target l) = 0 /\
     value (d_lipschitz_estimate l) = 0).
Proof.
  intros Hl.
  assert (Hthree : gan_method cfg <> "penalized_wgan" ->
     value (d_lipschitz_penalty_loss l) = 0 /\
     value (d_mean_slope_target l) = 0 /\
     value (d_lipschitz_estimate l) = 0).
  { intros Hp. unfold build_losses in Hl.
    apply rbind_ok_inv in Hl. destruct Hl as (Gi & _ & Hl).
    apply rbind_ok_inv in Hl. destruct Hl as (l1 & H1 & Hl).
    apply rbind_ok_inv in Hl. destruct Hl as (l2 & H2 & H3).
    destruct (String.eqb_spec (gan_method cfg) "penalized_wgan");
      [contradiction |].
    simpl in H1. injection H1 as <-.
    apply (when_keeps (fun x y =>
             d_lipschitz_penalty_loss y = d_lipschitz_penalty_loss x /\
             d_mean_slope_target y = d_mean_slope_target x /\
             d_lipschitz_estimate y = d_lipschitz_estimate x)) in H2;
      [| auto | apply improved_wgan_keeps].
    apply (when_keeps (fun x y =>
             d_lipschitz_penalty_loss y = d_lipschitz_penalty_loss x /\
             d_mean_slope_target y = d_mean_slope_target x /\
             d_lipschitz_estimate y = d_lipschitz_estimate x)) in H3;
      [| auto | intros x y Hxy; apply regular_gan_keeps in Hxy; tauto].
    destruct H2 as (A1 & A2 & A3), H3 as (B1 & B2 & B3).
    rewrite B1, B2, B3, A1, A2, A3. auto. }
  assert (Hgrad : gan_method cfg <> "penalized_wgan" ->
     gan_method cfg <> "improved_wgan" ->
     value (d_gradient_penalty_loss l) = 0).
  { intros Hp Hi. unfold build_losses in Hl.
    apply rbind_ok_inv in Hl. destruct Hl as (Gi & _ & Hl).
    apply rbind_ok_inv in Hl. destruct Hl as (l1 & H1 & Hl).
    apply rbind_ok_inv in Hl. destruct Hl as (l2 & H2 & H3).
    destruct (String.eqb_spec (gan_method cfg) "penalized_wgan");
      [contradiction |].
    destruct (String.eqb_spec (gan_method cfg) "improved_wgan");
      [contradiction |].
    simpl in H1, H2. injection H1 as <-. injection H2 as <-.
    apply (when_keeps (fun x y =>
             d_gradient_penalty_loss y = d_gradient_penalty_loss x)) in H3;
      [| auto | intros x y Hxy; apply regular_gan_keeps in Hxy; tauto].
    now rewrite H3. }
  split; [exact Hthree |]. split; [exact Hgrad |]. split.
  - intros Hm.
    destruct Hthree as (A1 & A2 & A3); [rewrite Hm; discriminate |].
    pose proof (Hgrad ltac:(rewrite Hm; discriminate)
                      ltac:(rewrite Hm; discriminate)).
    auto.
  - intros Hm. apply Hthree. rewrite Hm. discriminate.
Qed.

Lemma unselected_penalties_zero_witness :
  exists l,
    build_losses (Demo.linear_backend Demo.fake_images)
                 (Demo.small_config "improved_wgan") Demo.small_feed = Ok l /\
    value (d_lipschitz_penalty_loss l) = 0 /\
    value (d_mean_slope_target l) = 0 /\
    value (d_lipschitz_estimate l) = 0.
Proof.
  eexists. split; [reflexivity |].
  eapply (unselected_penalties_zero (Demo.linear_backend Demo.fake_images)
            (Demo.small_config "improved_wgan") Demo.small_feed).
  - reflexivity.
  - reflexivity.
Defined.

(** ** The guarded Lipschitz penalty (lines 211-219) *)

Lemma Qltb_lt x y : Qltb x y = true <-> x < y.
Proof.
  unfold Qltb. destruct (Qlt_le_dec x y) as [Hlt | Hle].
  - tauto.
  - split; [discriminate |]. intros Hlt. exfalso. lra.
Qed.

Lemma Qltb_ge x y : Qltb x y = false <-> y <= x.
Proof.
  unfold Qltb. destruct (Qlt_le_dec x y) as [Hlt | Hle].
  - split; [discriminate |]. intros Hle. exfalso. lra.
  - tauto.
Qed.



Lemma squeeze_no_ones t : Forall (fun d => d <> 1%nat) (shape (tf_squeeze t)).
Proof.
  unfold tf_squeeze. cbn [shape].
  induction (shape t) as [| d s IH]; [constructor |].
  rewrite filter_cons. destruct (decide (d <> 1%nat)); [constructor |]; auto.
Qed.

Lemma zip_with_pick s idx :
  length idx = length s -> Forall (fun d => d <> 1%nat) s ->
  zip_with (fun d i => if (d =? 1)%nat then O else i) s idx = idx.
Proof.
  revert idx. induction s as [| d s IH]; intros [| i idx] Hlen Hs;
    simpl in *; try discriminate; [reflexivity |].
  apply Forall_cons in Hs. destruct Hs as [Hd Hs].
  destruct (Nat.eqb_spec d 1); [contradiction |].
  f_equal. apply IH; [lia | assumption].
Qed.

Lemma operand_index_id s idx :
  length idx = length s -> Forall (fun d => d <> 1%nat) s ->
  operand_index s idx = idx.
Proof.
  intros Hlen Hs. unfold operand_index.
  rewrite Hlen, Nat.sub_diag. simpl. now apply zip_with_pick.
Qed.


Lemma mean_of_vector t B :
  shape t = [B] ->
  value (tf_reduce_mean t) =
  sum_upto B (fun i => elem t [i]) / inject_Z (Z.of_nat B).
Proof.
  intros Hs. unfold value, tf_reduce_mean, all_axes, tf_reduce_sum.
  rewrite Hs. cbn. rewrite Hs. cbn. now rewrite Nat.mul_1_r.
Qed.

Lemma operand_index_nil s : operand_index s [] = [].
Proof. unfold operand_index. simpl. now destruct s. Qed.

Lemma scaled_value q t :
  forall r, tf_mul (scalar q) t = Some r -> value r = q * value t.
Proof.
  intros r. unfold tf_mul, tf_binop. cbn [shape scalar].
  rewrite broadcast_shape_scalar_l. intros [= <-].
  unfold value. cbn [elem]. now rewrite operand_index_nil.
Qed.














(** ** The two parameter sets and their optimizers (lines 321-346) *)

Section Partition.
Import Variables.

#[local] Arguments String.append !s1 s2 : simpl nomatch.

Lemma contains_d_tail s :
  contains "d_" s = false -> contains "d_" (s ++ ":0") = false.
Proof.
  induction s as [| c s IH]; [reflexivity |].
  change (String c s +:+ ":0") with (String c (s +:+ ":0")).
  cbn [contains]. intros Hs.
  apply orb_false_elim in Hs. destruct Hs as [Hp Hc].
  rewrite (IH Hc), orb_false_r.
  cbn [String.prefix] in *. destruct (Ascii.ascii_dec _ c); [| reflexivity].
  destruct s as [| c' s]; [reflexivity |].
  change (String c' s +:+ ":0") with (String c' (s +:+ ":0")).
  cbn [String.prefix] in *.
  destruct (Ascii.ascii_dec _ c'); [| reflexivity].
  destruct s; discriminate Hp.
Qed.

Lemma contains_g_tail s :
  contains "g_" s = false -> contains "g_" (s ++ ":0") = false.
Proof.
  induction s as [| c s IH]; [reflexivity |].
  change (String c s +:+ ":0") with (String c (s +:+ ":0")).
  cbn [contains]. intros Hs.
  apply orb_false_elim in Hs. destruct Hs as [Hp Hc].
  rewrite (IH Hc), orb_false_r.
  cbn [String.prefix] in *. destruct (Ascii.ascii_dec _ c); [| reflexivity].
  destruct s as [| c' s]; [reflexivity |].
  change (String c' s +:+ ":0") with (String c' (s +:+ ":0")).
  cbn [String.prefix] in *.
  destruct (Ascii.ascii_dec _ c'); [| reflexivity].
  destruct s; discriminate Hp.
Qed.

Lemma generator_names layer kind suffix :
  In (layer, kind) generator_layers -> plain suffix ->
  contains "d_" (var_name "generator" layer suffix) = false /\
  contains "g_" (var_name "generator" layer suffix) = true.
Proof.
  intros Hl [Hd Hg]. unfold generator_layers in Hl. cbn [In] in Hl.
  repeat (destruct Hl as [[= <- <-] | Hl];
          [unfold var_name; cbn; rewrite ?contains_d_tail by assumption;
           split; reflexivity |]).
  contradiction.
Qed.

Lemma discriminator_names cfg layer kind suffix :
  In (layer, kind) (discriminator_layers cfg) -> plain suffix ->
  contains "d_" (var_name "discriminator" layer suffix) = true /\
  contains "g_" (var_name "discriminator" layer suffix) = false.
Proof.
  intros Hl [Hd Hg]. unfold discriminator_layers in Hl.
  destruct (discriminator_batch_norm cfg); cbn [In app] in Hl;
  repeat (destruct Hl as [[= <- <-] | Hl];
          [unfold var_name; cbn; rewrite ?contains_g_tail by assumption;
           split; reflexivity |]);
  contradiction.
Qed.

Variable suffixes : layer_kind -> list string.
Hypothesis suffixes_plain : forall k s, In s (suffixes k) -> plain s.

Lemma scope_variables_inv scope layers v :
  In v (scope_variables suffixes scope layers) ->
  exists layer kind suffix,
    In (layer, kind) layers /\ In suffix (suffixes kind) /\
    v = var_name scope layer suffix.
Proof.
  unfold scope_variables. rewrite in_flat_map.
  intros ([layer kind] & Hl & Hv). cbn [fst snd] in Hv.
  apply in_map_iff in Hv. destruct Hv as (suffix & <- & Hs).
  exists layer, kind, suffix. auto.
Qed.

(** No trainable variable has both marks in its name. *)
Lemma t_vars_one_mark cfg v :
  In v (t_vars suffixes cfg) ->
  contains "d_" v = negb (contains "g_" v).
Proof.
  unfold t_vars. rewrite in_app_iff. intros [Hv | Hv];
    apply scope_variables_inv in Hv;
    destruct Hv as (layer & kind & suffix & Hl & Hs & ->).
  - destruct (generator_names layer kind suffix Hl (suffixes_plain _ _ Hs))
      as [-> ->]. reflexivity.
  - destruct (discriminator_names cfg layer kind suffix Hl
                (suffixes_plain _ _ Hs)) as [-> ->]. reflexivity.
Qed.

Lemma d_vars_g_vars_disjoint cfg v :
  In v (d_vars suffixes cfg) -> In v (g_vars suffixes cfg) -> False.
Proof.
  unfold d_vars, g_vars. rewrite !filter_In. intros [Ht Hd] [_ Hg].
  rewrite (t_vars_one_mark cfg v Ht), Hg in Hd. discriminate.
Qed.

Section Frame.
Variable Val : Type.
Variable gradient : bool -> gmap string Val -> string -> Val.
Variable adam : bool -> Val -> Val -> Val.

Lemma apply_gradients_frame opt gvs (store : gmap string Val) v :
  ~ In v (map snd gvs) ->
  apply_gradients Val adam opt gvs store !! v = store !! v.
Proof.
  unfold apply_gradients. revert store.
  induction gvs as [| [g x] gvs IH]; intros store Hv; [reflexivity |].
  cbn [fold_left map snd fst In] in *.
  rewrite IH by tauto.
  apply lookup_alter_ne. intros ->. tauto.
Qed.

Lemma compute_gradients_vars loss var_list (store : gmap string Val) :
  map snd (compute_gradients Val gradient loss var_list store) = var_list.
Proof.
  unfold compute_gradients. rewrite map_map. cbn [snd]. apply map_id.
Qed.

Lemma d_optim_frame cfg (store : gmap string Val) v :
  ~ In v (d_vars suffixes cfg) ->
  d_optim suffixes Val gradient adam cfg store !! v = store !! v.
Proof.
  intros Hv. unfold d_optim. apply apply_gradients_frame.
  now rewrite compute_gradients_vars.
Qed.

Lemma g_optim_frame cfg (store : gmap string Val) v :
  ~ In v (g_vars suffixes cfg) ->
  g_optim suffixes Val gradient adam cfg store !! v = store !! v.
Proof.
  intros Hv. unfold g_optim. apply apply_gradients_frame.
  now rewrite compute_gradients_vars.
Qed.

End Frame.
End Partition.

(** C4.  With layer-library variable names that mention neither "d_" nor
    "g_", the sets [d_vars] and [g_vars] are disjoint, a run of [d_optim]
    leaves every variable outside [d_vars] (so every generator parameter) at
    its value, and a run of [g_optim] leaves every variable outside [g_vars]
    (so every discriminator parameter) at its value. *)
Theorem optimizers_respect_partition
    (suffixes : Variables.layer_kind -> list string) (Val : Type)
    (gradient : bool -> gmap string Val -> string -> Val)
    (adam : bool -> Val -> Val -> Val) (cfg : config)
    (store : gmap string Val) :
  (forall k s, In s (suffixes k) -> plain s) ->
  (forall v, In v (Variables.d_vars suffixes cfg) ->
             In v (Variables.g_vars suffixes cfg) -> False) /\
  (forall v, In v (Variables.g_vars suffixes cfg) ->
     Variables.d_optim suffixes Val gradient adam cfg store !! v = store !! v) /\
  (forall v, In v (Variables.d_vars suffixes cfg) ->
     Variables.g_optim suffixes Val gradient adam cfg store !! v = store !! v) /\
  (forall v, ~ In v (Variables.d_vars suffixes cfg) ->
     Variables.d_optim suffixes Val gradient adam cfg store !! v = store !! v) /\
  (forall v, ~ In v (Variables.g_vars suffixes cfg) ->
     Variables.g_optim suffixes Val gradient adam cfg store !! v = store !! v).
Proof.
  intros Hplain. split; [| split; [| split; [| split]]].
  - intros v. now apply d_vars_g_vars_disjoint.
  - intros v Hg. apply d_optim_frame. intros Hd.
    exact (d_vars_g_vars_disjoint suffixes Hplain cfg v Hd Hg).
  - intros v Hd. apply g_optim_frame. intros Hg.
    exact (d_vars_g_vars_disjoint suffixes Hplain cfg v Hd Hg).
  - intros v. apply d_optim_frame.
  - intros v. apply g_optim_frame.
Qed.

Lemma ops_suffixes_plain k s : In s (Variables.ops_suffixes k) -> plain s.
Proof.
  destruct k; cbn [Variables.ops_suffixes In];
    intros [<- | [<- | []]]; split; reflexivity.
Qed.

Lemma optimizers_respect_partition_witness :
  let store : gmap string Q :=
    {[ "generator/g_h0_lin/Matrix:0" := 1; "discriminator/d_h0_conv/w:0" := 2 ]} in
  let gradient := fun (_ : bool) (_ : gmap string Q) (_ : string) => 1 in
  let adam := fun (_ : bool) (g x : Q) => x - g in
  In "generator/g_h0_lin/Matrix:0"
     (Variables.g_vars Variables.ops_suffixes default_config) /\
  Variables.d_optim Variables.ops_suffixes Q gradient adam default_config store
    !! "generator/g_h0_lin/Matrix:0" = Some 1.
Proof.
  intros store gradient adam.
  assert (Hin : In "generator/g_h0_lin/Matrix:0"
                   (Variables.g_vars Variables.ops_suffixes default_config))
    by (vm_compute; tauto).
  split; [exact Hin |].
  destruct (optimizers_respect_partition Variables.ops_suffixes Q gradient adam
              default_config store ops_suffixes_plain) as (_ & Hd & _).
  rewrite (Hd _ Hin). reflexivity.
Defined.

(** ** Reasoning about effects *)

Section EffectLemmas.
Local Open Scope effect_scope.

Context {W : Type}.
Variable env : environment W.

Lemma bind_inv {A B} (m : M W A) (k : A -> M W B) s r s' :
  bind m k s = (r, s') ->
  (exists e, m s = (Raise e, s') /\ r = Raise e) \/
  (exists a s1, m s = (Ok a, s1) /\ k a s1 = (r, s')).
Proof.
  unfold bind. destruct (m s) as [[a | e] s1]; intros H.
  - right. eauto.
  - left. injection H as <- <-. eauto.
Qed.

Lemma bind_ok_inv {A B} (m : M W A) (k : A -> M W B) s b s' :
  bind m k s = (Ok b, s') ->
  exists a s1, m s = (Ok a, s1) /\ k a s1 = (Ok b, s').
Proof.
  intros H. apply bind_inv in H.
  destruct H as [(e & _ & [=]) | H]; assumption.
Qed.

Lemma call_inv e (s : state W) r s' :
  call env e s = (r, s') ->
  trace s' = trace s ++ [e] /\ vars s' = vars s /\
  world s' = advance env e (world s) /\
  r = match raises env e (world s) with Some x => Raise x | None => Ok tt end.
Proof.
  unfold call. destruct (raises env e (world s)); intros [= <- <-]; auto.
Qed.

Lemma print_inv m (s : state W) r s' :
  print m s = (r, s') ->
  trace s' = trace s ++ [Print m] /\ vars s' = vars s /\
  world s' = world s /\ r = Ok tt.
Proof. unfold print. intros [= <- <-]. auto. Qed.

Lemma when_inv b (m : M W unit) s r s' :
  when_ b m s = (r, s') ->
  (b = true /\ m s = (r, s')) \/ (b = false /\ r = Ok tt /\ s' = s).
Proof.
  destruct b; simpl; [auto |]. unfold ret. intros [= <- <-]. auto.
Qed.

(** *** What a computation may add to the trace *)

Lemma emits_weaken {A} (P : event -> bool) (R R' : A -> Prop) (m : M W A) :
  (forall a, R a -> R' a) -> emits P R m -> emits P R' m.
Proof.
  intros HR Hm s r s' Hrun. destruct (Hm s r s' Hrun) as [Ht Hr].
  split; [assumption |]. intros a Ha. apply HR, Hr, Ha.
Qed.

Lemma emits_ret {A} P (R : A -> Prop) (a : A) : R a -> emits P R (ret (W := W) a).
Proof.
  intros Ha s r s' [= <- <-]. split.
  - exists []. now rewrite app_nil_r.
  - now intros a' [= <-].
Qed.

Lemma emits_raise {A} P (R : A -> Prop) e : emits P R (raise (W := W) e).
Proof.
  intros s r s' [= <- <-]. split.
  - exists []. now rewrite app_nil_r.
  - discriminate.
Qed.

Lemma emits_lift {A} P (x : result A) : emits P (fun _ => True) (lift (W := W) x).
Proof.
  intros s r s' [= <- <-]. split; [| trivial].
  exists []. now rewrite app_nil_r.
Qed.

Lemma emits_ask {A} P (f : W -> A) : emits P (fun _ => True) (ask f).
Proof.
  intros s r s' [= <- <-]. split; [| trivial].
  exists []. now rewrite app_nil_r.
Qed.

Lemma emits_get_locals P : emits P (fun _ => True) (get_locals (W := W)).
Proof.
  intros s r s' [= <- <-]. split; [| trivial].
  exists []. now rewrite app_nil_r.
Qed.

Lemma emits_set_locals P l : emits P (fun _ => True) (set_locals (W := W) l).
Proof.
  intros s r s' [= <- <-]. split; [| trivial].
  exists []. simpl. now rewrite app_nil_r.
Qed.

Lemma emits_modify_locals P f :
  emits P (fun _ => True) (modify_locals (W := W) f).
Proof.
  intros s r s' [= <- <-]. split; [| trivial].
  exists []. simpl. now rewrite app_nil_r.
Qed.

Lemma emits_call P e : P e = true -> emits P (fun _ => True) (call env e).
Proof.
  intros HP s r s' Hrun. apply call_inv in Hrun.
  destruct Hrun as (Ht & _). split; [| trivial].
  exists [e]. split; [assumption |]. simpl. now rewrite HP.
Qed.

Lemma emits_print P m :
  P (Print m) = true -> emits P (fun _ => True) (print (W := W) m).
Proof.
  intros HP s r s' Hrun. apply print_inv in Hrun.
  destruct Hrun as (Ht & _). split; [| trivial].
  exists [Print m]. split; [assumption |]. simpl. now rewrite HP.
Qed.

Lemma emits_bind {A B} P (R : A -> Prop) (R' : B -> Prop)
    (m : M W A) (k : A -> M W B) :
  emits P R m -> (forall a, R a -> emits P R' (k a)) ->
  emits P R' (bind m k).
Proof.
  intros Hm Hk s r s' Hrun. apply bind_inv in Hrun.
  destruct Hrun as [(e & Hrun & ->) | (a & s1 & Hrun & Hrest)].
  - destruct (Hm _ _ _ Hrun) as [Ht _]. split; [assumption | discriminate].
  - destruct (Hm _ _ _ Hrun) as [(t1 & Ht1 & HP1) Ha].
    destruct (Hk a (Ha a eq_refl) _ _ _ Hrest) as [(t2 & Ht2 & HP2) Hr].
    split; [| assumption].
    exists (t1 ++ t2). split.
    + now rewrite Ht2, Ht1, app_assoc.
    + rewrite forallb_app, HP1, HP2. reflexivity.
Qed.

Lemma emits_when P b (m : M W unit) :
  emits P (fun _ => True) m -> emits P (fun _ => True) (when_ b m).
Proof.
  intros Hm. destruct b; simpl; [assumption |]. now apply emits_ret.
Qed.

Lemma emits_try_except {A} P (R : A -> Prop) (body : M W A) handler :
  emits P R body ->
  (forall e h, handler e = Some h -> emits P R h) ->
  emits P R (try_except body handler).
Proof.
  intros Hb Hh s r s' Hrun. unfold try_except in Hrun.
  destruct (body s) as [[a | e] s1] eqn:Hbody.
  - injection Hrun as <- <-. exact (Hb _ _ _ Hbody).
  - destruct (Hb _ _ _ Hbody) as [(t1 & Ht1 & HP1) _].
    destruct (handler e) as [h |] eqn:He.
    + destruct (Hh e h He _ _ _ Hrun) as [(t2 & Ht2 & HP2) Hr].
      split; [| assumption].
      exists (t1 ++ t2). split.
      * now rewrite Ht2, Ht1, app_assoc.
      * rewrite forallb_app, HP1, HP2. reflexivity.
    + injection Hrun as <- <-. split; [eauto | discriminate].
Qed.

Lemma emits_for_loop P n (body : Z -> M W unit) :
  (forall i, emits P (fun _ => True) (body i)) ->
  emits P (fun _ => True) (for_loop n body).
Proof.
  intros Hb. induction n as [| n IH]; cbn [for_loop].
  - now apply emits_ret.
  - eapply emits_bind; [exact IH |]. intros _ _. apply Hb.
Qed.

(** *** Counting calls *)

Lemma count_app P t1 t2 : count P (t1 ++ t2) = (count P t1 + count P t2)%nat.
Proof. unfold count. now rewrite List.filter_app, length_app. Qed.

Lemma count_none (P Q : event -> bool) tr :
  (forall e, P e = true -> Q e = false) ->
  forallb P tr = true -> count Q tr = O.
Proof.
  intros HPQ. unfold count. induction tr as [| e tr IH]; [reflexivity |].
  cbn [forallb List.filter]. intros Hall.
  apply andb_true_iff in Hall. destruct Hall as [He Htr].
  rewrite (HPQ e He). now apply IH.
Qed.

Lemma count_repeat P e n :
  P e = true -> count P (repeat e n) = n.
Proof.
  intros HP. unfold count. induction n as [| n IH]; [reflexivity |].
  cbn [repeat List.filter]. rewrite HP. cbn [length]. now rewrite IH.
Qed.

Lemma not_in_of_forallb (P : event -> bool) tr e :
  forallb P tr = true -> P e = false -> ~ In e tr.
Proof.
  intros Hall He Hin. rewrite forallb_forall in Hall.
  rewrite (Hall e Hin) in He. discriminate.
Qed.

End EffectLemmas.

(** ** One step of the training loop (lines 424-513) *)

Ltac emits_step :=
  first
    [ apply emits_call; reflexivity
    | apply emits_print; reflexivity
    | apply emits_lift
    | apply emits_ask
    | apply emits_get_locals
    | apply emits_set_locals
    | apply emits_modify_locals
    | apply emits_ret; exact I
    | apply emits_when
    | apply emits_for_loop; intros ?
    | apply emits_try_except;
        [| intros ? ?; destruct (is_Exception _); [intros [= <-] | discriminate]]
    | eapply emits_bind; [| intros ? _] ].

Section StepLemmas.
Local Open Scope effect_scope.

Context {W : Type}.
Variable env : environment W.
Variable self : dcgan.
Variable config : train_config.

Lemma for_loop_calls_ok n e (s s' : state W) :
  for_loop n (fun _ => call env e) s = (Ok tt, s') ->
  trace s' = trace s ++ repeat e n /\ vars s' = vars s.
Proof.
  revert s'. induction n as [| n IH]; intros s'; cbn [for_loop].
  - intros [= <-]. simpl. now rewrite app_nil_r.
  - intros Hrun. apply bind_ok_inv in Hrun.
    destruct Hrun as ([] & s1 & H1 & H2).
    apply IH in H1. destruct H1 as [Ht1 Hv1].
    apply call_inv in H2. destruct H2 as (Ht2 & Hv2 & _).
    split; [| congruence].
    rewrite Ht2, Ht1, <- app_assoc. f_equal.
    symmetry. apply repeat_cons.
Qed.

(** [update_D] that returns has run [d_optim] once and then
    [num_discriminator_updates - 1] more times, and returns what the first
    run fetched. *)
Lemma update_D_ok (s : state W) d s' :
  update_D W env self s = (Ok d, s') ->
  trace s' = trace s
             ++ repeat RunDOptim
                  (S (range_len (num_discriminator_updates (self_config self) - 1)))
  /\ vars s' = vars s
  /\ d = d_fetches env (advance env RunDOptim (world s)).
Proof.
  unfold update_D. intros Hrun.
  apply bind_ok_inv in Hrun. destruct Hrun as ([] & s1 & H1 & Hrun).
  apply call_inv in H1. destruct H1 as (Ht1 & Hv1 & Hw1 & _).
  apply bind_ok_inv in Hrun. destruct Hrun as (d1 & s2 & H2 & Hrun).
  injection H2 as <- <-.
  apply bind_ok_inv in Hrun. destruct Hrun as ([] & s3 & H3 & Hrun).
  injection Hrun as <- <-.
  apply for_loop_calls_ok in H3. destruct H3 as [Ht3 Hv3].
  split; [| split].
  - rewrite Ht3, Ht1, <- app_assoc. reflexivity.
  - congruence.
  - now rewrite Hw1.
Qed.

Lemma update_D_emits :
  emits is_RunDOptim (fun _ => True) (update_D W env self).
Proof. unfold update_D, for_range. repeat emits_step. Qed.

Lemma update_G_emits c :
  emits (after_update_call c) (fun _ => True) (update_G W env config c).
Proof. unfold update_G. repeat emits_step. Qed.

Lemma evaluate_fid_emits c epoch_ batch_idx :
  emits (after_update_call c) (fun _ => True)
        (evaluate_fid W env self epoch_ batch_idx c).
Proof.
  unfold evaluate_fid, save_samples, calculate_fid, for_range.
  repeat emits_step.
Qed.

(** Once the discriminator is updated, the step runs [d_optim] no more and
    saves no checkpoint but the one of this step, when it is due. *)
Lemma finish_step_emits epoch_ batch_idx d c :
  emits (after_update_call c) (fun _ => True)
        (finish_step W env self config epoch_ batch_idx d c).
Proof.
  unfold finish_step.
  emits_step; [repeat emits_step |].
  emits_step; [apply update_G_emits |].
  emits_step; [emits_step |].
  emits_step; [repeat emits_step |].
  emits_step; [emits_step; apply evaluate_fid_emits |].
  emits_step; [| emits_step].
  unfold when_. destruct (checkpoint_due c) eqn:Hdue.
  - apply emits_call. simpl. now rewrite Z.eqb_refl, Hdue.
  - now apply emits_ret.
Qed.


Lemma evaluate_fid_plain c epoch_ batch_idx :
  emits is_eval_call (fun _ => True)
        (evaluate_fid W env self epoch_ batch_idx c).
Proof.
  unfold evaluate_fid, save_samples, calculate_fid, for_range.
  repeat emits_step.
Qed.

(** The trace of [update_G] that returns: one run of [g_optim] when the
    generator's learning rate is positive, none otherwise. *)
Lemma update_G_ok c (s : state W) s' :
  update_G W env config c s = (Ok tt, s') ->
  trace s' = trace s ++
    (if Qgtb (learning_rate_g config) 0
     then RunGOptim ::
          (if (np_mod c 20 =? 0)%Z
           then [AddSummary
                   (g_summary_str (g_fetches env (advance env RunGOptim (world s))))
                   c]
           else [])
     else []).
Proof.
  unfold update_G. intros Hrun. apply when_inv in Hrun.
  destruct Hrun as [[-> Hrun] | (-> & _ & ->)]; [| now rewrite app_nil_r].
  apply bind_ok_inv in Hrun. destruct Hrun as ([] & s1 & H1 & Hrun).
  apply call_inv in H1. destruct H1 as (Ht1 & _ & Hw1 & _).
  apply bind_ok_inv in Hrun. destruct Hrun as (g & s2 & H2 & Hrun).
  injection H2 as <- <-.
  apply bind_ok_inv in Hrun. destruct Hrun as ([] & s3 & H3 & Hrun).
  injection Hrun as <-. cbn [trace].
  apply when_inv in H3. destruct H3 as [[-> H3] | (-> & _ & ->)].
  - apply call_inv in H3. destruct H3 as (Ht3 & _).
    rewrite Ht3, Ht1, Hw1, <- app_assoc. reflexivity.
  - now rewrite Ht1.
Qed.

(** [calculate_fid] that returns: the distance, or 500 after a failure. *)
Lemma calculate_fid_ok (s : state W) FID s' :
  calculate_fid W env s = (Ok FID, s') ->
  (raises env FrechetDistance (world s) = None /\
   trace s' = trace s ++ [FrechetDistance]) \/
  (exists e, raises env FrechetDistance (world s) = Some e /\
             is_Exception e = true /\ FID = 500 /\
             trace s' = trace s ++ [FrechetDistance; Print (MsgException e)]).
Proof.
  unfold calculate_fid, try_except, bind, call, ask, print, ret.
  destruct (raises env FrechetDistance (world s)) as [e |]; cbn [trace world vars].
  - destruct (is_Exception e) eqn:He; [| discriminate].
    cbn [trace world vars]. intros [= <- <-]. right. exists e.
    cbn [trace]. rewrite <- app_assoc. auto.
  - intros [= <- <-]. left. auto.
Qed.

Lemma emits_trace {A} P (m : M W A) (s : state W) r s' :
  emits P (fun _ => True) m -> m s = (r, s') ->
  exists t, trace s' = trace s ++ t /\ forallb P t = true.
Proof. intros Hm Hrun. apply Hm in Hrun. tauto. Qed.

(** The trace of [evaluate_fid] that returns: it ends with the write of the
    value [calculate_fid] returned. *)
Lemma evaluate_fid_ok epoch_ batch_idx c (s : state W) s' :
  evaluate_fid W env self epoch_ batch_idx c s = (Ok tt, s') ->
  exists FID sa sb t1 t2 summary_str,
    calculate_fid W env sa = (Ok FID, sb) /\
    trace sb = trace sa ++ t2 /\
    trace s' = trace s ++ t1 ++ t2
               ++ [Print (MsgFid FID); AssignFid FID; RunFidSum;
                   AddSummary summary_str c] /\
    forallb is_plain_call t1 = true /\
    forallb is_plain_call t2 = true.
Proof.
  unfold evaluate_fid. intros Hrun.
  apply bind_ok_inv in Hrun. destruct Hrun as ([] & s1 & H1 & Hrun).
  eapply (emits_trace is_plain_call) in H1;
    [| unfold save_samples; repeat emits_step]. destruct H1 as (u1 & E1 & P1).
  apply bind_ok_inv in Hrun. destruct Hrun as ([] & s2 & H2 & Hrun).
  apply print_inv in H2. destruct H2 as (E2 & _).
  apply bind_ok_inv in Hrun. destruct Hrun as (samples & s3 & H3 & Hrun).
  assert (E3 : s3 = s2) by (unfold lift in H3; congruence). subst s3.
  apply bind_ok_inv in Hrun. destruct Hrun as (n_batches & s3 & H3' & Hrun).
  assert (E3 : s3 = s2) by (unfold lift in H3'; congruence). subst s3.
  apply bind_ok_inv in Hrun. destruct Hrun as ([] & s4 & H4 & Hrun).
  eapply (emits_trace is_plain_call) in H4;
    [| unfold for_range; repeat emits_step]. destruct H4 as (u4 & E4 & P4).
  apply bind_ok_inv in Hrun. destruct Hrun as ([] & s5 & H5 & Hrun).
  apply print_inv in H5. destruct H5 as (E5 & _).
  apply bind_ok_inv in Hrun. destruct Hrun as ([] & s6 & H6 & Hrun).
  apply call_inv in H6. destruct H6 as (E6 & _).
  apply bind_ok_inv in Hrun. destruct Hrun as ([] & s7 & H7 & Hrun).
  apply print_inv in H7. destruct H7 as (E7 & _).
  apply bind_ok_inv in Hrun. destruct Hrun as (FID & s8 & H8 & Hrun).
  pose proof H8 as H8'.
  eapply (emits_trace is_plain_call) in H8';
    [| unfold calculate_fid; repeat emits_step]. destruct H8' as (u8 & E8 & P8).
  apply bind_ok_inv in Hrun. destruct Hrun as ([] & s9 & H9 & Hrun).
  apply print_inv in H9. destruct H9 as (E9 & _).
  apply bind_ok_inv in Hrun. destruct Hrun as ([] & s10 & H10 & Hrun).
  apply call_inv in H10. destruct H10 as (E10 & _).
  apply bind_ok_inv in Hrun. destruct Hrun as ([] & s11 & H11 & Hrun).
  apply call_inv in H11. destruct H11 as (E11 & _).
  apply bind_ok_inv in Hrun. destruct Hrun as (summary_str & s12 & H12 & Hrun).
  assert (E12 : s12 = s11) by (unfold ask in H12; congruence). subst s12.
  apply call_inv in Hrun. destruct Hrun as (E13 & _).
  exists FID, s7, s8,
    (u1 ++ [Print MsgSamplesForInceptStart] ++ u4
     ++ [Print MsgOk; ActivationStatistics; Print MsgCalculateFid]),
    u8, summary_str.
  split; [assumption |]. split; [assumption |]. split; [| split].
  - rewrite E13, E11, E10, E9, E8, E7, E6, E5, E4, E2, E1, <- !app_assoc.
    reflexivity.
  - rewrite !forallb_app, P1, P4. reflexivity.
  - assumption.
Qed.

(** The trace of the rest of a step that returns. *)
Lemma finish_step_ok epoch_ batch_idx d c (s : state W) s' :
  finish_step W env self config epoch_ batch_idx d c s = (Ok tt, s') ->
  exists t_sum t_g t_status t_fid,
    trace s' = trace s ++ t_sum ++ t_g ++ t_status ++ t_fid
               ++ (if checkpoint_due c then [SaverSave c] else []) /\
    t_sum = (if (np_mod c 20 =? 0)%Z
             then [AddSummary (d_summary_str d) c] else []) /\
    count is_RunGOptim t_g
      = (if Qgtb (learning_rate_g config) 0 then 1 else 0)%nat /\
    forallb is_generator_call t_g = true /\
    forallb is_plain_call t_status = true /\
    forallb is_eval_call t_fid = true /\
    ((np_mod c (fid_eval_steps config) =? 0)%Z = true ->
       exists sa sb, evaluate_fid W env self epoch_ batch_idx c sa = (Ok tt, sb)
                     /\ trace sb = trace sa ++ t_fid) /\
    ((np_mod c (fid_eval_steps config) =? 0)%Z = false -> t_fid = []) /\
    counter (vars s') = (c + 1)%Z.
Proof.
  unfold finish_step. intros Hrun.
  apply bind_ok_inv in Hrun. destruct Hrun as ([] & s1 & H1 & Hrun).
  apply bind_ok_inv in Hrun. destruct Hrun as ([] & s2 & H2 & Hrun).
  apply bind_ok_inv in Hrun. destruct Hrun as ([] & s3 & H3 & Hrun).
  apply bind_ok_inv in Hrun. destruct Hrun as ([] & s4 & H4 & Hrun).
  apply bind_ok_inv in Hrun. destruct Hrun as ([] & s5 & H5 & Hrun).
  apply bind_ok_inv in Hrun. destruct Hrun as ([] & s6 & H6 & Hrun).
  injection Hrun as <-. cbn [vars trace counter with_counter].
  assert (E1 : trace s1 = trace s ++
            (if (np_mod c 20 =? 0)%Z then [AddSummary (d_summary_str d) c] else [])).
  { apply when_inv in H1. destruct H1 as [[-> H1] | (-> & _ & ->)].
    - apply call_inv in H1. tauto.
    - now rewrite app_nil_r. }
  apply update_G_ok in H2.
  injection H3 as <-.
  eapply (emits_trace is_plain_call) in H4; [| repeat emits_step].
  cbn [trace] in H4. destruct H4 as (t_status & E4 & P4).
  assert (E5 : exists t, trace s5 = trace s4 ++ t /\ forallb is_eval_call t = true
            /\ ((np_mod c (fid_eval_steps config) =? 0)%Z = true ->
                exists sa sb, evaluate_fid W env self epoch_ batch_idx c sa = (Ok tt, sb)
                              /\ trace sb = trace sa ++ t)
            /\ ((np_mod c (fid_eval_steps config) =? 0)%Z = false -> t = [])).
  { apply when_inv in H5. destruct H5 as [[Hb H5] | (Hb & _ & ->)].
    - destruct (evaluate_fid_plain c epoch_ batch_idx _ _ _ H5)
        as [(t & Ht & HP) _].
      exists t. rewrite Hb. split; [assumption |]. split; [assumption |].
      split; [eauto | discriminate].
    - exists []. rewrite app_nil_r. rewrite Hb.
      split; [reflexivity |]. split; [reflexivity |].
      split; [discriminate | reflexivity]. }
  destruct E5 as (t_fid & E5 & P5 & R5 & N5).
  assert (E6 : trace s6 = trace s5 ++
            (if checkpoint_due c then [SaverSave c] else [])).
  { apply when_inv in H6. destruct H6 as [[-> H6] | (-> & _ & ->)].
    - apply call_inv in H6. tauto.
    - now rewrite app_nil_r. }
  match type of H2 with _ = _ ++ ?t => set (t_g := t) in * end.
  match type of E1 with _ = _ ++ ?t => set (t_sum := t) in * end.
  exists t_sum, t_g, t_status, t_fid.
  split; [rewrite E6, E5, E4, H2, E1, <- !app_assoc; reflexivity |].
  split; [reflexivity |].
  do 2 (split; [subst t_g; destruct (Qgtb (learning_rate_g config) 0);
                [destruct (np_mod c 20 =? 0)%Z |]; reflexivity |]).
  auto.
Qed.

Lemma step_ok epoch_ batch_idx (s : state W) s' :
  step W env self config epoch_ batch_idx s = (Ok tt, s') ->
  exists d s1,
    update_D W env self s = (Ok d, s1) /\
    finish_step W env self config epoch_ batch_idx d (counter (vars s)) s1
      = (Ok tt, s').
Proof.
  unfold step. intros Hrun.
  apply bind_ok_inv in Hrun. destruct Hrun as (d & s1 & H1 & Hrun).
  apply bind_ok_inv in Hrun. destruct Hrun as (l & s2 & H2 & Hrun).
  injection H2 as <- <-.
  destruct (update_D_ok _ _ _ H1) as (_ & Hv & _).
  rewrite Hv in Hrun. eauto.
Qed.

End StepLemmas.

Lemma plain_is_eval e : is_plain_call e = true -> is_eval_call e = true.
Proof. unfold is_plain_call. intros H. now apply andb_true_iff in H. Qed.

Lemma eval_not_d e : is_eval_call e = true -> is_RunDOptim e = false.
Proof. now destruct e. Qed.

Lemma eval_not_g e : is_eval_call e = true -> is_RunGOptim e = false.
Proof. now destruct e. Qed.

Lemma eval_not_save e : is_eval_call e = true -> is_SaverSave e = false.
Proof. now destruct e. Qed.

Lemma plain_not_d e : is_plain_call e = true -> is_RunDOptim e = false.
Proof. now destruct e. Qed.

Lemma plain_not_g e : is_plain_call e = true -> is_RunGOptim e = false.
Proof. now destruct e. Qed.

Lemma plain_not_save e : is_plain_call e = true -> is_SaverSave e = false.
Proof. now destruct e. Qed.

Lemma plain_not_fid e : is_plain_call e = true -> is_AssignFid e = false.
Proof. now destruct e. Qed.

Lemma generator_not_d e : is_generator_call e = true -> is_RunDOptim e = false.
Proof. now destruct e. Qed.

Lemma generator_not_save e : is_generator_call e = true -> is_SaverSave e = false.
Proof. now destruct e. Qed.

Lemma generator_not_fid e : is_generator_call e = true -> is_AssignFid e = false.
Proof. now destruct e. Qed.

Lemma d_optim_only (P : event -> bool) e :
  P RunDOptim = false -> is_RunDOptim e = true -> P e = false.
Proof. now destruct e. Qed.

Lemma forallb_repeat (P : event -> bool) e n :
  P e = true -> forallb P (repeat e n) = true.
Proof. intros HP. induction n; simpl; [reflexivity | now rewrite HP]. Qed.

Lemma count_checkpoint (P : event -> bool) c :
  (forall n, P (SaverSave n) = false) ->
  count P (if checkpoint_due c then [SaverSave c] else []) = O.
Proof.
  intros HP. destruct (checkpoint_due c); [| reflexivity].
  unfold count. simpl. now rewrite HP.
Qed.

Lemma count_summary (P : event -> bool) (b : bool) x c :
  (forall y n, P (AddSummary y n) = false) ->
  count P (if b then [AddSummary x c] else []) = O.
Proof.
  intros HP. destruct b; [| reflexivity].
  unfold count. simpl. now rewrite HP.
Qed.

(** C5.  A step of the inner loop that completes, with
    [num_discriminator_updates = k >= 1], has run [d_optim] exactly [k]
    times and [g_optim] exactly once when the generator's learning rate is
    positive and not at all when it is zero; the values kept for logging are
    those fetched by the first run of [d_optim], whose summary is the one
    written every 20 steps. *)
Theorem optimizer_runs_per_step W (env : environment W) self config
    epoch_ batch_idx (s s' : state W) :
  (1 <= num_discriminator_updates (self_config self))%Z ->
  step W env self config epoch_ batch_idx s = (Ok tt, s') ->
  let first := d_fetches env (advance env RunDOptim (world s)) in
  exists tr,
    trace s' = trace s ++ tr /\
    count is_RunDOptim tr
      = Z.to_nat (num_discriminator_updates (self_config self)) /\
    (0 < learning_rate_g config -> count is_RunGOptim tr = 1%nat) /\
    (learning_rate_g config == 0 -> count is_RunGOptim tr = O) /\
    (exists s1, update_D W env self s = (Ok first, s1)) /\
    (np_mod (counter (vars s)) 20 = 0%Z ->
       In (AddSummary (d_summary_str first) (counter (vars s))) tr).
Proof.
  intros Hk Hrun first.
  destruct (step_ok env self config _ _ _ _ Hrun) as (d & s1 & HD & HF).
  destruct (update_D_ok env self _ _ _ HD) as (Ht1 & Hv1 & Hd).
  destruct (finish_step_ok env self config _ _ _ _ _ _ HF)
    as (t_sum & t_g & t_status & t_fid & Ht & Esum & Cg & Pg & Pst & Pfid & _).
  fold first in Hd. subst d.
  set (k := num_discriminator_updates (self_config self)) in *.
  set (c := counter (vars s)) in *.
  exists (repeat RunDOptim (S (range_len (k - 1))) ++ t_sum ++ t_g ++ t_status
          ++ t_fid ++ (if checkpoint_due c then [SaverSave c] else [])).
  assert (CgD : count is_RunGOptim (repeat RunDOptim (S (range_len (k - 1)))) = O).
  { apply (count_none is_RunDOptim); [intros e; now apply d_optim_only |].
    now apply forallb_repeat. }
  assert (CG : count is_RunGOptim
                 (repeat RunDOptim (S (range_len (k - 1))) ++ t_sum ++ t_g
                  ++ t_status ++ t_fid
                  ++ (if checkpoint_due c then [SaverSave c] else []))
               = (if Qgtb (learning_rate_g config) 0 then 1 else 0)%nat).
  { rewrite !count_app, CgD, Cg, Esum, count_summary by reflexivity.
    rewrite (count_none _ _ t_status plain_not_g Pst),
      (count_none _ _ t_fid eval_not_g Pfid), count_checkpoint by reflexivity.
    lia. }
  split; [rewrite Ht, Ht1, <- !app_assoc; reflexivity |].
  split; [| split; [| split; [| split]]].
  - rewrite !count_app, count_repeat by reflexivity.
    rewrite Esum, count_summary by reflexivity.
    rewrite (count_none _ _ t_g generator_not_d Pg),
      (count_none _ _ t_status plain_not_d Pst),
      (count_none _ _ t_fid eval_not_d Pfid), count_checkpoint by reflexivity.
    unfold range_len. lia.
  - intros Hlr. rewrite CG.
    assert (Hb : Qgtb (learning_rate_g config) 0 = true)
      by (apply Qltb_lt; assumption).
    now rewrite Hb.
  - intros Hlr. rewrite CG.
    assert (Hb : Qgtb (learning_rate_g config) 0 = false)
      by (apply Qltb_ge; rewrite Hlr; apply Qle_refl).
    now rewrite Hb.
  - eauto.
  - intros H20. rewrite Esum, H20.
    apply in_or_app. right. apply in_or_app. left. simpl. now left.
Qed.

Lemma optimizer_runs_per_step_witness :
  exists s' tr,
    step nat Demo.quiet Demo.model Demo.run 0 3 (Demo.at_counter 7) = (Ok tt, s') /\
    trace s' = tr /\
    count is_RunDOptim tr = 3%nat /\
    count is_RunGOptim tr = 1%nat.
Proof.
  pose (s' := snd (step nat Demo.quiet Demo.model Demo.run 0 3 (Demo.at_counter 7))).
  assert (Hrun : step nat Demo.quiet Demo.model Demo.run 0 3 (Demo.at_counter 7)
                 = (Ok tt, s')) by (vm_compute; reflexivity).
  destruct (optimizer_runs_per_step nat Demo.quiet Demo.model Demo.run 0 3
              (Demo.at_counter 7) s' ltac:(vm_compute; discriminate) Hrun)
    as (tr & Ht & HD & HG & _).
  exists s', tr. split; [exact Hrun |]. split; [exact Ht |].
  split; [exact HD |]. apply HG. reflexivity.
Defined.

(** ** The periodic checkpoint (lines 509-511) *)

Lemma checkpoint_due_spec c :
  checkpoint_due c = true <-> c <> 0%Z /\ (c mod 2000 = 0)%Z.
Proof.
  unfold checkpoint_due, np_mod. change (2000 =? 0)%Z with false. cbn iota.
  rewrite andb_true_iff, negb_true_iff, Z.eqb_neq, Z.eqb_eq. reflexivity.
Qed.

(** C10.  Whatever a step at counter [c] does, the only checkpoint it can
    save is the one of step [c], and only when [c] is nonzero and divisible
    by 2000; and a step that completes does save it then.  At [c = 0] no
    checkpoint is saved. *)
Theorem checkpoint_cadence W (env : environment W) self config
    epoch_ batch_idx (s : state W) r s' :
  step W env self config epoch_ batch_idx s = (r, s') ->
  let c := counter (vars s) in
  exists tr,
    trace s' = trace s ++ tr /\
    (forall n, In (SaverSave n) tr ->
               n = c /\ c <> 0%Z /\ (c mod 2000 = 0)%Z) /\
    (r = Ok tt -> c <> 0%Z -> (c mod 2000 = 0)%Z -> In (SaverSave c) tr) /\
    (c = 0%Z -> forall n, ~ In (SaverSave n) tr).
Proof.
  intros Hrun c.
  assert (Hfwd : exists tr, trace s' = trace s ++ tr /\
            forall n, In (SaverSave n) tr ->
                      n = c /\ c <> 0%Z /\ (c mod 2000 = 0)%Z).
  { unfold step in Hrun. apply bind_inv in Hrun.
    destruct Hrun as [(e & HD & ->) | (d & s1 & HD & Hrun)].
    - destruct (update_D_emits env self _ _ _ HD) as [(tr & Ht & HP) _].
      exists tr. split; [assumption |]. intros n Hin.
      exfalso. revert Hin. now apply (not_in_of_forallb is_RunDOptim).
    - destruct (update_D_ok env self _ _ _ HD) as (Ht1 & Hv1 & _).
      apply bind_inv in Hrun.
      destruct Hrun as [(e & [=] & _) | (l & s2 & [= <- <-] & HF)].
      rewrite Hv1 in HF. fold c in HF.
      destruct (finish_step_emits env self config _ _ _ _ _ _ _ HF)
        as [(tr & Ht & HP) _].
      eexists. split; [rewrite Ht, Ht1, <- app_assoc; reflexivity |].
      intros n Hin. apply in_app_or in Hin. destruct Hin as [Hin | Hin].
      + apply repeat_spec in Hin. discriminate.
      + rewrite forallb_forall in HP. specialize (HP _ Hin). simpl in HP.
        apply andb_true_iff in HP. destruct HP as [Hn Hdue].
        apply Z.eqb_eq in Hn. apply checkpoint_due_spec in Hdue. tauto. }
  destruct Hfwd as (tr & Ht & Hfwd).
  exists tr. split; [assumption |]. split; [assumption |]. split.
  - intros -> Hc Hm.
    destruct (step_ok env self config _ _ _ _ Hrun) as (d & s1 & HD & HF).
    destruct (update_D_ok env self _ _ _ HD) as (Ht1 & _).
    destruct (finish_step_ok env self config _ _ _ _ _ _ HF)
      as (t_sum & t_g & t_status & t_fid & Ht' & _).
    fold c in Ht'.
    assert (Hdue : checkpoint_due c = true) by (apply checkpoint_due_spec; auto).
    rewrite Hdue, Ht1, Ht, <- !app_assoc in Ht'.
    apply app_inv_head in Ht'. rewrite Ht'.
    repeat (apply in_or_app; right). now left.
  - intros Hc n Hin. apply Hfwd in Hin. tauto.
Qed.

Lemma checkpoint_cadence_witness :
  exists s' tr,
    step nat Demo.quiet Demo.model Demo.run 0 3 (Demo.at_counter 4000)
      = (Ok tt, s') /\
    trace s' = tr /\ In (SaverSave 4000) tr.
Proof.
  pose (s' := snd (step nat Demo.quiet Demo.model Demo.run 0 3
                     (Demo.at_counter 4000))).
  assert (Hrun : step nat Demo.quiet Demo.model Demo.run 0 3
                   (Demo.at_counter 4000) = (Ok tt, s'))
    by (vm_compute; reflexivity).
  destruct (checkpoint_cadence nat Demo.quiet Demo.model Demo.run 0 3
              (Demo.at_counter 4000) (Ok tt) s' Hrun)
    as (tr & Ht & _ & Hsave & _).
  exists s', tr. split; [exact Hrun |]. split; [exact Ht |].
  apply Hsave; [reflexivity | discriminate | reflexivity].
Defined.

(** ** A failing FID computation (lines 495-507) *)

Section Recovery.
Local Open Scope effect_scope.

Context {W : Type}.
Variable env : environment W.
Variable self : dcgan.
Variable config : train_config.

Hypothesis others_return :
  forall ev w, ev <> FrechetDistance -> raises env ev w = None.
Hypothesis distance_fails_with_exception :
  forall w e, raises env FrechetDistance w = Some e -> is_Exception e = true.

Lemma total_ret {A} (a : A) : total (ret (W := W) a).
Proof. intros s. now exists a, s. Qed.

Lemma total_bind {A B} (m : M W A) (k : A -> M W B) :
  total m -> (forall a, total (k a)) -> total (bind m k).
Proof.
  intros Hm Hk s. destruct (Hm s) as (a & s1 & H1).
  destruct (Hk a s1) as (b & s2 & H2).
  exists b, s2. unfold bind. now rewrite H1.
Qed.

Lemma total_call ev : ev <> FrechetDistance -> total (call env ev).
Proof.
  intros Hev s. unfold call. rewrite (others_return ev _ Hev). eauto.
Qed.

Lemma total_print m : total (print (W := W) m).
Proof. intros s. unfold print. eauto. Qed.

Lemma total_ask {A} (f : W -> A) : total (ask f).
Proof. intros s. unfold ask. eauto. Qed.

Lemma total_get_locals : total (get_locals (W := W)).
Proof. intros s. unfold get_locals. eauto. Qed.

Lemma total_set_locals l : total (set_locals (W := W) l).
Proof. intros s. unfold set_locals. eauto. Qed.

Lemma total_modify_locals f : total (modify_locals (W := W) f).
Proof. intros s. unfold modify_locals. eauto. Qed.

Lemma total_when b (m : M W unit) : total m -> total (when_ b m).
Proof. intros Hm. destruct b; [assumption | apply total_ret]. Qed.

Lemma total_for_loop n (body : Z -> M W unit) :
  (forall i, total (body i)) -> total (for_loop n body).
Proof.
  intros Hb. induction n as [| n IH]; cbn [for_loop].
  - apply total_ret.
  - apply total_bind; [assumption | intros _; apply Hb].
Qed.

Lemma total_try_except {A} (body : M W A) handler :
  total body -> total (try_except body handler).
Proof.
  intros Hb s. destruct (Hb s) as (a & s1 & H1).
  exists a, s1. unfold try_except. now rewrite H1.
Qed.

Lemma total_floordiv a b : b <> 0%Z -> total (lift (W := W) (py_floordiv a b)).
Proof.
  intros Hb s. unfold lift, py_floordiv.
  destruct (Z.eqb_spec b 0); [contradiction | eauto].
Qed.

Lemma total_calculate_fid : total (calculate_fid W env).
Proof.
  intros s. unfold calculate_fid, try_except, bind, call, ask, print, ret.
  destruct (raises env FrechetDistance (world s)) as [e |] eqn:Hr.
  - rewrite (distance_fails_with_exception _ _ Hr). eauto.
  - eauto.
Qed.

Ltac total_step :=
  first
    [ apply total_call; discriminate
    | apply total_print
    | apply total_ask
    | apply total_get_locals
    | apply total_set_locals
    | apply total_modify_locals
    | apply total_ret
    | apply total_calculate_fid
    | apply total_when
    | apply total_for_loop; intros ?
    | apply total_try_except
    | apply total_bind; [| intros ?] ].

Lemma total_bind_lift {A B} (x : result A) a (k : A -> M W B) :
  x = Ok a -> total (k a) -> total (bind (lift x) k).
Proof.
  intros -> Hk s. destruct (Hk s) as (b & s' & Hrun).
  exists b, s'. exact Hrun.
Qed.

Lemma total_for_loop_below n (body : Z -> M W unit) :
  (forall i, (0 <= i < Z.of_nat n)%Z -> total (body i)) ->
  total (for_loop n body).
Proof.
  induction n as [| n IH]; intros Hb; cbn [for_loop].
  - apply total_ret.
  - apply total_bind.
    + apply IH. intros i Hi. apply Hb. lia.
    + intros _. apply Hb. lia.
Qed.

(** The slice of line 484 has [fid_sample_batchsize] rows as long as the
    batch lies inside the array. *)
Lemma py_slice_len_inside (n : nat) (i b : Z) :
  (0 <= i)%Z -> (0 < b)%Z -> ((i + 1) * b <= Z.of_nat n)%Z ->
  py_slice_len n (i * b) (i * b + b) = Z.to_nat b.
Proof.
  intros Hi Hb Hn. unfold py_slice_len.
  destruct (Z.ltb_spec (i * b) 0); [nia |].
  destruct (Z.ltb_spec (i * b + b) 0); [nia |].
  f_equal. nia.
Qed.

Lemma broadcast_shape_channels b H Wd c :
  c = 1%nat \/ c = 3%nat ->
  broadcast_shape [b; H; Wd; c] [b; H; Wd; 3%nat] = Some [b; H; Wd; 3%nat].
Proof.
  intros Hc. unfold broadcast_shape. cbn [rev app broadcast_rev].
  rewrite !broadcast_dim_refl.
  destruct Hc as [-> | ->]; reflexivity.
Qed.

(** No batch is refused by the array when the number of samples is not
    negative and the images have one or three channels. *)
Lemma np_assign_slice_ok (i : Z) :
  (0 <= self_fid_n_samples self)%Z ->
  c_dim (self_config self) = 1%nat \/ c_dim (self_config self) = 3%nat ->
  (0 <= i < self_fid_n_samples self / fid_sample_batchsize (self_config self))%Z ->
  np_assign_slice (Z.to_nat (self_fid_n_samples self))
    [output_height (self_config self); output_width (self_config self); 3%nat]
    (i * fid_sample_batchsize (self_config self))
    (i * fid_sample_batchsize (self_config self)
     + fid_sample_batchsize (self_config self))
    (sampler_fid_shape self) = Ok tt.
Proof.
  intros Hn Hc Hi.
  set (n := self_fid_n_samples self) in *.
  set (b := fid_sample_batchsize (self_config self)) in *.
  assert (Hb : (0 < b)%Z).
  { destruct (Z.lt_trichotomy b 0) as [Hneg | [Hz | Hpos]]; [| | assumption].
    - pose proof (Z.div_mod n b ltac:(lia)).
      pose proof (Z.mod_neg_bound n b Hneg). nia.
    - rewrite Hz, Z.div_0_r in Hi. lia. }
  assert (Hfit : ((i + 1) * b <= Z.of_nat (Z.to_nat n))%Z).
  { pose proof (Z.div_mod n b ltac:(lia)).
    pose proof (Z.mod_pos_bound n b Hb). nia. }
  unfold np_assign_slice, sampler_fid_shape. fold b.
  rewrite (py_slice_len_inside _ i b) by lia.
  rewrite broadcast_shape_channels by assumption.
  destruct (decide _); [reflexivity | contradiction].
Qed.

Lemma total_evaluate_fid epoch_ batch_idx c :
  fid_sample_batchsize (self_config self) <> 0%Z ->
  (0 <= self_fid_n_samples self)%Z ->
  c_dim (self_config self) = 1%nat \/ c_dim (self_config self) = 3%nat ->
  total (evaluate_fid W env self epoch_ batch_idx c).
Proof.
  intros Hb Hn Hc. unfold evaluate_fid, save_samples.
  apply total_bind; [repeat total_step | intros _].
  apply total_bind; [total_step | intros _].
  eapply total_bind_lift.
  { unfold np_zeros. cbn [forallb].
    destruct (Z.leb_spec 0 (self_fid_n_samples self)); [| lia].
    destruct (Z.leb_spec 0 (Z.of_nat (output_height (self_config self))));
      [| lia].
    destruct (Z.leb_spec 0 (Z.of_nat (output_width (self_config self))));
      [| lia].
    reflexivity. }
  eapply total_bind_lift.
  { unfold py_floordiv.
    destruct (Z.eqb_spec (fid_sample_batchsize (self_config self)) 0);
      [contradiction | reflexivity]. }
  cbn [map hd tl]. rewrite !Nat2Z.id.
  apply total_bind; [| intros _; repeat total_step].
  unfold for_range, range_len. apply total_for_loop_below. intros i Hi.
  apply total_bind; [total_step | intros _].
  apply total_bind; [total_step | intros _].
  intros s. unfold lift. change (Z.to_nat 3) with 3%nat.
  rewrite (np_assign_slice_ok i Hn Hc) by lia. eauto.
Qed.

Lemma total_step_of_loop epoch_ batch_idx :
  fid_sample_batchsize (self_config self) <> 0%Z ->
  (0 <= self_fid_n_samples self)%Z ->
  c_dim (self_config self) = 1%nat \/ c_dim (self_config self) = 3%nat ->
  total (step W env self config epoch_ batch_idx).
Proof.
  intros Hb Hn Hc.
  unfold step, update_D, finish_step, update_G, for_range.
  repeat first [ apply total_evaluate_fid; assumption | total_step ].
Qed.

End Recovery.

(** C8.  When the Frechet distance computation raises an exception [e]
    (an instance of [Exception]), the other calls of the step return and the
    sample array takes the batches of the sampler (a number of samples that
    is not negative, images of one or three channels), a step that evaluates
    the FID completes: the exception is printed, the value written to the
    FID variable is 500 and nothing else, and the counter moves on to the
    next step. *)
Theorem fid_failure_recovered W (env : environment W) self config
    epoch_ batch_idx (s : state W) e :
  (forall ev w, ev <> FrechetDistance -> raises env ev w = None) ->
  (forall w, raises env FrechetDistance w = Some e) ->
  is_Exception e = true ->
  fid_sample_batchsize (self_config self) <> 0%Z ->
  (0 <= self_fid_n_samples self)%Z ->
  c_dim (self_config self) = 1%nat \/ c_dim (self_config self) = 3%nat ->
  np_mod (counter (vars s)) (fid_eval_steps config) = 0%Z ->
  exists s' tr,
    step W env self config epoch_ batch_idx s = (Ok tt, s') /\
    trace s' = trace s ++ tr /\
    counter (vars s') = (counter (vars s) + 1)%Z /\
    In (Print (MsgException e)) tr /\
    In (AssignFid 500) tr /\
    (forall v, In (AssignFid v) tr -> v = 500).
Proof.
  intros Hquiet Hfail He Hb Hn Hc3 Hmod.
  assert (Hexc : forall w e', raises env FrechetDistance w = Some e' ->
                              is_Exception e' = true).
  { intros w e' Hr. rewrite Hfail in Hr. now injection Hr as <-. }
  destruct (total_step_of_loop env self config Hquiet Hexc epoch_ batch_idx
              Hb Hn Hc3 s) as ([] & s' & Hrun).
  destruct (step_ok env self config _ _ _ _ Hrun) as (d & s1 & HD & HF).
  destruct (update_D_ok env self _ _ _ HD) as (Ht1 & _).
  destruct (finish_step_ok env self config _ _ _ _ _ _ HF)
    as (t_sum & t_g & t_status & t_fid & Ht & Esum & _ & Pg & Pst & _ & Hev
        & _ & Hc).
  destruct Hev as (sa & sb & Heval & Hab); [now rewrite Hmod |].
  destruct (evaluate_fid_ok env self _ _ _ _ _ Heval)
    as (FID & sc & sd & t1 & t2 & summary_str & Hcalc & Hcd & Hfid & P1 & P2).
  rewrite Hab in Hfid. apply app_inv_head in Hfid.
  destruct (calculate_fid_ok env _ _ _ Hcalc)
    as [[Hnone _] | (e' & Hsome & _ & -> & Hcd')];
    [rewrite Hfail in Hnone; discriminate |].
  rewrite Hfail in Hsome. injection Hsome as <-.
  rewrite Hcd in Hcd'. apply app_inv_head in Hcd'. subst t2.
  set (c := counter (vars s)) in *.
  exists s'. eexists.
  split; [exact Hrun |].
  split; [rewrite Ht, Ht1, <- !app_assoc; reflexivity |].
  split; [assumption |].
  rewrite Hfid. split; [| split].
  - rewrite !in_app_iff. cbn [In]. intuition.
  - rewrite !in_app_iff. cbn [In]. intuition.
  - intros v Hin.
    repeat (apply in_app_or in Hin; destruct Hin as [Hin | Hin]).
    + apply repeat_spec in Hin. discriminate.
    + rewrite Esum in Hin. destruct (np_mod c 20 =? 0)%Z; simpl in Hin;
        [destruct Hin as [[=] | []] | contradiction].
    + exfalso. revert Hin. now apply (not_in_of_forallb is_generator_call).
    + exfalso. revert Hin. now apply (not_in_of_forallb is_plain_call).
    + exfalso. revert Hin. now apply (not_in_of_forallb is_plain_call).
    + simpl in Hin. destruct Hin as [[=] | [[=] | []]].
    + simpl in Hin. destruct Hin as [[=] | [[= <-] | [[=] | [[=] | []]]]].
      reflexivity.
    + destruct (checkpoint_due c); simpl in Hin;
        [destruct Hin as [[=] | []] | contradiction].
Qed.

Lemma fid_failure_recovered_witness :
  exists s' tr,
    step nat Demo.failing_fid Demo.model Demo.run 0 0 (Demo.at_counter 500)
      = (Ok tt, s') /\
    trace s' = tr /\
    counter (vars s') = 501%Z /\
    In (AssignFid 500) tr.
Proof.
  destruct (fid_failure_recovered nat Demo.failing_fid Demo.model Demo.run 0 0
              (Demo.at_counter 500) Demo.singular)
    as (s' & tr & Hrun & Ht & Hc & _ & Hfid & _).
  - intros ev w Hev. destruct ev; try reflexivity. contradiction.
  - reflexivity.
  - reflexivity.
  - discriminate.
  - discriminate.
  - left. reflexivity.
  - reflexivity.
  - exists s', tr. split; [exact Hrun |]. split; [exact Ht |].
    split; [exact Hc | exact Hfid].
Defined.

(** ** Shutdown of the data feed (lines 514-521) *)

Lemma shutdown_trace W (env : environment W) (s : state W) :
  (forall w, raises env RequestStop w = None) ->
  trace (snd (shutdown W env s)) = trace s ++ [RequestStop; JoinThreads].
Proof.
  intros Hstop. unfold shutdown, bind, call. rewrite Hstop. cbn [trace world].
  destruct (raises env JoinThreads _); cbn [snd trace];
    now rewrite <- app_assoc.
Qed.

Lemma try_finally_trace W (env : environment W) {A} (body : M W A) (s : state W) :
  (forall w, raises env RequestStop w = None) ->
  trace (snd (try_finally body (shutdown W env) s))
  = trace (snd (body s)) ++ [RequestStop; JoinThreads].
Proof.
  intros Hstop. unfold try_finally.
  destruct (body s) as [r s1]. cbn [snd].
  rewrite <- (shutdown_trace W env s1 Hstop).
  now destruct (shutdown W env s1) as [[[] | e] s2].
Qed.

(** C7.  However the loop over the epochs ends, [training_loop] ends with
    the request to stop the feeding threads followed by their join (given
    that the request itself returns): directly after a normal completion;
    after the checkpoint at the current counter when the loop was
    interrupted; after the message when another exception of class
    [Exception] was caught; and also when an exception no clause catches
    propagates. *)
Theorem shutdown_on_every_exit W (env : environment W) self config
    batch_nums (s : state W) :
  (forall w, raises env RequestStop w = None) ->
  let r1 := fst (epochs W env self config batch_nums s) in
  let s1 := snd (epochs W env self config batch_nums s) in
  let s' := snd (training_loop W env self config batch_nums s) in
  (r1 = Ok tt -> trace s' = trace s1 ++ [RequestStop; JoinThreads]) /\
  (r1 = Raise KeyboardInterrupt ->
     trace s' = trace s1
                ++ [SaverSave (counter (vars s1)); RequestStop; JoinThreads]) /\
  (forall e, r1 = Raise e -> e <> KeyboardInterrupt ->
     trace s' = trace s1
                ++ (if is_Exception e then [Print (MsgException e)] else [])
                ++ [RequestStop; JoinThreads]).
Proof.
  intros Hstop r1 s1 s'. subst r1 s1 s'. unfold training_loop.
  rewrite (try_finally_trace W env _ s Hstop).
  unfold try_except.
  destruct (epochs W env self config batch_nums s) as [[[] | e] s1].
  - cbn [fst snd]. split; [reflexivity |].
    split; [discriminate | intros e [=]].
  - cbn [fst snd]. split; [discriminate |]. split.
    + intros [= ->]. cbn [handlers is_KeyboardInterrupt].
      unfold bind, get_locals, call. cbn [vars world trace].
      destruct (raises env (SaverSave (counter (vars s1))) (world s1));
        cbn [snd trace]; now rewrite <- app_assoc.
    + intros e' [= <-] Hne. unfold handlers.
      destruct e; try contradiction; cbn [is_KeyboardInterrupt is_Exception];
        cbn [snd print trace]; rewrite <- ?app_assoc, ?app_nil_r; reflexivity.
Qed.

Lemma shutdown_on_every_exit_witness :
  let r1 := fst (epochs nat (Demo.interrupted 20) Demo.model Demo.run 4 Demo.start) in
  let s1 := snd (epochs nat (Demo.interrupted 20) Demo.model Demo.run 4 Demo.start) in
  let s' := snd (training_loop nat (Demo.interrupted 20) Demo.model Demo.run 4
                   Demo.start) in
  r1 = Raise KeyboardInterrupt /\
  counter (vars s1) = 1%Z /\
  trace s' = trace s1 ++ [SaverSave 1; RequestStop; JoinThreads].
Proof.
  intros r1 s1 s'.
  assert (Hr : r1 = Raise KeyboardInterrupt) by (vm_compute; reflexivity).
  assert (Hc : counter (vars s1) = 1%Z) by (vm_compute; reflexivity).
  split; [exact Hr |]. split; [exact Hc |].
  destruct (shutdown_on_every_exit nat (Demo.interrupted 20) Demo.model
              Demo.run 4 Demo.start) as (_ & Hint & _).
  - intros w. reflexivity.
  - fold s1 s' in Hint. rewrite <- Hc. apply Hint. exact Hr.
Defined.

(** ** Construction: [__init__] and [build_model] *)

(** Lines 371-377 on their own. *)
Lemma adjust_fid_n_samples_spec W (n b : Z) (s : state W) :
  b <> 0%Z ->
  adjust_fid_n_samples W n b s =
  if (n mod b =? 0)%Z
  then (Ok n, s)
  else (Ok (n / b * b)%Z,
        {| world := world s;
           trace := trace s ++ [Print (MsgFidWarning n (n / b * b))];
           vars := vars s |}).
Proof.
  intros Hb. unfold adjust_fid_n_samples, bind, lift, py_mod, py_floordiv.
  destruct (Z.eqb_spec b 0); [contradiction |].
  destruct (n mod b =? 0)%Z; reflexivity.
Qed.

(** C6.  A construction that succeeds has a nonzero [fid_sample_batchsize];
    if [fid_n_samples] is not a multiple of it, the model keeps
    [fid_n_samples // fid_sample_batchsize * fid_sample_batchsize] (no more
    than before, for a positive batch size) and the last thing [build_model]
    does is print the warning with the old and the new number; if it is a
    multiple, [fid_n_samples] is kept and no warning is printed. *)
Theorem fid_n_samples_adjusted W (env : environment W) tf cfg fd
    (s : state W) self s' :
  build_model W env tf cfg fd s = (Ok self, s') ->
  let n := fid_n_samples cfg in
  let b := fid_sample_batchsize cfg in
  b <> 0%Z /\
  ((n mod b)%Z <> 0%Z ->
     self_fid_n_samples self = (n / b * b)%Z /\
     (0 < b -> self_fid_n_samples self < n)%Z /\
     trace s' = trace s ++ [GetLoader; InitVariables; StartQueueRunners;
                            Print (MsgFidWarning n (n / b * b))]) /\
  ((n mod b)%Z = 0%Z ->
     self_fid_n_samples self = n /\
     trace s' = trace s ++ [GetLoader; InitVariables; StartQueueRunners]).
Proof.
  intros Hrun n b. unfold build_model in Hrun.
  apply bind_ok_inv in Hrun. destruct Hrun as ([] & s1 & H1 & Hrun).
  apply call_inv in H1. destruct H1 as (E1 & _).
  apply bind_ok_inv in Hrun. destruct Hrun as (n_paths & s2 & H2 & Hrun).
  assert (s2 = s1) by (unfold ask in H2; congruence). subst s2.
  do 3 (apply bind_ok_inv in Hrun; destruct Hrun as ([] & sz & Hz & Hrun);
        assert (sz = s1) by (unfold lift in Hz; congruence); subst sz;
        clear Hz).
  destruct (truthy (y_dim cfg)).
  { apply bind_ok_inv in Hrun. destruct Hrun as (? & ? & _ & [=]). }
  apply bind_ok_inv in Hrun. destruct Hrun as (? & s3 & H3 & Hrun).
  assert (s3 = s1) by (unfold lift in H3; congruence). subst s3.
  apply bind_ok_inv in Hrun. destruct Hrun as ([] & s4 & H4 & Hrun).
  apply call_inv in H4. destruct H4 as (E4 & _).
  apply bind_ok_inv in Hrun. destruct Hrun as ([] & s5 & H5 & Hrun).
  apply call_inv in H5. destruct H5 as (E5 & _).
  apply bind_ok_inv in Hrun. destruct Hrun as (m & s6 & H6 & Hrun).
  injection Hrun as <- <-. cbn [self_fid_n_samples]. fold n b in H6.
  assert (Hb : b <> 0%Z).
  { intros Hb. unfold adjust_fid_n_samples, bind, lift, py_mod in H6.
    rewrite Hb in H6. discriminate. }
  rewrite (adjust_fid_n_samples_spec W n b s5 Hb) in H6.
  split; [exact Hb |]. split.
  - intros Hmod. apply Z.eqb_neq in Hmod. rewrite Hmod in H6.
    injection H6 as <- <-. cbn [trace]. apply Z.eqb_neq in Hmod.
    split; [reflexivity |]. split.
    + intros Hpos. pose proof (Z.mod_pos_bound n b Hpos).
      pose proof (Z.div_mod n b Hb). lia.
    + rewrite E5, E4, E1, <- !app_assoc. reflexivity.
  - intros Hmod. apply Z.eqb_eq in Hmod. rewrite Hmod in H6.
    injection H6 as <- <-. split; [reflexivity |].
    rewrite E5, E4, E1, <- !app_assoc. reflexivity.
Qed.

Lemma fid_n_samples_adjusted_witness :
  exists self s',
    build_model nat Demo.quiet (Demo.linear_backend Demo.fake_images)
      (Demo.small_config "regular_gan") Demo.small_feed Demo.start
      = (Ok self, s') /\
    fid_n_samples (Demo.small_config "regular_gan") = 10000%Z /\
    fid_sample_batchsize (Demo.small_config "regular_gan") = 3000%Z /\
    self_fid_n_samples self = 9000%Z /\
    trace s' = [GetLoader; InitVariables; StartQueueRunners;
                Print (MsgFidWarning 10000 9000)].
Proof.
  assert (Hok : is_ok (fst (build_model nat Demo.quiet
                              (Demo.linear_backend Demo.fake_images)
                              (Demo.small_config "regular_gan")
                              Demo.small_feed Demo.start)) = true)
    by (vm_compute; reflexivity).
  destruct (build_model nat Demo.quiet (Demo.linear_backend Demo.fake_images)
              (Demo.small_config "regular_gan") Demo.small_feed Demo.start)
    as [[self | e] s'] eqn:Hrun; [| discriminate Hok].
  destruct (fid_n_samples_adjusted nat Demo.quiet _ _ _ _ _ _ Hrun)
    as (_ & Hadj & _).
  destruct Hadj as (Hn & _ & Ht); [vm_compute; discriminate |].
  exists self, s'. split; [reflexivity |].
  split; [reflexivity |]. split; [reflexivity |].
  split; [exact Hn | exact Ht].
Defined.

Lemma string_in_spec x l : string_in x l = true <-> In x l.
Proof.
  unfold string_in. rewrite existsb_exists. split.
  - intros (y & Hy & Heq). apply String.eqb_eq in Heq. now subst.
  - intros Hin. exists x. split; [assumption | apply String.eqb_refl].
Qed.

Lemma Qle_bool_false x y : y < x -> Qle_bool x y = false.
Proof.
  intros Hlt. destruct (Qle_bool x y) eqn:Hle; [| reflexivity].
  apply Qle_bool_iff in Hle. exfalso. lra.
Qed.

(** C9.  [__init__] on a [gan_method] that is none of 'penalized_wgan',
    'improved_wgan' and 'regular_gan', on a negative [lipschitz_penalty] or
    [gradient_penalty], or on [num_discriminator_updates < 1], raises an
    [AssertionError] with nothing done: no model is built and nothing is
    called or printed, so no training step can follow. *)
Theorem invalid_configuration_rejected W (env : environment W) tf cfg fd
    (s : state W) :
  ~ In (gan_method cfg) ["penalized_wgan"; "improved_wgan"; "regular_gan"]
  \/ lipschitz_penalty cfg < 0
  \/ gradient_penalty cfg < 0
  \/ (num_discriminator_updates cfg < 1)%Z ->
  exists msg, __init__ W env tf cfg fd s = (Raise (AssertionError msg), s).
Proof.
  intros Hbad. unfold __init__, bind, py_assert.
  destruct (Qle_bool 0 (lipschitz_penalty cfg)) eqn:Hl;
    [| eexists; reflexivity].
  destruct (Qle_bool 0 (gradient_penalty cfg)) eqn:Hg;
    [| eexists; reflexivity].
  destruct (string_in (gan_method cfg) gan_methods) eqn:Hm;
    [| eexists; reflexivity].
  destruct (1 <=? num_discriminator_updates cfg)%Z eqn:Hk;
    [| eexists; reflexivity].
  exfalso. destruct Hbad as [Hbad | [Hbad | [Hbad | Hbad]]].
  - apply Hbad. now apply string_in_spec.
  - rewrite (Qle_bool_false _ _ Hbad) in Hl. discriminate.
  - rewrite (Qle_bool_false _ _ Hbad) in Hg. discriminate.
  - apply Z.leb_le in Hk. lia.
Qed.

Lemma invalid_configuration_rejected_witness :
  exists msg,
    __init__ nat Demo.quiet (Demo.linear_backend Demo.fake_images)
      (Demo.small_config "bogus") Demo.small_feed Demo.start
    = (Raise (AssertionError msg), Demo.start).
Proof.
  apply invalid_configuration_rejected.
  left. cbn. intros [H | [H | [H | []]]]; discriminate H.
Defined.

(** * Further properties *)

(** ** Rounding to a binary format *)

Section Rounding.
Import Float.

Lemma round_half_even_comp q q' :
  q == q' -> round_half_even q = round_half_even q'.
Proof.
  intros H. unfold round_half_even.
  rewrite (Qfloor_comp _ _ H).
  assert (Hc : Qcompare (q - inject_Z (Qfloor q')) (1 # 2)
               = Qcompare (q' - inject_Z (Qfloor q')) (1 # 2))
    by (apply Qcompare_comp; [now rewrite H | reflexivity]).
  now rewrite Hc.
Qed.

Lemma round_half_even_cases q :
  (round_half_even q = Qfloor q /\ q - inject_Z (Qfloor q) <= 1 # 2) \/
  (round_half_even q = (Qfloor q + 1)%Z /\ 1 # 2 <= q - inject_Z (Qfloor q)).
Proof.
  unfold round_half_even.
  destruct (Qcompare_spec (q - inject_Z (Qfloor q)) (1 # 2)) as [H | H | H].
  - destruct (Z.even (Qfloor q)); [left | right]; split; auto; lra.
  - left. split; [reflexivity | lra].
  - right. split; [reflexivity | lra].
Qed.

Lemma round_half_even_Z z : round_half_even (inject_Z z) = z.
Proof.
  destruct (round_half_even_cases (inject_Z z)) as [[H _] | [_ H]].
  - now rewrite H, Qfloor_Z.
  - rewrite Qfloor_Z in H. lra.
Qed.

Lemma round_half_even_le q M :
  q <= inject_Z M -> (round_half_even q <= M)%Z.
Proof.
  intros Hq. pose proof (Qfloor_le q) as Hf.
  destruct (round_half_even_cases q) as [[-> _] | [-> H]].
  - rewrite Zle_Qle. lra.
  - assert (Hlt : (Qfloor q < M)%Z) by (rewrite Zlt_Qlt; lra). lia.
Qed.

Lemma round_half_even_gt q K :
  inject_Z K + (1 # 2) < q -> (K < round_half_even q)%Z.
Proof.
  intros Hq. pose proof (Qlt_floor q) as Hf. rewrite inject_Z_plus in Hf.
  destruct (round_half_even_cases q) as [[-> H] | [-> _]].
  - rewrite Zlt_Qlt. lra.
  - assert (Hlt : (K < Qfloor q + 1)%Z)
      by (rewrite Zlt_Qlt, inject_Z_plus; lra).
    exact Hlt.
Qed.

Lemma Qceiling_unique y c :
  inject_Z c - 1 < y -> y <= inject_Z c -> Qceiling y = c.
Proof.
  intros Hlo Hhi.
  pose proof (Qceiling_resp_le _ _ Hhi) as H1. rewrite Qceiling_Z in H1.
  pose proof (Qle_ceiling y) as H2.
  assert (Hc : inject_Z (c - 1) == inject_Z c - 1)
    by (unfold Z.sub; rewrite inject_Z_plus, inject_Z_opp; ring).
  assert (H3 : (c - 1 < Qceiling y)%Z) by (rewrite Zlt_Qlt; lra).
  lia.
Qed.

Lemma pow2_pos e : 0 < 2 ^ e.
Proof. now apply Qpower_0_lt. Qed.

Lemma pow2_inject j : (0 <= j)%Z -> 2 ^ j == inject_Z (2 ^ j).
Proof. intros Hj. now rewrite Zpower_Qpower. Qed.

Lemma floor_log2_le q : 0 < q -> 2 ^ floor_log2 q <= q.
Proof.
  intros Hq. unfold floor_log2.
  destruct (Qle_bool _ q) eqn:Ht; [now apply Qle_bool_iff |].
  destruct q as [n d]. cbn [Qnum Qden].
  assert (Hn : (0 < n)%Z) by (unfold Qlt in Hq; simpl in Hq; lia).
  destruct (Z.log2_spec n Hn) as [Hn1 _].
  destruct (Z.log2_spec (Zpos d) eq_refl) as [_ Hd2].
  pose proof (Z.log2_nonneg n) as Hln.
  pose proof (Z.log2_nonneg (Zpos d)) as Hld.
  replace (Z.log2 n - Z.log2 (Zpos d) - 1)%Z
    with (Z.log2 n - Z.succ (Z.log2 (Zpos d)))%Z by lia.
  rewrite Qpower_minus by discriminate.
  rewrite !pow2_inject by lia.
  rewrite (Qmake_Qdiv n d).
  assert (HA : (0 < 2 ^ Z.log2 n)%Z) by (apply Z.pow_pos_nonneg; lia).
  set (qa := inject_Z (2 ^ Z.log2 n)).
  set (qb := inject_Z (2 ^ Z.succ (Z.log2 (Zpos d)))).
  set (qn := inject_Z n). set (qd := inject_Z (Zpos d)).
  assert (H1 : 0 < qa) by (unfold qa; rewrite <- (Zlt_Qlt 0); lia).
  assert (H2 : qa <= qn) by (unfold qa, qn; rewrite <- Zle_Qle; lia).
  assert (H3 : 0 < qd) by (unfold qd; rewrite <- (Zlt_Qlt 0); lia).
  assert (H4 : qd < qb) by (unfold qd, qb; rewrite <- Zlt_Qlt; lia).
  apply Qle_shift_div_r; [lra |].
  assert (E : qn / qd * qb == qn * qb / qd) by (field; lra).
  rewrite E. apply Qle_shift_div_l; [lra |]. nra.
Qed.


(** Rounding [x] on the grid of step [1 / P] keeps its ceiling [c] when [x]
    is further than half a step above [c - 1]. *)
Lemma grid_keeps_ceiling x u P c :
  0 < P -> u == / P ->
  (exists K, inject_Z K == (inject_Z c - 1) * P) ->
  (exists M, inject_Z M == inject_Z c * P) ->
  (inject_Z c - 1) * P + (1 # 2) < x * P -> x <= inject_Z c ->
  inject_Z c - 1 < inject_Z (round_half_even (x / u)) * u /\
  inject_Z (round_half_even (x / u)) * u <= inject_Z c.
Proof.
  intros HP Hu [K HK] [M HM] Hlo Hhi.
  assert (Hxu : x / u == x * P) by (rewrite Hu; field; lra).
  rewrite (round_half_even_comp _ _ Hxu).
  assert (Hu0 : 0 < u) by (rewrite Hu; now apply Qinv_lt_0_compat).
  assert (HPu : P * u == 1) by (rewrite Hu; field; lra).
  split.
  - assert (H1 : (K < round_half_even (x * P))%Z)
      by (apply round_half_even_gt; rewrite HK; exact Hlo).
    rewrite Zlt_Qlt in H1.
    assert (E : inject_Z c - 1 == inject_Z K * u)
      by (rewrite HK, <- Qmult_assoc, HPu; ring).
    rewrite E. now apply Qmult_lt_compat_r.
  - assert (H1 : (round_half_even (x * P) <= M)%Z).
    { apply round_half_even_le. rewrite HM.
      apply Qmult_le_compat_r; [assumption | lra]. }
    rewrite Zle_Qle in H1.
    assert (E : inject_Z c == inject_Z M * u)
      by (rewrite HM, <- Qmult_assoc, HPu; ring).
    rewrite E. apply Qmult_le_compat_r; [assumption | lra].
Qed.

Lemma Qabs_inject_Z a : Qabs (inject_Z a) == inject_Z (Z.abs a).
Proof. reflexivity. Qed.

(** The binade of a quotient of integers below [2^53]. *)
Lemma float64_step x a b :
  (Z.abs a < 2 ^ 53)%Z -> (0 < b < 2 ^ 53)%Z ->
  x == inject_Z a / inject_Z b -> ~ x == 0 ->
  exists j, (0 <= j)%Z /\
    ulp 53 (-1022) x == / inject_Z (2 ^ j) /\
    inject_Z b < 2 * inject_Z (2 ^ j).
Proof.
  intros Ha Hb Hx H0.
  set (qb := inject_Z b).
  assert (Hb1 : 1 <= qb) by (unfold qb; rewrite <- (Zle_Qle 1); lia).
  assert (Hb2 : qb < 2 ^ 53)
    by (rewrite pow2_inject by lia; unfold qb; rewrite <- Zlt_Qlt; lia).
  assert (Hax : Qabs x * qb == inject_Z (Z.abs a)).
  { rewrite Hx, <- Qabs_inject_Z. unfold Qdiv.
    rewrite Qabs_Qmult, Qabs_Qinv. fold qb.
    rewrite (Qabs_pos qb) by lra. field. lra. }
  assert (Ha2 : inject_Z (Z.abs a) < 2 ^ 53)
    by (rewrite pow2_inject by lia; rewrite <- Zlt_Qlt; lia).
  assert (Hx0 : 0 < Qabs x).
  { destruct (Qlt_le_dec 0 (Qabs x)) as [H | H]; [assumption |].
    exfalso. apply H0. pose proof (Qabs_nonneg x) as Hn.
    assert (Hz : Qabs x == 0) by lra.
    revert Hz. apply Qabs_case; intros; lra. }
  pose proof (floor_log2_le _ Hx0) as He.
  set (e := floor_log2 (Qabs x)) in *.
  assert (Hxlt : Qabs x < 2 ^ 53) by nra.
  assert (He53 : (e < 53)%Z).
  { apply (Qpower_lt_compat_l_inv 2); [| reflexivity]. lra. }
  unfold ulp. fold e. set (e' := Z.max e (-1022)).
  assert (He' : (e' <= 52)%Z) by lia.
  exists (52 - e')%Z. split; [lia |]. split.
  - replace (e' - (53 - 1))%Z with (- (52 - e'))%Z by lia.
    rewrite Qpower_opp, pow2_inject by lia. reflexivity.
  - rewrite <- pow2_inject by lia.
    assert (Hpe : 0 < 2 ^ e') by apply pow2_pos.
    assert (Hsplit : 2 ^ 53 == 2 ^ e' * (2 * 2 ^ (52 - e'))).
    { replace 53%Z with (e' + (1 + (52 - e')))%Z at 1 by lia.
      rewrite !Qpower_plus by discriminate. reflexivity. }
    assert (Hbe : qb * 2 ^ e' < 2 ^ 53).
    { destruct (Z.max_spec e (-1022)) as [[_ Hm] | [_ Hm]]; fold e' in Hm;
        rewrite Hm.
      - assert (Hone : 2 ^ (-1022) <= 2 ^ 0)
          by (apply Qpower_le_compat_l; [lia | discriminate]).
        change (2 ^ 0) with 1 in Hone.
        pose proof (pow2_pos (-1022)). nra.
      - nra. }
    fold qb. set (p := 2 ^ (52 - e')) in *.
    assert (Hp : 0 < p) by apply pow2_pos.
    rewrite Hsplit in Hbe. nra.
Qed.

(** Dividing two integers below [2^53] in binary64 and rounding the result
    up gives the ceiling of the exact quotient. *)
Lemma float64_keeps_ceiling x a b :
  (Z.abs a < 2 ^ 53)%Z -> (0 < b < 2 ^ 53)%Z ->
  x == inject_Z a / inject_Z b ->
  Qceiling (float64 x) = Qceiling x.
Proof.
  intros Ha Hb Hx. unfold float64, round_nearest.
  destruct (Qeq_bool x 0) eqn:H0.
  - apply Qeq_bool_iff in H0. now rewrite (Qceiling_comp _ _ H0).
  - apply Qeq_bool_neq in H0.
    destruct (float64_step x a b Ha Hb Hx H0) as (j & Hj & Hu & Hbj).
    set (P := inject_Z (2 ^ j)) in *.
    assert (HP : 0 < P)
      by (unfold P; rewrite <- (Zlt_Qlt 0); apply Z.pow_pos_nonneg; lia).
    set (c := Qceiling x).
    set (qb := inject_Z b) in *.
    assert (Hb0 : 0 < qb) by (unfold qb; rewrite <- (Zlt_Qlt 0); lia).
    assert (Hhi : x <= inject_Z c) by apply Qle_ceiling.
    assert (Hlo : inject_Z c - 1 + / qb <= x).
    { pose proof (Qceiling_lt x) as Hk. fold c in Hk.
      assert (Hkb : (((c - 1) * b < a))%Z).
      { rewrite Zlt_Qlt, inject_Z_mult. fold qb.
        assert (Hxa : x * qb == inject_Z a) by (rewrite Hx; field; lra).
        rewrite <- Hxa. now apply Qmult_lt_compat_r. }
      assert (Hkb1 : ((c - 1) * b + 1 <= a)%Z) by lia.
      rewrite Zle_Qle, inject_Z_plus, inject_Z_mult in Hkb1. fold qb in Hkb1.
      assert (Hc : inject_Z (c - 1) == inject_Z c - 1)
        by (unfold Z.sub; rewrite inject_Z_plus, inject_Z_opp; ring).
      rewrite Hc in Hkb1. rewrite Hx.
      apply Qle_shift_div_l; [assumption |].
      assert (E : (inject_Z c - 1 + / qb) * qb == (inject_Z c - 1) * qb + 1)
        by (field; lra).
      now rewrite E. }
    apply Qceiling_unique;
      apply (grid_keeps_ceiling x _ P c HP Hu); try assumption.
    all: try (exists ((c - 1) * 2 ^ j)%Z; unfold P;
              rewrite inject_Z_mult; unfold Z.sub;
              rewrite inject_Z_plus, inject_Z_opp; ring).
    all: try (exists (c * 2 ^ j)%Z; unfold P; now rewrite inject_Z_mult).
    all: assert (Hinv : 1 # 2 < P * / qb)
           by (apply Qlt_shift_div_l; [assumption | lra]);
         nra.
Qed.

(** An integer below [2^53] in absolute value is a binary64 value. *)
Lemma float64_Z n : (Z.abs n < 2 ^ 53)%Z -> float64 (inject_Z n) == inject_Z n.
Proof.
  intros Hn. unfold float64, round_nearest.
  destruct (Qeq_bool (inject_Z n) 0) eqn:H0.
  - apply Qeq_bool_iff in H0. now rewrite H0.
  - apply Qeq_bool_neq in H0.
    destruct (float64_step (inject_Z n) n 1 Hn ltac:(lia)) as (j & Hj & Hu & _);
      [unfold Qdiv; change (/ inject_Z 1) with 1; ring | assumption |].
    set (P := inject_Z (2 ^ j)) in *.
    assert (HP : 0 < P)
      by (unfold P; rewrite <- (Zlt_Qlt 0); apply Z.pow_pos_nonneg; lia).
    assert (Hxu : inject_Z n / ulp 53 (-1022) (inject_Z n)
                  == inject_Z (n * 2 ^ j))
      by (rewrite Hu, inject_Z_mult; fold P; field; lra).
    rewrite (round_half_even_comp _ _ Hxu), round_half_even_Z, Hu.
    rewrite inject_Z_mult. fold P. field. lra.
Qed.

End Rounding.

(** ** [conv_out_size_same] (lines 18-19) and the generator's sizes *)

Lemma ceiling_bounds (size stride : Z) :
  (0 < stride)%Z ->
  (stride * (- ((- size) / stride) - 1) < size <= stride * - ((- size) / stride))%Z.
Proof.
  intros Hs.
  pose proof (Z.div_mod (- size) stride ltac:(lia)).
  pose proof (Z.mod_pos_bound (- size) stride Hs).
  nia.
Qed.

Lemma ceiling_unique (size stride r r' : Z) :
  (0 < stride)%Z ->
  (stride * (r - 1) < size <= stride * r)%Z ->
  (stride * (r' - 1) < size <= stride * r')%Z ->
  r = r'.
Proof. intros Hs H1 H2. nia. Qed.

Lemma py_float_exact n :
  (Z.abs n < 2 ^ 53)%Z ->
  exists x, py_float n = Ok x /\ x == inject_Z n.
Proof.
  intros Hn. unfold py_float.
  pose proof (float64_Z n Hn) as Hx.
  set (x := Float.float64 (inject_Z n)) in *.
  destruct (Qle_bool (2 ^ 1024) (Qabs x)) eqn:Hbig; [| now exists x].
  exfalso. apply Qle_bool_iff in Hbig.
  rewrite Hx, Qabs_inject_Z in Hbig.
  assert (H53 : inject_Z (Z.abs n) < 2 ^ 53)
    by (rewrite pow2_inject by lia; rewrite <- Zlt_Qlt; lia).
  assert (Hle : 2 ^ 53 <= 2 ^ 1024)
    by (apply Qpower_le_compat_l; [lia | discriminate]).
  lra.
Qed.

(** Within the integers that binary64 holds exactly the result is the
    ceiling of the exact quotient. *)
Lemma conv_out_size_same_ok (size stride : Z) :
  (Z.abs size < 2 ^ 53)%Z -> (0 < stride < 2 ^ 53)%Z ->
  conv_out_size_same size stride = Ok (- ((- size) / stride))%Z.
Proof.
  intros Hsize Hs. unfold conv_out_size_same.
  destruct (py_float_exact size Hsize) as (a & -> & Ha).
  destruct (py_float_exact stride ltac:(lia)) as (b & -> & Hb).
  cbn [rbind]. unfold py_float_truediv.
  assert (Hb0 : 0 < inject_Z stride) by (rewrite <- (Zlt_Qlt 0); lia).
  destruct (Qeq_bool b 0) eqn:Hz.
  { apply Qeq_bool_iff in Hz. rewrite Hb in Hz. lra. }
  cbn [rbind]. f_equal.
  assert (Hx : a / b == inject_Z size / inject_Z stride)
    by (now rewrite Ha, Hb).
  rewrite (float64_keeps_ceiling _ size stride Hsize Hs Hx).
  rewrite (Qceiling_comp _ _ Hx). unfold Qceiling.
  assert (Hneg : - (inject_Z size / inject_Z stride)
                 == inject_Z (- size) / inject_Z stride)
    by (rewrite inject_Z_opp; field; lra).
  now rewrite (Qfloor_comp _ _ Hneg), <- Zdiv_Qdiv.
Qed.

(** Past [2^53] the quotient is rounded before the ceiling is taken, an int
    too large for a float is refused, and so is a zero stride. *)
Example conv_out_size_same_rounds :
  conv_out_size_same (2 ^ 53 + 1) 2 = Ok (2 ^ 52)%Z /\
  (- ((- (2 ^ 53 + 1)) / 2) = 2 ^ 52 + 1)%Z.
Proof. split; vm_compute; reflexivity. Qed.

Example conv_out_size_same_overflow :
  conv_out_size_same (10 ^ 400) 2 = Raise OverflowError.
Proof. vm_compute. reflexivity. Qed.

Example conv_out_size_same_zero_stride :
  conv_out_size_same 64 0 = Raise ZeroDivisionError.
Proof. vm_compute. reflexivity. Qed.

Lemma ceiling_nested (size a b : Z) :
  (0 < a)%Z -> (0 < b)%Z ->
  (- ((- - ((- size) / a)) / b) = - ((- size) / (a * b)))%Z.
Proof.
  intros Ha Hb.
  pose proof (ceiling_bounds size a Ha) as B1.
  pose proof (ceiling_bounds (- ((- size) / a)) b Hb) as B2.
  pose proof (ceiling_bounds size (a * b) ltac:(lia)) as B.
  apply (ceiling_unique size (a * b)); [lia | nia | exact B].
Qed.

(** X1.  For a size and a positive stride that binary64 holds exactly
    (below [2^53] in absolute value) [conv_out_size_same] returns the ceiling
    of [size / stride]: the one [r] with
    [stride * (r - 1) < size <= stride * r]; it is at least 1 for a positive
    size. *)
Theorem conv_out_size_same_is_ceiling (size stride : Z) :
  (Z.abs size < 2 ^ 53)%Z -> (0 < stride < 2 ^ 53)%Z ->
  exists r,
    conv_out_size_same size stride = Ok r /\
    (stride * (r - 1) < size <= stride * r)%Z /\
    (forall r', (stride * (r' - 1) < size <= stride * r')%Z -> r' = r) /\
    (0 < size -> 1 <= r)%Z.
Proof.
  intros Hsize Hs. rewrite (conv_out_size_same_ok size stride Hsize Hs).
  eexists. split; [reflexivity |].
  pose proof (ceiling_bounds size stride ltac:(lia)) as Hb.
  split; [exact Hb |]. split.
  - intros r' Hr'. exact (ceiling_unique size stride _ _ ltac:(lia) Hr' Hb).
  - intros Hpos. nia.
Qed.

Lemma conv_out_size_same_is_ceiling_witness :
  exists r, conv_out_size_same 65 2 = Ok r /\ (2 * (r - 1) < 65 <= 2 * r)%Z.
Proof.
  destruct (conv_out_size_same_is_ceiling 65 2 ltac:(vm_compute; reflexivity)
              ltac:(split; vm_compute; reflexivity)) as (r & Hr & Hb & _).
  exists r. split; [exact Hr | exact Hb].
Defined.

(** X2.  Within that range two divisions in a row are one division by the
    product of the strides:
    [conv_out_size_same (conv_out_size_same size a) b] is
    [conv_out_size_same size (a * b)]. *)
Theorem conv_out_size_same_composes (size a b r1 : Z) :
  (Z.abs size < 2 ^ 53)%Z -> (0 < a)%Z -> (0 < b)%Z -> (a * b < 2 ^ 53)%Z ->
  conv_out_size_same size a = Ok r1 ->
  conv_out_size_same r1 b = conv_out_size_same size (a * b).
Proof.
  intros Hsize Ha Hb Hab H1.
  assert (Ha53 : (a < 2 ^ 53)%Z) by nia.
  assert (Hb53 : (b < 2 ^ 53)%Z) by nia.
  rewrite (conv_out_size_same_ok size a Hsize ltac:(lia)) in H1.
  injection H1 as <-.
  pose proof (ceiling_bounds size a Ha) as B1.
  rewrite (conv_out_size_same_ok _ b) by (try split; try assumption; nia).
  rewrite (conv_out_size_same_ok size (a * b)) by (try split; try assumption; nia).
  f_equal. now apply ceiling_nested.
Qed.

Lemma conv_out_size_same_composes_witness :
  conv_out_size_same 33 2 = conv_out_size_same 65 (2 * 2).
Proof.
  apply (conv_out_size_same_composes 65 2 2 33);
    [vm_compute; reflexivity | lia | lia | vm_compute; reflexivity
    | vm_compute; reflexivity].
Defined.

(** X3.  For an output size [s] that binary64 holds exactly the generator's
    sizes exist, and the smallest one, [s_h16], is the ceiling of [s / 16]:
    the projected volume, doubled four times, covers the output and
    overshoots it by less than 16 (by nothing exactly when 16 divides [s]);
    each stage is the ceiling of half the next. *)
Theorem generator_sizes_cover (s : Z) :
  (Z.abs s < 2 ^ 53)%Z ->
  exists s2 s4 s8 s16,
    halvings s = Ok (s2, s4, s8, s16) /\
    conv_out_size_same s 4 = Ok s4 /\
    conv_out_size_same s 8 = Ok s8 /\
    conv_out_size_same s 16 = Ok s16 /\
    (s <= 16 * s16 < s + 16)%Z /\
    (16 * s16 = s <-> s mod 16 = 0)%Z /\
    (0 <= 2 * s2 - s <= 1 /\ 0 <= 2 * s4 - s2 <= 1 /\
     0 <= 2 * s8 - s4 <= 1 /\ 0 <= 2 * s16 - s8 <= 1)%Z.
Proof.
  intros Hs.
  assert (H53 : (2 ^ 53 = 9007199254740992)%Z) by reflexivity.
  set (s2 := (- ((- s) / 2))%Z).
  set (s4 := (- ((- s2) / 2))%Z).
  set (s8 := (- ((- s4) / 2))%Z).
  set (s16 := (- ((- s8) / 2))%Z).
  exists s2, s4, s8, s16.
  assert (E4 : s4 = (- ((- s) / 4))%Z)
    by (apply (ceiling_nested s 2 2); lia).
  assert (E8 : s8 = (- ((- s) / 8))%Z).
  { unfold s8. rewrite E4. apply (ceiling_nested s 4 2); lia. }
  assert (E16 : s16 = (- ((- s) / 16))%Z).
  { unfold s16. rewrite E8. apply (ceiling_nested s 8 2); lia. }
  pose proof (ceiling_bounds s 2 ltac:(lia)) as B2.
  pose proof (ceiling_bounds s2 2 ltac:(lia)) as B4.
  pose proof (ceiling_bounds s4 2 ltac:(lia)) as B8.
  pose proof (ceiling_bounds s8 2 ltac:(lia)) as B16.
  pose proof (ceiling_bounds s 16 ltac:(lia)) as B.
  fold s2 in B2. fold s4 in B4. fold s8 in B8. fold s16 in B16.
  rewrite <- E16 in B.
  assert (R : forall x k, (Z.abs x < 9007199254740992)%Z ->
                (0 < k < 9007199254740992)%Z ->
                conv_out_size_same x k = Ok (- ((- x) / k))%Z)
    by (intros x k Hx Hk; apply conv_out_size_same_ok; rewrite H53; assumption).
  rewrite H53 in Hs.
  split.
  { unfold halvings.
    rewrite (R s 2%Z) by lia. cbn [rbind]. fold s2.
    rewrite (R s2 2%Z) by lia. cbn [rbind]. fold s4.
    rewrite (R s4 2%Z) by lia. cbn [rbind]. fold s8.
    rewrite (R s8 2%Z) by lia. cbn [rbind]. fold s16. reflexivity. }
  split; [rewrite R by lia; now rewrite E4 |].
  split; [rewrite R by lia; now rewrite E8 |].
  split; [rewrite R by lia; now rewrite E16 |].
  split; [lia |]. split; [| lia].
  split.
  - intros Heq. rewrite <- Heq, Z.mul_comm. apply Z.mod_mul. lia.
  - intros Hm. pose proof (Z.div_mod s 16 ltac:(lia)). lia.
Qed.

Lemma generator_sizes_cover_witness :
  exists s2 s4 s8 s16,
    halvings 64 = Ok (s2, s4, s8, s16) /\ (16 * s16 = 64)%Z.
Proof.
  destruct (generator_sizes_cover 64 ltac:(vm_compute; reflexivity))
    as (s2 & s4 & s8 & s16 & Hh & _ & _ & _ & _ & Hd & _).
  exists s2, s4, s8, s16. split; [exact Hh |]. apply Hd. reflexivity.
Defined.

(** ** [l2norm] (lines 21-22) *)

(** X4.  On a batch of shape [B, H, W, C] with more than one sample (or
    none) [l2norm] has one entry per sample: the square root of the sum of
    the squares of all the pixels and channels of that sample. *)
Theorem l2norm_per_sample tf x B H Wd C :
  shape x = [B; H; Wd; C] -> B <> 1%nat ->
  shape (l2norm tf x) = [B] /\
  forall b,
    elem (l2norm tf x) [b] =
    tf_sqrt tf
      (sum_upto H (fun h =>
         sum_upto Wd (fun w =>
           sum_upto C (fun c =>
             elem x [b; h; w; c] * elem x [b; h; w; c])))).
Proof.
  intros Hs HB. unfold l2norm, tf_squeeze, tf_reduce_sum, tf_square, tf_map.
  cbn [fold_right reduce_sum_axis shape elem]. rewrite Hs.
  cbn [remove_at take drop app nth].
  rewrite filter_cons, filter_nil.
  destruct (decide (B <> 1%nat)); [| contradiction].
  split; [reflexivity |].
  intros b. cbn [unsqueeze_index]. 
  destruct (Nat.eqb_spec B 1); [contradiction |]. reflexivity.
Qed.

Lemma l2norm_per_sample_witness :
  shape (l2norm (Demo.linear_backend Demo.fake_images) Demo.real_images)
  = [2%nat].
Proof.
  apply (l2norm_per_sample (Demo.linear_backend Demo.fake_images)
           Demo.real_images 2 2 2 1); [reflexivity | discriminate].
Defined.

(** ** The interpolates (lines 177-183 and 280-285) *)

Lemma G_interpolate_formula tf cfg fd H Wd C :
  shape (inputs fd) = [batch_size cfg; H; Wd; C] ->
  shape (G tf fd) = [batch_size cfg; H; Wd; C] ->
  exists t,
    G_interpolate tf cfg fd = Ok t /\
    shape t = [batch_size cfg; H; Wd; C] /\
    forall b h w c, in_range [b; h; w; c] [batch_size cfg; H; Wd; C] ->
      elem t [b; h; w; c] =
      alpha_penalized fd [b; O; O; O] * elem (inputs fd) [b; h; w; c]
      + (1 - alpha_penalized fd [b; O; O; O]) * elem (G tf fd) [b; h; w; c].
Proof.
  intros Hx Hg.
  unfold G_interpolate, interpolate, tf_mul, tf_sub, tf_add, tf_binop.
  cbn [shape tf_random_uniform scalar].
  rewrite Hx, Hg, broadcast_shape_sample, broadcast_shape_scalar_l.
  cbn [shaped rbind shape]. rewrite broadcast_shape_sample.
  cbn [shaped rbind shape]. rewrite broadcast_shape_refl.
  cbn [shaped rbind shape].
  eexists. split; [reflexivity |]. split; [reflexivity |].
  intros b h w c Hr. cbn [elem].
  rewrite !(operand_index_full _ _ _ _ _ _ _ _ Hr).
  assert (Hb : (b < batch_size cfg)%nat).
  { unfold in_range in Hr. apply Forall2_cons_1 in Hr. tauto. }
  rewrite !operand_index_sample by assumption.
  reflexivity.
Qed.

(** X5.  With real and generated images of one shape
    [batch_size, H, W, C], the interpolate built for penalized_wgan has that
    shape and mixes every element of sample [b] with the one coefficient
    [alpha[b]]: it is the generated image where the coefficient is 0 and the
    real image where it is 1. *)
Theorem G_interpolate_mixes_per_sample tf cfg fd H Wd C :
  shape (inputs fd) = [batch_size cfg; H; Wd; C] ->
  shape (G tf fd) = [batch_size cfg; H; Wd; C] ->
  exists t,
    G_interpolate tf cfg fd = Ok t /\
    shape t = [batch_size cfg; H; Wd; C] /\
    forall b h w c, in_range [b; h; w; c] [batch_size cfg; H; Wd; C] ->
      let a := alpha_penalized fd [b; O; O; O] in
      let x := elem (inputs fd) [b; h; w; c] in
      let g := elem (G tf fd) [b; h; w; c] in
      elem t [b; h; w; c] = a * x + (1 - a) * g /\
      (a == 0 -> elem t [b; h; w; c] == g) /\
      (a == 1 -> elem t [b; h; w; c] == x).
Proof.
  intros Hx Hg.
  destruct (G_interpolate_formula tf cfg fd H Wd C Hx Hg) as (t & Ht & Hs & He).
  exists t. split; [assumption |]. split; [assumption |].
  intros b h w c Hr a x g. specialize (He b h w c Hr). fold a x g in He.
  split; [assumption |]. rewrite He.
  split; intros Ha; rewrite Ha; ring.
Qed.

Lemma G_interpolate_mixes_per_sample_witness :
  exists t,
    G_interpolate (Demo.linear_backend Demo.fake_images)
      (Demo.small_config "penalized_wgan") Demo.small_feed = Ok t /\
    shape t = [2; 2; 2; 1]%nat /\
    elem t [1; 0; 1; 0]%nat
    = (3 # 4) / 100 * 1 + (1 - (3 # 4) / 100) * 0.
Proof.
  destruct (G_interpolate_mixes_per_sample
              (Demo.linear_backend Demo.fake_images)
              (Demo.small_config "penalized_wgan") Demo.small_feed 2 2 1
              eq_refl eq_refl) as (t & Ht & Hs & He).
  exists t. split; [exact Ht |]. split; [exact Hs |].
  apply (He 1 0 1 0)%nat. unfold in_range. cbn. repeat constructor.
Defined.

Lemma scalar_times_mean_ok q t :
  exists r, tf_mul (scalar q) t = Some r.
Proof.
  unfold tf_mul, tf_binop. cbn [shape scalar].
  rewrite broadcast_shape_scalar_l. eauto.
Qed.

(** X6.  improved_wgan cannot be built unless the batch size equals the
    width of the images (or one of the two is 1): with images of shape
    [batch_size, H, W, C] and [batch_size] different from [W], the product
    [alpha * inputs] of line 285 does not broadcast and the construction of
    the losses raises [ValueError]. *)
Theorem improved_wgan_needs_matching_width tf cfg fd H Wd C :
  gan_method cfg = "improved_wgan" ->
  batch_size cfg <> Wd -> batch_size cfg <> 1%nat -> Wd <> 1%nat ->
  shape (inputs fd) = [batch_size cfg; H; Wd; C] ->
  shape (G tf fd) = [batch_size cfg; H; Wd; C] ->
  build_losses tf cfg fd = Raise ValueError.
Proof.
  intros Hm H1 H2 H3 Hx Hg. unfold build_losses.
  destruct (G_interpolate_formula tf cfg fd H Wd C Hx Hg) as (t & Ht & _).
  rewrite Ht, Hm. cbn [rbind String.eqb when].
  change (("improved_wgan" =? "penalized_wgan")%string) with false.
  change (("improved_wgan" =? "improved_wgan")%string) with true.
  cbn [when rbind]. unfold improved_wgan_losses.
  destruct (scalar_times_mean_ok (-1) (tf_reduce_mean (D_logits_real tf fd)))
    as (r1 & ->).
  destruct (scalar_times_mean_ok (-1) (tf_reduce_mean (D_logits_fake tf fd)))
    as (r2 & ->).
  cbn [shaped rbind].
  now rewrite (interpolates_rejected tf cfg fd H Wd C H1 H2 H3 Hx).
Qed.

Lemma improved_wgan_needs_matching_width_witness :
  let cfg := {| batch_size := 2; sample_num := 2;
                output_height := 3; output_width := 3;
                y_dim := None; z_dim := 1; c_dim := 1;
                gan_method := "improved_wgan";
                lipschitz_penalty := 1 # 10; gradient_penalty := 1 # 10;
                optimize_penalty := false; calculate_slope := true;
                discriminator_batch_norm := true; counter_start := 0;
                fid_n_samples := 10000; fid_sample_batchsize := 5000;
                fid_batch_size := 500; num_discriminator_updates := 1;
                load_checkpoint := false |} in
  let images := tf_zeros [2; 3; 3; 1]%nat in
  let fd := {| inputs := images; z := tf_zeros [2; 1]%nat;
               alpha_penalized := fun _ => 0; alpha_improved := fun _ => 0 |} in
  build_losses (Demo.linear_backend images) cfg fd = Raise ValueError.
Proof.
  intros cfg images fd.
  apply (improved_wgan_needs_matching_width (Demo.linear_backend images) cfg fd
           3 3 1); try reflexivity; discriminate.
Defined.

(** ** The combined losses (lines 202-307 and 342-345) *)

Lemma add_value a b r : tf_add a b = Some r -> value r = value a + value b.
Proof.
  unfold tf_add, tf_binop.
  destruct (broadcast_shape (shape a) (shape b)); [| discriminate].
  intros [= <-]. unfold value. cbn [elem]. now rewrite !operand_index_nil.
Qed.

Lemma sub_value a b r : tf_sub a b = Some r -> value r = value a - value b.
Proof.
  unfold tf_sub, tf_binop.
  destruct (broadcast_shape (shape a) (shape b)); [| discriminate].
  intros [= <-]. unfold value. cbn [elem]. now rewrite !operand_index_nil.
Qed.

Lemma getattr_inv o t : getattr o = Ok t -> o = Some t.
Proof. destruct o; simpl; congruence. Qed.

Lemma build_losses_inv tf cfg fd l :
  build_losses tf cfg fd = Ok l ->
  exists l1 l2,
    when (String.eqb (gan_method cfg) "penalized_wgan")
         (penalized_wgan_losses tf cfg fd) (initial_losses) = Ok l1 /\
    when (String.eqb (gan_method cfg) "improved_wgan")
         (improved_wgan_losses tf cfg fd) l1 = Ok l2 /\
    when (String.eqb (gan_method cfg) "regular_gan")
         (regular_gan_losses tf fd) l2 = Ok l.
Proof.
  unfold build_losses. intros Hl.
  apply rbind_ok_inv in Hl. destruct Hl as (Gi & _ & Hl).
  apply rbind_ok_inv in Hl. destruct Hl as (l1 & H1 & Hl).
  apply rbind_ok_inv in Hl. destruct Hl as (l2 & H2 & H3).
  eauto.
Qed.

Lemma regular_gan_penalties tf cfg fd l :
  gan_method cfg = "regular_gan" ->
  build_losses tf cfg fd = Ok l ->
  value (d_lipschitz_penalty_loss l) = 0 /\
  value (d_gradient_penalty_loss l) = 0.
Proof.
  intros Hm Hl. apply build_losses_inv in Hl.
  destruct Hl as (l1 & l2 & H1 & H2 & H3). rewrite Hm in H1, H2, H3.
  change (("regular_gan" =? "penalized_wgan")%string) with false in H1.
  change (("regular_gan" =? "improved_wgan")%string) with false in H2.
  change (("regular_gan" =? "regular_gan")%string) with true in H3.
  cbn [when] in H1, H2, H3. injection H1 as <-. injection H2 as <-.
  apply regular_gan_keeps in H3. destruct H3 as (-> & -> & _). auto.
Qed.

(** X8.  Under regular_gan the penalties play no part: the discriminator's
    loss is the sum of the real and the fake cross entropy, and the
    generator's objective is its loss whether or not [optimize_penalty] is
    set. *)
Theorem regular_gan_ignores_penalties tf cfg fd l :
  gan_method cfg = "regular_gan" ->
  build_losses tf cfg fd = Ok l ->
  (forall t, d_loss l = Ok t ->
     exists real fake,
       d_loss_real l = Some real /\ d_loss_fake l = Some fake /\
       value t == value real + value fake) /\
  (forall t, g_objective cfg l = Ok t ->
     exists g, g_loss l = Some g /\ value t == value g).
Proof.
  intros Hm Hl.
  destruct (regular_gan_penalties tf cfg fd l Hm Hl) as [Hlip Hgrad].
  split.
  - intros t Hd. unfold d_loss in Hd.
    apply rbind_ok_inv in Hd. destruct Hd as (real & Hr & Hd).
    apply rbind_ok_inv in Hd. destruct Hd as (fake & Hf & Hd).
    apply rbind_ok_inv in Hd. destruct Hd as (s1 & H1 & Hd).
    apply rbind_ok_inv in Hd. destruct Hd as (s2 & H2 & Hd).
    apply shaped_ok_inv in H1, H2, Hd. apply getattr_inv in Hr, Hf.
    exists real, fake. split; [assumption |]. split; [assumption |].
    rewrite (add_value _ _ _ Hd), (add_value _ _ _ H2), (add_value _ _ _ H1).
    rewrite Hlip, Hgrad. ring.
  - intros t Hg. unfold g_objective in Hg.
    apply rbind_ok_inv in Hg. destruct Hg as (g & Hgl & Hg).
    apply getattr_inv in Hgl. exists g. split; [assumption |].
    destruct (optimize_penalty cfg).
    + apply rbind_ok_inv in Hg. destruct Hg as (s1 & H1 & Hg).
      apply shaped_ok_inv in H1, Hg.
      rewrite (sub_value _ _ _ Hg), (sub_value _ _ _ H1), Hlip, Hgrad. ring.
    + injection Hg as <-. reflexivity.
Qed.

Lemma regular_gan_ignores_penalties_witness :
  exists l t g,
    build_losses (Demo.linear_backend Demo.fake_images)
      (Demo.small_config "regular_gan") Demo.small_feed = Ok l /\
    g_objective (Demo.small_config "regular_gan") l = Ok t /\
    g_loss l = Some g /\ value t == value g.
Proof.
  eassert (Hl : build_losses (Demo.linear_backend Demo.fake_images)
                  (Demo.small_config "regular_gan") Demo.small_feed = Ok _)
    by reflexivity.
  match type of Hl with
  | _ = Ok ?l =>
      eassert (Hg : g_objective (Demo.small_config "regular_gan") l = Ok _)
        by reflexivity
  end.
  destruct (regular_gan_ignores_penalties
              (Demo.linear_backend Demo.fake_images)
              (Demo.small_config "regular_gan") Demo.small_feed _ eq_refl Hl)
    as [_ Hobj].
  destruct (Hobj _ Hg) as (g & Hgl & Hv).
  eexists. eexists. exists g. split; [exact Hl |]. split; [exact Hg |].
  split; [exact Hgl | exact Hv].
Defined.

Lemma penalized_wgan_fake_and_generator tf cfg fd l0 l :
  penalized_wgan_losses tf cfg fd l0 = Ok l ->
  exists fake g,
    d_loss_fake l = Some fake /\ g_loss l = Some g /\
    value g = -1 * value fake.
Proof.
  unfold penalized_wgan_losses. intros Hl.
  apply rbind_ok_inv in Hl. destruct Hl as (Gi & _ & Hl).
  apply rbind_ok_inv in Hl. destruct Hl as (loss_real & _ & Hl).
  apply rbind_ok_inv in Hl. destruct Hl as (loss_g & Hg & Hl).
  apply shaped_ok_inv in Hg.
  invert_binds Hl. injection Hl as <-. cbn [d_loss_fake g_loss].
  eexists. eexists. split; [reflexivity |]. split; [reflexivity |].
  now apply scaled_value.
Qed.

Lemma improved_wgan_fake_and_generator tf cfg fd l0 l :
  improved_wgan_losses tf cfg fd l0 = Ok l ->
  exists fake g,
    d_loss_fake l = Some fake /\ g_loss l = Some g /\
    value g = -1 * value fake.
Proof.
  unfold improved_wgan_losses. intros Hl.
  apply rbind_ok_inv in Hl. destruct Hl as (loss_real & _ & Hl).
  apply rbind_ok_inv in Hl. destruct Hl as (loss_g & Hg & Hl).
  apply shaped_ok_inv in Hg.
  invert_binds Hl. injection Hl as <-. cbn [d_loss_fake g_loss].
  eexists. eexists. split; [reflexivity |]. split; [reflexivity |].
  now apply scaled_value.
Qed.

(** X9.  In both Wasserstein methods the generator's loss is the negative
    of the discriminator's fake loss (the mean logit of the interpolate for
    penalized_wgan, of the generated images for improved_wgan). *)
Theorem wasserstein_generator_loss tf cfg fd l :
  gan_method cfg = "penalized_wgan" \/ gan_method cfg = "improved_wgan" ->
  build_losses tf cfg fd = Ok l ->
  exists fake g,
    d_loss_fake l = Some fake /\ g_loss l = Some g /\
    value g == - value fake.
Proof.
  intros Hm Hl. apply build_losses_inv in Hl.
  destruct Hl as (l1 & l2 & H1 & H2 & H3).
  destruct Hm as [Hm | Hm]; rewrite Hm in H1, H2, H3.
  - change (("penalized_wgan" =? "penalized_wgan")%string) with true in H1.
    change (("penalized_wgan" =? "improved_wgan")%string) with false in H2.
    change (("penalized_wgan" =? "regular_gan")%string) with false in H3.
    cbn [when] in H1, H2, H3. injection H2 as <-. injection H3 as <-.
    destruct (penalized_wgan_fake_and_generator _ _ _ _ _ H1)
      as (fake & g & Hf & Hg & Hv).
    exists fake, g. split; [assumption |]. split; [assumption |].
    rewrite Hv. ring.
  - change (("improved_wgan" =? "penalized_wgan")%string) with false in H1.
    change (("improved_wgan" =? "improved_wgan")%string) with true in H2.
    change (("improved_wgan" =? "regular_gan")%string) with false in H3.
    cbn [when] in H1, H2, H3. injection H1 as <-. injection H3 as <-.
    destruct (improved_wgan_fake_and_generator _ _ _ _ _ H2)
      as (fake & g & Hf & Hg & Hv).
    exists fake, g. split; [assumption |]. split; [assumption |].
    rewrite Hv. ring.
Qed.

Lemma wasserstein_generator_loss_witness :
  exists l fake g,
    build_losses (Demo.linear_backend Demo.fake_images)
      (Demo.small_config "improved_wgan") Demo.small_feed = Ok l /\
    d_loss_fake l = Some fake /\ g_loss l = Some g /\
    value g == - value fake.
Proof.
  eexists.
  eassert (Hl : build_losses (Demo.linear_backend Demo.fake_images)
                  (Demo.small_config "improved_wgan") Demo.small_feed = Ok _)
    by reflexivity.
  destruct (wasserstein_generator_loss
              (Demo.linear_backend Demo.fake_images)
              (Demo.small_config "improved_wgan") Demo.small_feed _
              (or_intror eq_refl) Hl)
    as (fake & g & Hf & Hg & Hv).
  exists fake, g. split; [exact Hl |]. split; [exact Hf |].
  split; [exact Hg | exact Hv].
Defined.

(** ** The target slope of penalized_wgan (lines 225-270) *)

Lemma maximum_value a b r :
  tf_maximum a b = Some r -> value r = Qmax (value a) (value b).
Proof.
  unfold tf_maximum, tf_binop.
  destruct (broadcast_shape (shape a) (shape b)); [| discriminate].
  intros [= <-]. unfold value. cbn [elem]. now rewrite !operand_index_nil.
Qed.

Lemma map_function_nonneg tf cfg fd Gi Di i t :
  map_function tf cfg fd Gi Di i = Ok t -> 0 <= value t.
Proof.
  unfold map_function. intros Hm. invert_binds Hm.
  apply shaped_ok_inv in Hm. rewrite (maximum_value _ _ _ Hm).
  apply Q.le_max_l.
Qed.

Lemma map_fn_forall (P : Q -> Prop) f n l :
  (forall i t, f i = Ok t -> P (value t)) ->
  map_fn f n = Ok l -> List.Forall P l /\ length l = n.
Proof.
  intros Hf. revert l. induction n as [| n IH]; intros l; cbn [map_fn].
  - intros [= <-]. split; [constructor | reflexivity].
  - intros Hl. apply rbind_ok_inv in Hl. destruct Hl as (front & Hfront & Hl).
    apply rbind_ok_inv in Hl. destruct Hl as (last & Hlast & Hl).
    injection Hl as <-. destruct (IH _ Hfront) as [Hall Hlen]. split.
    + apply Forall_app. split; [assumption |].
      constructor; [now apply (Hf n) | constructor].
    + rewrite length_app, Hlen. simpl. lia.
Qed.

Lemma sum_upto_nonneg n f : (forall i, 0 <= f i) -> 0 <= sum_upto n f.
Proof.
  intros Hf. induction n as [| n IH]; simpl; [apply Qle_refl |].
  specialize (Hf n). lra.
Qed.

Lemma nth_nonneg (l : list Q) i : List.Forall (Qle 0) l -> 0 <= nth i l 0.
Proof.
  intros Hl. revert i. induction Hl as [| x l Hx Hl IH]; intros [| i]; simpl;
    try apply Qle_refl; auto.
Qed.

Lemma mean_of_stack_nonneg (l : list Q) :
  List.Forall (Qle 0) l -> 0 <= value (tf_reduce_mean (stack l)).
Proof.
  intros Hl. rewrite (mean_of_vector (stack l) (length l)) by reflexivity.
  unfold Qdiv. apply Qmult_le_0_compat.
  - apply sum_upto_nonneg. intros i. cbn [stack elem nth]. now apply nth_nonneg.
  - apply Qinv_le_0_compat. change 0 with (inject_Z 0).
    rewrite <- Zle_Qle. lia.
Qed.

(** X10.  With [calculate_slope] set, the analytic target slope of every
    sample is floored at 0, and so the mean target slope that is reported is
    never negative, whatever the method. *)
Theorem target_slope_never_negative tf cfg fd :
  calculate_slope cfg = true ->
  (forall Gi Di i t, map_function tf cfg fd Gi Di i = Ok t -> 0 <= value t) /\
  (forall l, build_losses tf cfg fd = Ok l ->
             0 <= value (d_mean_slope_target l)).
Proof.
  intros Hc. split; [intros Gi Di i t; apply map_function_nonneg |].
  intros l Hl. apply build_losses_inv in Hl.
  destruct Hl as (l1 & l2 & H1 & H2 & H3).
  assert (A1 : 0 <= value (d_mean_slope_target l1)).
  { destruct (String.eqb (gan_method cfg) "penalized_wgan"); cbn [when] in H1.
    - unfold penalized_wgan_losses in H1.
      do 8 (apply rbind_ok_inv in H1; destruct H1 as (? & ? & H1)).
      rewrite Hc in H1.
      apply rbind_ok_inv in H1. destruct H1 as (target & Ht & H1).
      apply rbind_ok_inv in Ht. destruct Ht as (targets & Hts & Ht).
      injection Ht as <-.
      invert_binds H1. injection H1 as <-. cbn [d_mean_slope_target].
      apply mean_of_stack_nonneg.
      eapply (map_fn_forall (Qle 0)); [| exact Hts].
      intros i t. apply map_function_nonneg.
    - injection H1 as <-. apply Qle_refl. }
  assert (A2 : d_mean_slope_target l2 = d_mean_slope_target l1).
  { destruct (String.eqb (gan_method cfg) "improved_wgan"); cbn [when] in H2.
    - apply improved_wgan_keeps in H2. tauto.
    - now injection H2 as <-. }
  assert (A3 : d_mean_slope_target l = d_mean_slope_target l2).
  { destruct (String.eqb (gan_method cfg) "regular_gan"); cbn [when] in H3.
    - apply regular_gan_keeps in H3. tauto.
    - now injection H3 as <-. }
  now rewrite A3, A2.
Qed.

Lemma target_slope_never_negative_witness :
  exists l,
    build_losses (Demo.linear_backend Demo.fake_images)
      (Demo.small_config "penalized_wgan") Demo.small_feed = Ok l /\
    0 <= value (d_mean_slope_target l).
Proof.
  assert (H0 : is_ok (build_losses (Demo.linear_backend Demo.fake_images)
                        (Demo.small_config "penalized_wgan") Demo.small_feed)
               = true) by (vm_compute; reflexivity).
  destruct (build_losses (Demo.linear_backend Demo.fake_images)
              (Demo.small_config "penalized_wgan") Demo.small_feed)
    as [l | e] eqn:Hb; [| discriminate].
  exists l. split; [reflexivity |].
  exact (proj2 (target_slope_never_negative
                  (Demo.linear_backend Demo.fake_images)
                  (Demo.small_config "penalized_wgan") Demo.small_feed
                  eq_refl) l Hb).
Defined.

Lemma interpolate_error alpha x g e :
  interpolate alpha x g = Raise e -> e = ValueError.
Proof.
  unfold interpolate.
  destruct (tf_mul alpha x); cbn [shaped rbind]; [| congruence].
  destruct (tf_sub (scalar 1) alpha); cbn [shaped rbind]; [| congruence].
  destruct (tf_mul _ g); cbn [shaped rbind]; [| congruence].
  destruct (tf_add _ _); cbn [shaped]; congruence.
Qed.

Lemma guarded_div_error num top bot e :
  guarded_div num top bot = Raise e -> e = ValueError.
Proof.
  unfold guarded_div.
  destruct (tf_mul _ _); cbn [shaped rbind]; [| congruence].
  destruct (tf_less _ _); cbn [shaped rbind]; [| congruence].
  destruct (tf_div _ _); cbn [shaped rbind]; congruence.
Qed.

(** X11.  penalized_wgan with the constant target slope
    ([calculate_slope] unset) and [lipschitz_penalty = 0], which [__init__]
    accepts, cannot be built: [1. / (2. * lipschitz_penalty)] of line 265
    raises [ZeroDivisionError], unless the shapes are rejected before. *)
Theorem constant_slope_needs_positive_weight tf cfg fd l0 :
  calculate_slope cfg = false ->
  lipschitz_penalty cfg == 0 ->
  penalized_wgan_losses tf cfg fd l0 = Raise ZeroDivisionError \/
  penalized_wgan_losses tf cfg fd l0 = Raise ValueError.
Proof.
  intros Hc Hz. unfold penalized_wgan_losses.
  destruct (G_interpolate tf cfg fd) as [Gi | e] eqn:HG; cbn [rbind];
    [| right; f_equal; now apply (interpolate_error _ _ _ _ HG)].
  destruct (tf_mul (scalar (-1)) (tf_reduce_mean (D_logits_real tf fd)));
    cbn [shaped rbind]; [| now right].
  destruct (tf_mul (scalar (-1)) (tf_reduce_mean (snd (discriminator tf Gi))));
    cbn [shaped rbind]; [| now right].
  destruct (tf_sub (D_logits_real tf fd) (snd (discriminator tf Gi)));
    cbn [shaped rbind]; [| now right].
  destruct (tf_sub (inputs fd) Gi); cbn [shaped rbind]; [| now right].
  destruct (guarded_div (tf_square _) _ _) as [dp | e] eqn:H1; cbn [rbind];
    [| right; f_equal; now apply (guarded_div_error _ _ _ _ H1)].
  destruct (guarded_div _ _ _) as [est | e] eqn:H2 in |- *; cbn [rbind];
    [| right; f_equal; now apply (guarded_div_error _ _ _ _ H2)].
  destruct (tf_mul (scalar (lipschitz_penalty cfg)) _);
    cbn [shaped rbind]; [| now right].
  rewrite Hc. unfold py_truediv.
  assert (Hq : Qeq_bool (2 * lipschitz_penalty cfg) 0 = true).
  { apply Qeq_bool_iff. rewrite Hz. reflexivity. }
  rewrite Hq. cbn [rbind]. now left.
Qed.

Lemma constant_slope_needs_positive_weight_witness :
  let cfg := {| batch_size := 2; sample_num := 2;
                output_height := 2; output_width := 2;
                y_dim := None; z_dim := 1; c_dim := 1;
                gan_method := "penalized_wgan";
                lipschitz_penalty := 0; gradient_penalty := 1 # 10;
                optimize_penalty := false; calculate_slope := false;
                discriminator_batch_norm := true; counter_start := 0;
                fid_n_samples := 10000; fid_sample_batchsize := 5000;
                fid_batch_size := 500; num_discriminator_updates := 1;
                load_checkpoint := false |} in
  build_losses (Demo.linear_backend Demo.fake_images) cfg Demo.small_feed
  = Raise ZeroDivisionError.
Proof.
  intros cfg.
  destruct (constant_slope_needs_positive_weight
              (Demo.linear_backend Demo.fake_images) cfg Demo.small_feed
              initial_losses eq_refl ltac:(reflexivity)) as [Hz | Hv].
  - unfold build_losses.
    assert (HG : is_ok (G_interpolate (Demo.linear_backend Demo.fake_images)
                          cfg Demo.small_feed) = true)
      by (vm_compute; reflexivity).
    destruct (G_interpolate _ _ _); [| discriminate HG].
    cbn [rbind]. change (String.eqb (gan_method cfg) "penalized_wgan") with true.
    cbn [when]. rewrite Hz. reflexivity.
  - exfalso.
    assert (Hn : match penalized_wgan_losses
                         (Demo.linear_backend Demo.fake_images) cfg
                         Demo.small_feed initial_losses with
                 | Raise ValueError => false
                 | _ => true
                 end = true) by (vm_compute; reflexivity).
    rewrite Hv in Hn. discriminate Hn.
Defined.

(** X12.  penalized_wgan with the constant target slope and a nonzero
    [lipschitz_penalty]: the mean target slope that is reported is
    [1 / (2 * lipschitz_penalty)]. *)
Theorem constant_slope_target tf cfg fd l0 l :
  calculate_slope cfg = false ->
  penalized_wgan_losses tf cfg fd l0 = Ok l ->
  ~ lipschitz_penalty cfg == 0 /\
  value (d_mean_slope_target l) == 1 / (2 * lipschitz_penalty cfg).
Proof.
  intros Hc Hl. unfold penalized_wgan_losses in Hl.
  do 8 (apply rbind_ok_inv in Hl; destruct Hl as (? & ? & Hl)).
  rewrite Hc in Hl.
  apply rbind_ok_inv in Hl. destruct Hl as (target & Ht & Hl).
  apply rbind_ok_inv in Ht. destruct Ht as (q & Hq & Ht).
  injection Ht as <-. unfold py_truediv in Hq.
  destruct (Qeq_bool (2 * lipschitz_penalty cfg) 0) eqn:Hz; [discriminate |].
  injection Hq as <-.
  invert_binds Hl. injection Hl as <-. cbn [d_mean_slope_target].
  split.
  - intros Hzero. apply Qeq_bool_neq in Hz. apply Hz. rewrite Hzero. reflexivity.
  - unfold value, tf_reduce_mean, tf_map, scalar. cbn. field.
    intros Hzero. apply Qeq_bool_neq in Hz. apply Hz. rewrite Hzero. reflexivity.
Qed.

Lemma constant_slope_target_witness :
  let cfg := {| batch_size := 2; sample_num := 2;
                output_height := 2; output_width := 2;
                y_dim := None; z_dim := 1; c_dim := 1;
                gan_method := "penalized_wgan";
                lipschitz_penalty := 1 # 10; gradient_penalty := 1 # 10;
                optimize_penalty := false; calculate_slope := false;
                discriminator_batch_norm := true; counter_start := 0;
                fid_n_samples := 10000; fid_sample_batchsize := 5000;
                fid_batch_size := 500; num_discriminator_updates := 1;
                load_checkpoint := false |} in
  exists l,
    penalized_wgan_losses (Demo.linear_backend Demo.fake_images) cfg
      Demo.small_feed initial_losses = Ok l /\
    value (d_mean_slope_target l) == 5.
Proof.
  intros cfg.
  assert (H0 : is_ok (penalized_wgan_losses
                        (Demo.linear_backend Demo.fake_images) cfg
                        Demo.small_feed initial_losses) = true)
    by (vm_compute; reflexivity).
  destruct (penalized_wgan_losses (Demo.linear_backend Demo.fake_images) cfg
              Demo.small_feed initial_losses) as [l | e] eqn:Hl;
    [| discriminate H0].
  exists l. split; [reflexivity |].
  destruct (constant_slope_target (Demo.linear_backend Demo.fake_images) cfg
              Demo.small_feed initial_losses l eq_refl Hl) as [_ Hv].
  rewrite Hv. reflexivity.
Defined.

(** ** More on construction (lines 68-72, 135-137, 147-167, 371-377) *)





Lemma Qle_bool_true x y : x <= y -> Qle_bool x y = true.
Proof. apply Qle_bool_iff. Qed.

(** X14.  [__init__] rejects nothing else: with non-negative penalty
    weights, one of the three methods and at least one discriminator update,
    it prints, runs [build_model], prints again and returns the model. *)
Theorem valid_configuration_accepted W (env : environment W) tf cfg fd
    (s : state W) :
  0 <= lipschitz_penalty cfg ->
  0 <= gradient_penalty cfg ->
  In (gan_method cfg) ["penalized_wgan"; "improved_wgan"; "regular_gan"] ->
  (1 <= num_discriminator_updates cfg)%Z ->
  __init__ W env tf cfg fd s =
  bind (print MsgBuildModel) (fun _ =>
  bind (build_model W env tf cfg fd) (fun self =>
  bind (print MsgOk) (fun _ => ret self))) s.
Proof.
  intros Hl Hg Hm Hk. unfold __init__.
  rewrite (Qle_bool_true _ _ Hl), (Qle_bool_true _ _ Hg).
  apply string_in_spec in Hm. unfold gan_methods. rewrite Hm.
  apply Z.leb_le in Hk. rewrite Hk. reflexivity.
Qed.

Lemma valid_configuration_accepted_witness :
  exists self s',
    __init__ nat Demo.quiet (Demo.linear_backend Demo.fake_images)
      (Demo.small_config "regular_gan") Demo.small_feed Demo.start
    = (Ok self, s') /\
    trace s' = [Print MsgBuildModel; GetLoader; InitVariables;
                StartQueueRunners; Print (MsgFidWarning 10000 9000);
                Print MsgOk].
Proof.
  rewrite (valid_configuration_accepted nat Demo.quiet
             (Demo.linear_backend Demo.fake_images)
             (Demo.small_config "regular_gan") Demo.small_feed Demo.start);
    [| vm_compute; discriminate | vm_compute; discriminate
     | cbn; tauto | vm_compute; discriminate].
  assert (Hok : is_ok (fst (build_model nat Demo.quiet
                              (Demo.linear_backend Demo.fake_images)
                              (Demo.small_config "regular_gan")
                              Demo.small_feed
                              (snd (print MsgBuildModel Demo.start)))) = true)
    by (vm_compute; reflexivity).
  assert (Ht : trace (snd (build_model nat Demo.quiet
                             (Demo.linear_backend Demo.fake_images)
                             (Demo.small_config "regular_gan")
                             Demo.small_feed
                             (snd (print MsgBuildModel Demo.start))))
               = [Print MsgBuildModel; GetLoader; InitVariables;
                  StartQueueRunners; Print (MsgFidWarning 10000 9000)])
    by (vm_compute; reflexivity).
  unfold bind at 1. cbn [print]. unfold bind at 1.
  cbn [print snd] in Hok, Ht.
  destruct (build_model _ _ _ _ _ _) as [[self | e] s1];
    [| discriminate Hok].
  cbn [snd] in Ht. exists self. eexists. split; [reflexivity |].
  cbn [trace]. now rewrite Ht.
Defined.

Lemma build_model_ok_inv W (env : environment W) tf cfg fd (s : state W)
    self s' :
  build_model W env tf cfg fd s = (Ok self, s') ->
  fid_sample_batchsize cfg <> 0%Z /\
  self_config self = cfg /\
  self_paths self = paths env (advance env GetLoader (world s)) /\
  self_fid_n_samples self =
    (if (fid_n_samples cfg mod fid_sample_batchsize cfg =? 0)%Z
     then fid_n_samples cfg
     else fid_n_samples cfg / fid_sample_batchsize cfg
          * fid_sample_batchsize cfg)%Z.
Proof.
  intros Hrun. unfold build_model in Hrun.
  apply bind_ok_inv in Hrun. destruct Hrun as ([] & s1 & H1 & Hrun).
  apply call_inv in H1. destruct H1 as (_ & _ & Hw1 & _).
  apply bind_ok_inv in Hrun. destruct Hrun as (n_paths & s2 & H2 & Hrun).
  unfold ask in H2. injection H2 as <- <-.
  do 3 (apply bind_ok_inv in Hrun; destruct Hrun as ([] & sz & Hz & Hrun);
        assert (sz = s1) by (unfold lift in Hz; congruence); subst sz;
        clear Hz).
  destruct (truthy (y_dim cfg)).
  { apply bind_ok_inv in Hrun. destruct Hrun as (? & ? & _ & [=]). }
  apply bind_ok_inv in Hrun. destruct Hrun as (? & s3 & _ & Hrun).
  apply bind_ok_inv in Hrun. destruct Hrun as ([] & s4 & _ & Hrun).
  apply bind_ok_inv in Hrun. destruct Hrun as ([] & s5 & _ & Hrun).
  apply bind_ok_inv in Hrun. destruct Hrun as (m & s6 & H6 & Hrun).
  injection Hrun as <- <-. cbn [self_fid_n_samples self_config self_paths].
  assert (Hb : fid_sample_batchsize cfg <> 0%Z).
  { intros Hb. unfold adjust_fid_n_samples, bind, lift, py_mod in H6.
    rewrite Hb in H6. discriminate. }
  rewrite (adjust_fid_n_samples_spec W _ _ s5 Hb) in H6.
  split; [exact Hb |]. split; [reflexivity |]. split; [now rewrite Hw1 |].
  destruct (_ =? 0)%Z; now injection H6 as <- _.
Qed.

(** X15.  After a construction that succeeds, [fid_n_samples] is a multiple
    of [fid_sample_batchsize]: the [fid_n_samples // fid_sample_batchsize]
    sub-batches of an FID evaluation fill the sample array exactly. *)
Theorem fid_batches_fill_the_array W (env : environment W) tf cfg fd
    (s : state W) self s' :
  build_model W env tf cfg fd s = (Ok self, s') ->
  let b := fid_sample_batchsize (self_config self) in
  (self_fid_n_samples self mod b = 0)%Z /\
  exists n_batches,
    py_floordiv (self_fid_n_samples self) b = Ok n_batches /\
    (n_batches * b = self_fid_n_samples self)%Z /\
    (n_batches = fid_n_samples cfg / fid_sample_batchsize cfg)%Z.
Proof.
  intros Hrun b.
  destruct (build_model_ok_inv W env tf cfg fd s self s' Hrun)
    as (Hb & Hcfg & _ & Hn).
  subst b. rewrite Hcfg.
  set (b := fid_sample_batchsize cfg) in *. set (n := fid_n_samples cfg) in *.
  assert (Hmod : (self_fid_n_samples self mod b = 0)%Z).
  { rewrite Hn. destruct (Z.eqb_spec (n mod b) 0); [assumption |].
    now apply Z.mod_mul. }
  split; [exact Hmod |].
  exists (n / b)%Z. unfold py_floordiv.
  destruct (Z.eqb_spec b 0); [contradiction |].
  assert (Hq : (self_fid_n_samples self / b = n / b)%Z).
  { rewrite Hn. destruct (Z.eqb_spec (n mod b) 0); [reflexivity |].
    now apply Z.div_mul. }
  split; [now rewrite Hq |]. split; [| reflexivity].
  rewrite <- Hq. pose proof (Z.div_mod (self_fid_n_samples self) b Hb). lia.
Qed.

Lemma fid_batches_fill_the_array_witness :
  exists self s',
    build_model nat Demo.quiet (Demo.linear_backend Demo.fake_images)
      (Demo.small_config "regular_gan") Demo.small_feed Demo.start
      = (Ok self, s') /\
    (self_fid_n_samples self mod 3000 = 0)%Z.
Proof.
  assert (Hok : is_ok (fst (build_model nat Demo.quiet
                              (Demo.linear_backend Demo.fake_images)
                              (Demo.small_config "regular_gan")
                              Demo.small_feed Demo.start)) = true)
    by (vm_compute; reflexivity).
  destruct (build_model nat Demo.quiet (Demo.linear_backend Demo.fake_images)
              (Demo.small_config "regular_gan") Demo.small_feed Demo.start)
    as [[self | e] s'] eqn:Hrun; [| discriminate Hok].
  destruct (fid_batches_fill_the_array nat Demo.quiet _ _ _ _ _ _ Hrun)
    as (Hmod & _).
  destruct (build_model_ok_inv nat Demo.quiet _ _ _ _ _ _ Hrun)
    as (_ & Hcfg & _).
  rewrite Hcfg in Hmod.
  exists self, s'. split; [reflexivity | exact Hmod].
Defined.

(** ** More on the trainable variables (lines 321-324) *)

Section Cover.
Import Variables.

Variable suffixes : layer_kind -> list string.
Hypothesis suffixes_plain : forall k s, In s (suffixes k) -> plain s.

Lemma filter_all {A} (f : A -> bool) l :
  (forall x, In x l -> f x = true) -> List.filter f l = l.
Proof.
  induction l as [| x l IH]; intros Hf; [reflexivity |].
  cbn [List.filter]. rewrite (Hf x) by now left.
  f_equal. apply IH. intros y Hy. apply Hf. now right.
Qed.

Lemma filter_none {A} (f : A -> bool) l :
  (forall x, In x l -> f x = false) -> List.filter f l = [].
Proof.
  induction l as [| x l IH]; intros Hf; [reflexivity |].
  cbn [List.filter]. rewrite (Hf x) by now left.
  apply IH. intros y Hy. apply Hf. now right.
Qed.

Lemma generator_scope_marks v :
  In v (scope_variables suffixes "generator" generator_layers) ->
  contains "d_" v = false /\ contains "g_" v = true.
Proof.
  intros Hv. apply scope_variables_inv in Hv.
  destruct Hv as (layer & kind & suffix & Hl & Hs & ->).
  exact (generator_names layer kind suffix Hl (suffixes_plain _ _ Hs)).
Qed.

Lemma discriminator_scope_marks cfg v :
  In v (scope_variables suffixes "discriminator" (discriminator_layers cfg)) ->
  contains "d_" v = true /\ contains "g_" v = false.
Proof.
  intros Hv. apply scope_variables_inv in Hv.
  destruct Hv as (layer & kind & suffix & Hl & Hs & ->).
  exact (discriminator_names cfg layer kind suffix Hl (suffixes_plain _ _ Hs)).
Qed.

Lemma d_vars_are_the_discriminator cfg :
  d_vars suffixes cfg
  = scope_variables suffixes "discriminator" (discriminator_layers cfg).
Proof.
  unfold d_vars, t_vars. rewrite List.filter_app.
  rewrite filter_none by (intros v Hv; now apply generator_scope_marks).
  rewrite filter_all
    by (intros v Hv; now apply (discriminator_scope_marks cfg)).
  reflexivity.
Qed.

Lemma g_vars_are_the_generator cfg :
  g_vars suffixes cfg = scope_variables suffixes "generator" generator_layers.
Proof.
  unfold g_vars, t_vars. rewrite List.filter_app.
  rewrite filter_all by (intros v Hv; now apply generator_scope_marks).
  rewrite filter_none
    by (intros v Hv; now apply (discriminator_scope_marks cfg)).
  apply app_nil_r.
Qed.

End Cover.

(** X16.  With layer-library variable names that mention neither "d_" nor
    "g_", the name match selects exactly the variables of the two networks:
    [g_vars] are the variables created in the generator's scope, [d_vars]
    those created in the discriminator's scope, and together they are all
    the trainable variables, so none is left without an optimizer. *)
Theorem name_match_covers_all_variables
    (suffixes : Variables.layer_kind -> list string) (cfg : config) :
  (forall k s, In s (suffixes k) -> plain s) ->
  Variables.g_vars suffixes cfg
    = Variables.scope_variables suffixes "generator" Variables.generator_layers /\
  Variables.d_vars suffixes cfg
    = Variables.scope_variables suffixes "discriminator"
        (Variables.discriminator_layers cfg) /\
  Variables.t_vars suffixes cfg
    = Variables.g_vars suffixes cfg ++ Variables.d_vars suffixes cfg.
Proof.
  intros Hplain.
  rewrite (g_vars_are_the_generator suffixes Hplain cfg),
    (d_vars_are_the_discriminator suffixes Hplain cfg).
  auto.
Qed.

Lemma name_match_covers_all_variables_witness :
  Variables.t_vars Variables.ops_suffixes default_config
  = Variables.g_vars Variables.ops_suffixes default_config
    ++ Variables.d_vars Variables.ops_suffixes default_config.
Proof.
  apply (name_match_covers_all_variables Variables.ops_suffixes default_config).
  exact ops_suffixes_plain.
Defined.

(** ** The step counter (lines 400, 423-513) *)

Section Counter.
Local Open Scope effect_scope.

Context {W : Type}.
Variable env : environment W.
Variable self : dcgan.
Variable config : train_config.

Lemma kc_ret {A} c (a : A) : keeps_counter c (ret (W := W) a).
Proof. intros s r s' Hc [= <- <-]. exact Hc. Qed.

Lemma kc_lift {A} c (x : result A) : keeps_counter c (lift (W := W) x).
Proof. intros s r s' Hc [= <- <-]. exact Hc. Qed.

Lemma kc_ask {A} c (f : W -> A) : keeps_counter c (ask f).
Proof. intros s r s' Hc [= <- <-]. exact Hc. Qed.

Lemma kc_get_locals c : keeps_counter c (get_locals (W := W)).
Proof. intros s r s' Hc [= <- <-]. exact Hc. Qed.

Lemma kc_set_locals c l :
  counter l = c -> keeps_counter c (set_locals (W := W) l).
Proof. intros Hl s r s' Hc [= <- <-]. exact Hl. Qed.

Lemma kc_modify_locals c f :
  (forall l, counter (f l) = counter l) ->
  keeps_counter c (modify_locals (W := W) f).
Proof. intros Hf s r s' Hc [= <- <-]. cbn [vars]. now rewrite Hf. Qed.

Lemma kc_call c e : keeps_counter c (call env e).
Proof.
  intros s r s' Hc Hrun. apply call_inv in Hrun.
  destruct Hrun as (_ & Hv & _). now rewrite Hv.
Qed.

Lemma kc_print c m : keeps_counter c (print (W := W) m).
Proof.
  intros s r s' Hc Hrun. apply print_inv in Hrun.
  destruct Hrun as (_ & Hv & _). now rewrite Hv.
Qed.

Lemma kc_bind {A B} c (m : M W A) (k : A -> M W B) :
  keeps_counter c m -> (forall a, keeps_counter c (k a)) ->
  keeps_counter c (bind m k).
Proof.
  intros Hm Hk s r s' Hc Hrun. apply bind_inv in Hrun.
  destruct Hrun as [(e & Hrun & _) | (a & s1 & Hrun & Hrest)].
  - exact (Hm _ _ _ Hc Hrun).
  - exact (Hk a _ _ _ (Hm _ _ _ Hc Hrun) Hrest).
Qed.

Lemma kc_when c b (m : M W unit) :
  keeps_counter c m -> keeps_counter c (when_ b m).
Proof. intros Hm. destruct b; [assumption | apply kc_ret]. Qed.

Lemma kc_try_except {A} c (body : M W A) handler :
  keeps_counter c body ->
  (forall e h, handler e = Some h -> keeps_counter c h) ->
  keeps_counter c (try_except body handler).
Proof.
  intros Hb Hh s r s' Hc Hrun. unfold try_except in Hrun.
  destruct (body s) as [[a | e] s1] eqn:Hbody.
  - injection Hrun as <- <-. exact (Hb _ _ _ Hc Hbody).
  - pose proof (Hb _ _ _ Hc Hbody) as Hc1.
    destruct (handler e) as [h |] eqn:He.
    + exact (Hh e h He _ _ _ Hc1 Hrun).
    + now injection Hrun as <- <-.
Qed.

Lemma kc_for_loop c n (body : Z -> M W unit) :
  (forall i, keeps_counter c (body i)) -> keeps_counter c (for_loop n body).
Proof.
  intros Hb. induction n as [| n IH]; cbn [for_loop].
  - apply kc_ret.
  - apply kc_bind; [assumption | intros _; apply Hb].
Qed.

Ltac kc_step :=
  first
    [ apply kc_call
    | apply kc_print
    | apply kc_lift
    | apply kc_ask
    | apply kc_get_locals
    | apply kc_ret
    | apply kc_modify_locals; intros []; reflexivity
    | apply kc_set_locals; reflexivity
    | apply kc_when
    | apply kc_for_loop; intros ?
    | apply kc_try_except;
        [| intros ? ?; destruct (is_Exception _); [intros [= <-] | discriminate]]
    | apply kc_bind; [| intros ?] ].

Lemma update_D_keeps_counter c : keeps_counter c (update_D W env self).
Proof. unfold update_D, for_range. repeat kc_step. Qed.

Lemma co_bind {A B} c (m : M W A) (k : A -> M W B) :
  keeps_counter c m -> (forall a, counts_one c (k a)) ->
  counts_one c (bind m k).
Proof.
  intros Hm Hk s r s' Hc Hrun. apply bind_inv in Hrun.
  destruct Hrun as [(e & Hrun & ->) | (a & s1 & Hrun & Hrest)].
  - exact (Hm _ _ _ Hc Hrun).
  - exact (Hk a _ _ _ (Hm _ _ _ Hc Hrun) Hrest).
Qed.

Lemma finish_step_counts_one epoch_ batch_idx d c :
  counts_one c (finish_step W env self config epoch_ batch_idx d c).
Proof.
  unfold finish_step, update_G, evaluate_fid, save_samples, calculate_fid,
    for_range.
  do 6 (apply co_bind; [repeat kc_step | intros ?]).
  intros s r s' Hc [= <- <-]. reflexivity.
Qed.

Lemma step_counts_one epoch_ batch_idx c :
  counts_one c (step W env self config epoch_ batch_idx).
Proof.
  intros s r s' Hc Hrun. unfold step in Hrun. apply bind_inv in Hrun.
  destruct Hrun as [(e & Hrun & ->) | (d & s1 & Hrun & Hrest)].
  - exact (update_D_keeps_counter c _ _ _ Hc Hrun).
  - pose proof (update_D_keeps_counter c _ _ _ Hc Hrun) as Hc1.
    apply bind_inv in Hrest.
    destruct Hrest as [(e & [=] & _) | (l & s2 & [= <- <-] & Hrest)].
    rewrite Hc1 in Hrest.
    exact (finish_step_counts_one _ _ _ _ _ _ _ Hc1 Hrest).
Qed.

(** *** Counting over the loops *)

Lemma advances_keeps {A} (m : M W A) :
  (forall c, keeps_counter c m) -> advances 0 m.
Proof.
  intros Hm s r s' Hrun. rewrite (Hm _ _ _ _ eq_refl Hrun). lia.
Qed.

Lemma advances_bind {A B} d1 d2 (m : M W A) (k : A -> M W B) :
  (0 <= d1)%Z -> (0 <= d2)%Z ->
  advances d1 m -> (forall a, advances d2 (k a)) ->
  advances (d1 + d2) (bind m k).
Proof.
  intros H1 H2 Hm Hk s r s' Hrun. apply bind_inv in Hrun.
  destruct Hrun as [(e & Hrun & ->) | (a & s1 & Hrun & Hrest)].
  - destruct (Hm _ _ _ Hrun) as [_ Hb]. split; [discriminate | lia].
  - destruct (Hm _ _ _ Hrun) as [Ha _]. specialize (Ha eq_refl).
    destruct (Hk a _ _ _ Hrest) as [Hok Hb]. split.
    + intros Hr. rewrite (Hok Hr). lia.
    + lia.
Qed.

Lemma advances_for_loop d n (body : Z -> M W unit) :
  (0 <= d)%Z -> (forall i, advances d (body i)) ->
  advances (Z.of_nat n * d) (for_loop n body).
Proof.
  intros Hd Hb. induction n as [| n IH]; cbn [for_loop].
  - intros s r s' [= <- <-]. lia.
  - replace (Z.of_nat (S n) * d)%Z with (Z.of_nat n * d + d)%Z by lia.
    apply advances_bind; [nia | lia | assumption | intros _; apply Hb].
Qed.

Lemma advances_step epoch_ batch_idx :
  advances 1 (step W env self config epoch_ batch_idx).
Proof.
  intros s r s' Hrun.
  rewrite (step_counts_one _ _ _ _ _ _ eq_refl Hrun).
  destruct r; cbn [is_ok]; split; try discriminate; lia.
Qed.

Lemma advances_epochs batch_nums :
  advances (Z.of_nat (range_len (epoch config))
            * Z.of_nat (range_len batch_nums))
           (epochs W env self config batch_nums).
Proof.
  unfold epochs, for_range. apply advances_for_loop; [lia |].
  intros epoch_.
  replace (Z.of_nat (range_len batch_nums))
    with (0 + (0 + Z.of_nat (range_len batch_nums)))%Z by lia.
  apply advances_bind; [lia | lia | |].
  - apply advances_keeps. intros c. apply kc_call.
  - intros _. apply advances_bind; [lia | lia | |].
    + apply advances_keeps. intros c. apply kc_call.
    + intros _. replace (Z.of_nat (range_len batch_nums))
        with (Z.of_nat (range_len batch_nums) * 1)%Z by lia.
      apply advances_for_loop; [lia |]. intros i. apply advances_step.
Qed.

End Counter.

(** X17.  A step moves the counter on by exactly one when it completes and
    leaves it where it was when it raises, so the checkpoint written after
    an interrupt carries the number of the step that was interrupted. *)
Theorem step_counts_once W (env : environment W) self config
    epoch_ batch_idx (s : state W) :
  let r := fst (step W env self config epoch_ batch_idx s) in
  let s' := snd (step W env self config epoch_ batch_idx s) in
  counter (vars s') =
  (if is_ok r then counter (vars s) + 1 else counter (vars s))%Z.
Proof.
  intros r s'. subst r s'.
  destruct (step W env self config epoch_ batch_idx s) as [r s'] eqn:Hrun.
  exact (step_counts_one env self config _ _ _ _ _ _ eq_refl Hrun).
Qed.

(** X18.  Over the whole loop the counter never goes back; when the loop
    over the epochs completes it has moved on by the number of epochs times
    the number of batches, and when the loop is cut short by less than or
    that much. *)
Theorem epochs_advance_counter W (env : environment W) self config
    batch_nums (s : state W) :
  let r := fst (epochs W env self config batch_nums s) in
  let s' := snd (epochs W env self config batch_nums s) in
  let steps := (Z.max 0 (epoch config) * Z.max 0 batch_nums)%Z in
  (is_ok r = true -> counter (vars s') = counter (vars s) + steps)%Z /\
  (counter (vars s) <= counter (vars s') <= counter (vars s) + steps)%Z.
Proof.
  intros r s' steps. subst r s'.
  destruct (epochs W env self config batch_nums s) as [r s'] eqn:Hrun.
  cbn [fst snd].
  pose proof (advances_epochs env self config batch_nums _ _ _ Hrun) as Ha.
  unfold range_len in Ha.
  assert (E1 : Z.of_nat (Z.to_nat (epoch config)) = Z.max 0 (epoch config))
    by lia.
  assert (E2 : Z.of_nat (Z.to_nat batch_nums) = Z.max 0 batch_nums) by lia.
  rewrite E1, E2 in Ha. exact Ha.
Qed.

Lemma epochs_advance_counter_witness :
  fst (epochs nat Demo.quiet Demo.model Demo.run 4 Demo.start) = Ok tt /\
  counter (vars (snd (epochs nat Demo.quiet Demo.model Demo.run 4 Demo.start)))
  = (Z.max 0 (epoch Demo.run) * 4)%Z.
Proof.
  assert (Hr : fst (epochs nat Demo.quiet Demo.model Demo.run 4 Demo.start)
               = Ok tt) by (vm_compute; reflexivity).
  split; [exact Hr |].
  pose proof (epochs_advance_counter nat Demo.quiet Demo.model Demo.run 4
                Demo.start) as H.
  cbv zeta in H. destruct H as [H _]. rewrite Hr in H.
  exact (H eq_refl).
Defined.

(** ** What [train] does around the loop (lines 383-400, 514-521) *)

Section Around.
Local Open Scope effect_scope.

Context {W : Type}.
Variable env : environment W.
Variable self : dcgan.
Variable config : train_config.

Lemma bind_assoc {A B C} (m : M W A) (k : A -> M W B) (h : B -> M W C) s :
  bind (bind m k) h s = bind m (fun a => bind (k a) h) s.
Proof. unfold bind. now destruct (m s) as [[a | e] s1]. Qed.

Lemma bind_ext {A B} (m : M W A) (k k' : A -> M W B) s :
  (forall a s1, k a s1 = k' a s1) -> bind m k s = bind m k' s.
Proof. intros Hk. unfold bind. destruct (m s) as [[a | e] s1]; auto. Qed.

Lemma train_decomposed (s : state W) :
  train W env self config s
  = bind (train_prelude env self config)
         (training_loop W env self config) s.
Proof.
  unfold train, train_prelude.
  repeat (rewrite bind_assoc; apply bind_ext; intros ? ?).
  reflexivity.
Qed.

Lemma emits_py_assert P b msg :
  emits P (fun _ => True) (py_assert (W := W) b msg).
Proof.
  unfold py_assert. destruct b; [now apply emits_ret | apply emits_raise].
Qed.

Lemma train_prelude_emits :
  emits (fun e => negb (is_shutdown_call e)) (fun _ => True)
        (train_prelude env self config).
Proof.
  unfold train_prelude.
  eapply emits_bind; [apply emits_py_assert | intros ? _].
  repeat emits_step.
Qed.

End Around.

(** X19.  What is raised in the loop does not leave [train]: after an
    interrupt or an exception of class [Exception] the training loop
    returns normally (given that saving, stopping and joining return), and
    only an exception outside that class, such as [SystemExit], is raised
    again after the threads are stopped. *)
Theorem loop_errors_are_swallowed W (env : environment W) self config
    batch_nums (s : state W) :
  (forall w, raises env RequestStop w = None) ->
  (forall w, raises env JoinThreads w = None) ->
  (forall n w, raises env (SaverSave n) w = None) ->
  fst (training_loop W env self config batch_nums s) =
  match fst (epochs W env self config batch_nums s) with
  | Ok a => Ok a
  | Raise e =>
      if is_KeyboardInterrupt e || is_Exception e then Ok tt else Raise e
  end.
Proof.
  intros Hstop Hjoin Hsave.
  unfold training_loop, try_finally, try_except, shutdown.
  destruct (epochs W env self config batch_nums s) as [[[] | e] s1];
    cbn [fst].
  - unfold bind, call. now rewrite Hstop, Hjoin.
  - destruct e; cbn [handlers is_KeyboardInterrupt is_Exception orb];
      unfold bind, get_locals, call, print;
      rewrite ?Hsave, Hstop, Hjoin; reflexivity.
Qed.

Lemma loop_errors_are_swallowed_witness :
  fst (epochs nat (Demo.interrupted 20) Demo.model Demo.run 4 Demo.start)
    = Raise KeyboardInterrupt /\
  fst (training_loop nat (Demo.interrupted 20) Demo.model Demo.run 4 Demo.start)
    = Ok tt.
Proof.
  assert (Hr : fst (epochs nat (Demo.interrupted 20) Demo.model Demo.run 4
                      Demo.start) = Raise KeyboardInterrupt)
    by (vm_compute; reflexivity).
  split; [exact Hr |].
  rewrite (loop_errors_are_swallowed nat (Demo.interrupted 20) Demo.model
             Demo.run 4 Demo.start); [| reflexivity | reflexivity | reflexivity].
  now rewrite Hr.
Defined.

(** X20.  Saving the sample images never raises an exception of class
    [Exception]: when running the sampler fails with one, it is printed
    together with "sample image error!" and the step goes on. *)
Theorem sample_errors_are_caught W (env : environment W)
    epoch_ batch_idx (s : state W) :
  (forall e, fst (save_samples W env epoch_ batch_idx s) = Raise e ->
             is_Exception e = false) /\
  (forall e, raises env RunSampler (world s) = Some e ->
             is_Exception e = true ->
     fst (save_samples W env epoch_ batch_idx s) = Ok tt /\
     trace (snd (save_samples W env epoch_ batch_idx s))
     = trace s ++ [RunSampler; Print (MsgException e);
                   Print MsgSampleImageError]).
Proof.
  unfold save_samples, try_except, bind, call, print, ret.
  cbn [world trace vars]. split.
  - intros e.
    destruct (raises env RunSampler (world s)) as [e1 |].
    + destruct (is_Exception e1) eqn:H1; cbn [fst]; [discriminate |].
      now intros [= <-].
    + cbn [world trace vars].
      destruct (raises env (SaveImages epoch_ batch_idx) _) as [e2 |];
        [| discriminate].
      destruct (is_Exception e2) eqn:H2; cbn [fst]; [discriminate |].
      now intros [= <-].
  - intros e Hr He. rewrite Hr, He. cbn [fst snd trace].
    split; [reflexivity |]. now rewrite <- !app_assoc.
Qed.

Lemma sample_errors_are_caught_witness :
  let env := Demo.scripted (fun e _ => match e with
                                       | RunSampler => Some Demo.singular
                                       | _ => None
                                       end) in
  fst (save_samples nat env 0 0 Demo.start) = Ok tt /\
  trace (snd (save_samples nat env 0 0 Demo.start))
  = [RunSampler; Print (MsgException Demo.singular); Print MsgSampleImageError].
Proof.
  intros env.
  destruct (sample_errors_are_caught nat env 0 0 Demo.start) as [_ H].
  exact (H Demo.singular eq_refl eq_refl).
Defined.

(** X21.  What fails before the [try] of [train] (no data loaded, the
    statistics file, the checkpoint, a zero batch size) is raised out of
    [train] as it is, and the feeding threads are neither asked to stop nor
    joined; without data [train] raises [AssertionError] at once. *)
Theorem prelude_failure_skips_shutdown W (env : environment W) self config
    (s : state W) :
  (forall e s1, train_prelude env self config s = (Raise e, s1) ->
     train W env self config s = (Raise e, s1) /\
     exists tr, trace s1 = trace s ++ tr /\
                forall ev, In ev tr -> is_shutdown_call ev = false) /\
  (self_paths self = O ->
     train W env self config s
     = (Raise (AssertionError "no data loaded, was model not built?"), s)).
Proof.
  split.
  - intros e s1 Hpre. rewrite train_decomposed. unfold bind at 1.
    rewrite Hpre. split; [reflexivity |].
    destruct (train_prelude_emits env self config _ _ _ Hpre)
      as [(tr & Ht & HP) _].
    exists tr. split; [assumption |]. intros ev Hin.
    rewrite forallb_forall in HP. specialize (HP ev Hin).
    now apply negb_true_iff in HP.
  - intros Hp. unfold train. rewrite Hp. reflexivity.
Qed.

Lemma prelude_failure_skips_shutdown_witness :
  let env := Demo.scripted (fun e _ => match e with
                                       | NpLoadStats => Some Demo.singular
                                       | _ => None
                                       end) in
  exists s1,
    train nat env Demo.model Demo.run Demo.start = (Raise Demo.singular, s1) /\
    trace s1 = [Print MsgLoadTrainStats; NpLoadStats].
Proof.
  intros env.
  destruct (prelude_failure_skips_shutdown nat env Demo.model Demo.run
              Demo.start) as [H _].
  eassert (Hpre : train_prelude env Demo.model Demo.run Demo.start
                  = (Raise Demo.singular, _)) by reflexivity.
  destruct (H _ _ Hpre) as [Htrain _].
  eexists. split; [exact Htrain | reflexivity].
Defined.

(** X22.  When the part of [train] before the loop succeeds there is data,
    the batch size is nonzero, the number of batches per epoch is
    [min(len(paths), train_size) // batch_size], and the loop starts with
    the counter at [counter_start] and the accumulators at 0, whether or
    not a checkpoint was asked for and found. *)
Theorem loop_starts_at_counter_start W (env : environment W) self config
    (s : state W) batch_nums s0 :
  train_prelude env self config s = (Ok batch_nums, s0) ->
  vars s0 = reset_accumulators (counter_start (self_config self)) /\
  (0 < self_paths self)%nat /\
  config_batch_size config <> 0%Z /\
  batch_nums = (Z.min (Z.of_nat (self_paths self)) (train_size config)
                / config_batch_size config)%Z /\
  train W env self config s
  = training_loop W env self config batch_nums s0.
Proof.
  intros Hpre.
  assert (Htrain : train W env self config s
                   = training_loop W env self config batch_nums s0).
  { rewrite train_decomposed. unfold bind at 1. now rewrite Hpre. }
  unfold train_prelude in Hpre.
  apply bind_ok_inv in Hpre. destruct Hpre as ([] & s1 & H1 & Hpre).
  apply bind_ok_inv in Hpre. destruct Hpre as ([] & s2 & _ & Hpre).
  apply bind_ok_inv in Hpre. destruct Hpre as ([] & s3 & _ & Hpre).
  apply bind_ok_inv in Hpre. destruct Hpre as ([] & s4 & _ & Hpre).
  apply bind_ok_inv in Hpre. destruct Hpre as ([] & s5 & _ & Hpre).
  apply bind_ok_inv in Hpre. destruct Hpre as (bn & s6 & H6 & Hpre).
  apply bind_ok_inv in Hpre. destruct Hpre as ([] & s7 & H7 & Hpre).
  injection Hpre as <- <-. injection H7 as <-. cbn [vars].
  split; [reflexivity |]. split.
  - unfold py_assert in H1.
    destruct (Nat.ltb_spec 0 (self_paths self)); [assumption | discriminate].
  - unfold lift, py_floordiv in H6.
    destruct (Z.eqb_spec (config_batch_size config) 0); [discriminate |].
    injection H6 as <- _. auto.
Qed.

Lemma loop_starts_at_counter_start_witness :
  exists s0,
    train_prelude Demo.quiet Demo.model Demo.run (Demo.at_counter 77)
      = (Ok 4%Z, s0) /\
    counter (vars s0) = 0%Z.
Proof.
  eassert (Hpre : train_prelude Demo.quiet Demo.model Demo.run
                    (Demo.at_counter 77) = (Ok 4%Z, _)) by reflexivity.
  destruct (loop_starts_at_counter_start nat Demo.quiet Demo.model Demo.run
              _ _ _ Hpre) as (Hv & _).
  eexists. split; [exact Hpre |]. rewrite Hv. reflexivity.
Defined.

(** ** The running sums and the FID samples of one step (lines 431-500) *)

Section Sums.
Local Open Scope effect_scope.

Context {W : Type}.
Variable env : environment W.
Variable self : dcgan.
Variable config : train_config.

Lemma kv_ret {A} (a : A) : keeps_vars (ret (W := W) a).
Proof. intros s r s' [= <- <-]. reflexivity. Qed.

Lemma kv_lift {A} (x : result A) : keeps_vars (lift (W := W) x).
Proof. intros s r s' [= <- <-]. reflexivity. Qed.

Lemma kv_ask {A} (f : W -> A) : keeps_vars (ask f).
Proof. intros s r s' [= <- <-]. reflexivity. Qed.

Lemma kv_call e : keeps_vars (call env e).
Proof.
  intros s r s'. unfold call.
  destruct (raises env e (world s)); intros [= <- <-]; reflexivity.
Qed.

Lemma kv_print m : keeps_vars (print (W := W) m).
Proof. intros s r s' [= <- <-]. reflexivity. Qed.

Lemma kv_bind {A B} (m : M W A) (k : A -> M W B) :
  keeps_vars m -> (forall a, keeps_vars (k a)) -> keeps_vars (bind m k).
Proof.
  intros Hm Hk s r s' Hrun. unfold bind in Hrun.
  destruct (m s) as [[a | e] s1] eqn:Hms.
  - rewrite (Hk a _ _ _ Hrun). exact (Hm _ _ _ Hms).
  - injection Hrun as <- <-. exact (Hm _ _ _ Hms).
Qed.

Lemma kv_when b (m : M W unit) : keeps_vars m -> keeps_vars (when_ b m).
Proof. intros Hm. destruct b; [assumption | apply kv_ret]. Qed.

Lemma kv_try_except {A} (body : M W A) handler :
  keeps_vars body ->
  (forall e h, handler e = Some h -> keeps_vars h) ->
  keeps_vars (try_except body handler).
Proof.
  intros Hb Hh s r s' Hrun. unfold try_except in Hrun.
  destruct (body s) as [[a | e] s1] eqn:Hbody.
  - injection Hrun as <- <-. exact (Hb _ _ _ Hbody).
  - destruct (handler e) as [h |] eqn:He.
    + rewrite (Hh e h He _ _ _ Hrun). exact (Hb _ _ _ Hbody).
    + injection Hrun as <- <-. exact (Hb _ _ _ Hbody).
Qed.

Lemma kv_for_loop n (body : Z -> M W unit) :
  (forall i, keeps_vars (body i)) -> keeps_vars (for_loop n body).
Proof.
  intros Hb. induction n as [| n IH]; cbn [for_loop].
  - apply kv_ret.
  - apply kv_bind; [assumption | intros _; apply Hb].
Qed.

Ltac kv_step :=
  first
    [ apply kv_call
    | apply kv_print
    | apply kv_lift
    | apply kv_ask
    | apply kv_ret
    | apply kv_when
    | apply kv_for_loop; intros ?
    | apply kv_try_except;
        [| intros ? ?; destruct (is_Exception _); [intros [= <-] | discriminate]]
    | apply kv_bind; [| intros ?] ].

Lemma update_D_keeps_vars : keeps_vars (update_D W env self).
Proof. unfold update_D, for_range. repeat kv_step. Qed.

Lemma evaluate_fid_keeps_vars epoch_ batch_idx c :
  keeps_vars (evaluate_fid W env self epoch_ batch_idx c).
Proof.
  unfold evaluate_fid, save_samples, calculate_fid, for_range.
  repeat kv_step.
Qed.

Lemma update_G_vars c (s s' : state W) :
  update_G W env config c s = (Ok tt, s') ->
  exists g, vars s' = if Qgtb (learning_rate_g config) 0
                      then add_g g (vars s) else vars s.
Proof.
  unfold update_G. intros Hrun. apply when_inv in Hrun.
  destruct Hrun as [[-> Hrun] | (-> & _ & ->)];
    [| exists (GFetch 0 O); reflexivity].
  apply bind_ok_inv in Hrun. destruct Hrun as ([] & s1 & H1 & Hrun).
  apply kv_call in H1.
  apply bind_ok_inv in Hrun. destruct Hrun as (g & s2 & H2 & Hrun).
  injection H2 as <- <-.
  apply bind_ok_inv in Hrun. destruct Hrun as ([] & s3 & H3 & Hrun).
  apply (kv_when _ _ (kv_call _)) in H3.
  injection Hrun as <-. cbn [vars]. eexists. now rewrite H3, H1.
Qed.

(** The local variables after the rest of a step that returns. *)
Lemma finish_step_vars epoch_ batch_idx d c (s s' : state W) :
  finish_step W env self config epoch_ batch_idx d c s = (Ok tt, s') ->
  exists g,
    vars s' = with_counter (c + 1)
      (if (np_mod c 100 =? 0)%Z then reset_accumulators c
       else add_d d (if Qgtb (learning_rate_g config) 0
                     then add_g g (vars s) else vars s)).
Proof.
  unfold finish_step. intros Hrun.
  apply bind_ok_inv in Hrun. destruct Hrun as ([] & s1 & H1 & Hrun).
  apply (kv_when _ _ (kv_call _)) in H1.
  apply bind_ok_inv in Hrun. destruct Hrun as ([] & s2 & H2 & Hrun).
  apply update_G_vars in H2. destruct H2 as (g & H2).
  apply bind_ok_inv in Hrun. destruct Hrun as ([] & s3 & H3 & Hrun).
  injection H3 as <-.
  apply bind_ok_inv in Hrun. destruct Hrun as ([] & s4 & H4 & Hrun).
  apply bind_ok_inv in Hrun. destruct Hrun as ([] & s5 & H5 & Hrun).
  apply (kv_when _ _ (evaluate_fid_keeps_vars _ _ _)) in H5.
  apply bind_ok_inv in Hrun. destruct Hrun as ([] & s6 & H6 & Hrun).
  apply (kv_when _ _ (kv_call _)) in H6.
  injection Hrun as <-. cbn [vars]. exists g. rewrite H6, H5. f_equal.
  apply when_inv in H4. destruct H4 as [[-> H4] | (-> & _ & ->)].
  - apply bind_ok_inv in H4. destruct H4 as (l & s7 & _ & H4).
    apply bind_ok_inv in H4. destruct H4 as ([] & s8 & _ & H4).
    injection H4 as <-. reflexivity.
  - cbn [vars]. now rewrite H2, H1.
Qed.

Lemma for_loop_count P d n (body : Z -> M W unit) :
  (forall i s s', body i s = (Ok tt, s') ->
     exists tr, trace s' = trace s ++ tr /\ count P tr = d) ->
  forall s s', for_loop n body s = (Ok tt, s') ->
    exists tr, trace s' = trace s ++ tr /\ count P tr = (n * d)%nat.
Proof.
  intros Hb. induction n as [| n IH]; cbn [for_loop]; intros s s' Hrun.
  - injection Hrun as <-. exists []. now rewrite app_nil_r.
  - apply bind_ok_inv in Hrun. destruct Hrun as ([] & s1 & H1 & Hrun).
    destruct (IH _ _ H1) as (t1 & E1 & C1).
    destruct (Hb _ _ _ Hrun) as (t2 & E2 & C2).
    exists (t1 ++ t2). split.
    + now rewrite E2, E1, app_assoc.
    + rewrite count_app, C1, C2. cbn [Nat.mul]. apply Nat.add_comm.
Qed.

Lemma not_sampler_count (s s' : state W) {A} (m : M W A) r :
  emits (fun e => negb (is_RunSamplerFid e)) (fun _ => True) m ->
  m s = (r, s') ->
  exists tr, trace s' = trace s ++ tr /\ count is_RunSamplerFid tr = O.
Proof.
  intros Hm Hrun. destruct (emits_trace _ _ _ _ _ Hm Hrun) as (tr & E & HP).
  exists tr. split; [assumption |].
  apply (count_none (fun e => negb (is_RunSamplerFid e))); [| assumption].
  intros e He. now apply negb_true_iff in He.
Qed.

Lemma evaluate_fid_sampler_runs epoch_ batch_idx c (s s' : state W) :
  evaluate_fid W env self epoch_ batch_idx c s = (Ok tt, s') ->
  exists tr n_batches,
    py_floordiv (self_fid_n_samples self)
                (fid_sample_batchsize (self_config self)) = Ok n_batches /\
    trace s' = trace s ++ tr /\
    count is_RunSamplerFid tr = Z.to_nat n_batches.
Proof.
  unfold evaluate_fid. intros Hrun.
  apply bind_ok_inv in Hrun. destruct Hrun as ([] & s1 & H1 & Hrun).
  eapply not_sampler_count in H1;
    [| unfold save_samples; repeat emits_step]. destruct H1 as (u1 & E1 & C1).
  apply bind_ok_inv in Hrun. destruct Hrun as ([] & s2 & H2 & Hrun).
  apply print_inv in H2. destruct H2 as (E2 & _).
  apply bind_ok_inv in Hrun. destruct Hrun as (samples & s3 & Hz & Hrun).
  unfold lift in Hz. injection Hz as _ <-.
  apply bind_ok_inv in Hrun. destruct Hrun as (n_batches & s3 & H3 & Hrun).
  unfold lift in H3. injection H3 as H3 <-.
  apply bind_ok_inv in Hrun. destruct Hrun as ([] & s4 & H4 & Hrun).
  eapply (for_loop_count is_RunSamplerFid 1) in H4.
  2:{ intros i t t' Hb.
      apply bind_ok_inv in Hb. destruct Hb as ([] & t1 & Hp & Hb).
      apply print_inv in Hp. destruct Hp as (Ep & _).
      apply bind_ok_inv in Hb. destruct Hb as ([] & t2 & Hc & Hb).
      apply call_inv in Hc. destruct Hc as (Ec & _).
      unfold lift in Hb. injection Hb as _ <-.
      exists [Print (MsgSamplesForIncept (i + 1) n_batches); RunSamplerFid].
      split; [| reflexivity]. now rewrite Ec, Ep, <- app_assoc. }
  destruct H4 as (u4 & E4 & C4).
  eapply not_sampler_count in Hrun;
    [| unfold calculate_fid; repeat emits_step]. destruct Hrun as (u5 & E5 & C5).
  exists (u1 ++ [Print MsgSamplesForInceptStart] ++ u4 ++ u5), n_batches.
  split; [assumption |]. split.
  - rewrite E5, E4, E2, E1, <- !app_assoc. reflexivity.
  - rewrite !count_app, C1, C4, C5. unfold range_len. cbn. lia.
Qed.

End Sums.

(** X23.  A step that returns adds the values fetched by the first
    discriminator run of the step to the running sums and counts one
    generator update when the generator's learning rate is positive; when
    the counter is a multiple of 100 the sums are printed and all start
    again from 0, so the values of that step are dropped with them. *)
Theorem sums_accumulate_and_reset W (env : environment W) self config
    epoch_ batch_idx (s s' : state W) :
  step W env self config epoch_ batch_idx s = (Ok tt, s') ->
  let c := counter (vars s) in
  let d := d_fetches env (advance env RunDOptim (world s)) in
  (np_mod c 100 = 0%Z -> vars s' = reset_accumulators (c + 1)) /\
  (np_mod c 100 <> 0%Z ->
     errD_fake (vars s') = errD_fake (vars s) + errD_fake_ d /\
     errD_real (vars s') = errD_real (vars s) + errD_real_ d /\
     penD_gradient (vars s') = penD_gradient (vars s) + penD_gradient_ d /\
     penD_lipschitz (vars s') = penD_lipschitz (vars s) + penD_lipschitz_ d /\
     esti_slope (vars s') = esti_slope (vars s) + esti_slope_ d /\
     lipschitz_estimate (vars s')
       = lipschitz_estimate (vars s) + lipschitz_estimate_ d /\
     errG_count (vars s')
       = (errG_count (vars s)
          + if Qgtb (learning_rate_g config) 0 then 1 else 0)%Z).
Proof.
  intros Hrun c d. unfold step in Hrun.
  apply bind_ok_inv in Hrun. destruct Hrun as (d1 & s1 & H1 & Hrun).
  pose proof (update_D_keeps_vars env self _ _ _ H1) as Hv1.
  assert (Hd : d1 = d).
  { unfold update_D in H1.
    apply bind_ok_inv in H1. destruct H1 as ([] & t1 & Hc & H1).
    apply call_inv in Hc. destruct Hc as (_ & _ & Hw & _).
    apply bind_ok_inv in H1. destruct H1 as (d2 & t2 & Ha & H1).
    injection Ha as <- <-.
    apply bind_ok_inv in H1. destruct H1 as ([] & t3 & _ & H1).
    injection H1 as <- _. subst d. now rewrite Hw. }
  subst d1.
  apply bind_ok_inv in Hrun. destruct Hrun as (l & s2 & H2 & Hrun).
  injection H2 as <- <-. rewrite Hv1 in Hrun. fold c in Hrun.
  apply finish_step_vars in Hrun. destruct Hrun as (g & Hv). rewrite Hv1 in Hv.
  split; intros Hc.
  - rewrite Hv, Hc. reflexivity.
  - apply Z.eqb_neq in Hc. rewrite Hv, Hc.
    destruct (Qgtb (learning_rate_g config) 0); cbn;
      repeat split; try reflexivity; lia.
Qed.

Lemma sums_accumulate_and_reset_witness :
  exists s',
    step nat Demo.quiet Demo.model Demo.run 0 0 (Demo.at_counter 100)
      = (Ok tt, s') /\
    vars s' = reset_accumulators 101.
Proof.
  pose (s' := snd (step nat Demo.quiet Demo.model Demo.run 0 0
                     (Demo.at_counter 100))).
  assert (Hrun : step nat Demo.quiet Demo.model Demo.run 0 0
                   (Demo.at_counter 100) = (Ok tt, s'))
    by (vm_compute; reflexivity).
  destruct (sums_accumulate_and_reset nat Demo.quiet Demo.model Demo.run
              0 0 (Demo.at_counter 100) s' Hrun) as [H _].
  exists s'. split; [exact Hrun |]. apply H. reflexivity.
Defined.

(** X24.  An evaluation of the FID that returns has run the sampler
    [fid_n_samples // fid_sample_batchsize] times, no more and no fewer;
    it returns only with a nonzero [fid_sample_batchsize]. *)
Theorem fid_sampler_runs W (env : environment W) self
    epoch_ batch_idx c (s s' : state W) :
  evaluate_fid W env self epoch_ batch_idx c s = (Ok tt, s') ->
  fid_sample_batchsize (self_config self) <> 0%Z /\
  exists tr,
    trace s' = trace s ++ tr /\
    count is_RunSamplerFid tr
    = Z.to_nat (self_fid_n_samples self
                / fid_sample_batchsize (self_config self)).
Proof.
  intros Hrun.
  destruct (evaluate_fid_sampler_runs env self _ _ _ _ _ Hrun)
    as (tr & n & Hn & Htr & Hc).
  unfold py_floordiv in Hn.
  destruct (Z.eqb_spec (fid_sample_batchsize (self_config self)) 0);
    [discriminate |].
  injection Hn as <-. split; [assumption |]. now exists tr.
Qed.

Lemma fid_sampler_runs_witness :
  exists s' tr,
    evaluate_fid nat Demo.quiet Demo.model 0 0 0 Demo.start = (Ok tt, s') /\
    trace s' = trace Demo.start ++ tr /\
    count is_RunSamplerFid tr = 3%nat.
Proof.
  pose (s' := snd (evaluate_fid nat Demo.quiet Demo.model 0 0 0 Demo.start)).
  assert (Hrun : evaluate_fid nat Demo.quiet Demo.model 0 0 0 Demo.start
                 = (Ok tt, s')) by (vm_compute; reflexivity).
  destruct (fid_sampler_runs nat Demo.quiet Demo.model 0 0 0 Demo.start s' Hrun)
    as (_ & tr & Htr & Hc).
  exists s', tr. split; [exact Hrun |]. split; [exact Htr | exact Hc].
Defined.

(** ** The sample array of an FID evaluation (lines 479-484) *)

Section SampleArray.
Local Open Scope effect_scope.

Context {W : Type}.
Variable env : environment W.
Variable self : dcgan.

Lemma bind_returns {A B} (m : M W A) (k : A -> M W B) s a s1 :
  m s = (Ok a, s1) -> bind m k s = k a s1.
Proof. intros H. unfold bind. now rewrite H. Qed.

Lemma bind_raises {A B} (m : M W A) (k : A -> M W B) s e s1 :
  m s = (Raise e, s1) -> bind m k s = (Raise e, s1).
Proof. intros H. unfold bind. now rewrite H. Qed.

Lemma for_loop_first_raises n (body : Z -> M W unit) s e s1 :
  (0 < n)%nat -> body 0%Z s = (Raise e, s1) ->
  for_loop n body s = (Raise e, s1).
Proof.
  intros Hn Hb. induction n as [| n IH]; [lia |]. cbn [for_loop].
  destruct n as [| n].
  - cbn [for_loop]. unfold bind, ret. exact Hb.
  - apply bind_raises. apply IH. lia.
Qed.

Lemma broadcast_shape_channels_mismatch b H Wd c :
  c <> 1%nat -> c <> 3%nat ->
  broadcast_shape [b; H; Wd; c] [b; H; Wd; 3%nat] = None.
Proof.
  intros H1 H3. unfold broadcast_shape. cbn [rev app broadcast_rev].
  rewrite (broadcast_dim_none c 3) by (auto; lia). reflexivity.
Qed.

Lemma save_samples_quiet epoch_ batch_idx (s : state W) :
  (forall ev w, raises env ev w = None) ->
  exists s1,
    save_samples W env epoch_ batch_idx s = (Ok tt, s1) /\
    trace s1 = trace s ++ [RunSampler; SaveImages epoch_ batch_idx;
                           Print MsgSample].
Proof.
  intros Hq. unfold save_samples, try_except, bind, call, print.
  rewrite ?Hq. cbn [world trace vars]. rewrite ?Hq.
  eexists. split; [reflexivity |]. cbn [trace].
  now rewrite <- !app_assoc.
Qed.

End SampleArray.

(** X25.  What the sample array of an FID evaluation refuses ends the
    evaluation with [ValueError], an exception of class [Exception]: a
    negative number of samples when the array is created, before any sample
    is generated, and images with a number of channels other than 1 or 3
    when the first batch is stored, after one run of the sampler.  (All calls
    to the outside are taken to return.) *)
Theorem fid_array_refuses W (env : environment W) self
    epoch_ batch_idx c (s : state W) :
  (forall ev w, raises env ev w = None) ->
  let n := self_fid_n_samples self in
  let b := fid_sample_batchsize (self_config self) in
  ((n < 0)%Z ->
   exists s',
     evaluate_fid W env self epoch_ batch_idx c s = (Raise ValueError, s') /\
     trace s' = trace s ++ [RunSampler; SaveImages epoch_ batch_idx;
                            Print MsgSample; Print MsgSamplesForInceptStart]) /\
  ((0 < b <= n)%Z ->
   c_dim (self_config self) <> 1%nat -> c_dim (self_config self) <> 3%nat ->
   exists s',
     evaluate_fid W env self epoch_ batch_idx c s = (Raise ValueError, s') /\
     trace s' = trace s ++ [RunSampler; SaveImages epoch_ batch_idx;
                            Print MsgSample; Print MsgSamplesForInceptStart;
                            Print (MsgSamplesForIncept 1 (n / b));
                            RunSamplerFid]) /\
  is_Exception ValueError = true.
Proof.
  intros Hq n b.
  destruct (save_samples_quiet env epoch_ batch_idx s Hq) as (s1 & H1 & E1).
  split; [| split; [| reflexivity]].
  - intros Hn. unfold evaluate_fid.
    rewrite (bind_returns _ _ _ _ _ H1).
    unfold bind at 1. unfold print at 1.
    eexists. split.
    + apply bind_raises. unfold lift, np_zeros. cbn [forallb]. fold n.
      destruct (Z.leb_spec 0 n); [lia | reflexivity].
    + cbn [trace]. rewrite E1, <- app_assoc. reflexivity.
  - intros Hb Hc1 Hc3. unfold evaluate_fid.
    rewrite (bind_returns _ _ _ _ _ H1).
    unfold bind at 1. unfold print at 1.
    assert (Hz : np_zeros [n; Z.of_nat (output_height (self_config self));
                           Z.of_nat (output_width (self_config self)); 3%Z]
                 = Ok [Z.to_nat n; output_height (self_config self);
                       output_width (self_config self); 3%nat]).
    { unfold np_zeros. cbn [forallb map].
      destruct (Z.leb_spec 0 n); [| lia].
      destruct (Z.leb_spec 0 (Z.of_nat (output_height (self_config self))));
        [| lia].
      destruct (Z.leb_spec 0 (Z.of_nat (output_width (self_config self))));
        [| lia].
      now rewrite !Nat2Z.id. }
    fold n. rewrite Hz. unfold bind at 1. unfold lift at 1.
    assert (Hd : py_floordiv n b = Ok (n / b)%Z).
    { unfold py_floordiv. destruct (Z.eqb_spec b 0); [lia | reflexivity]. }
    fold b. rewrite Hd. unfold bind at 1. unfold lift at 1.
    cbn [hd tl].
    assert (Hpos : (0 < n / b)%Z) by (apply Z.div_str_pos; lia).
    eexists. split.
    + apply bind_raises. unfold for_range, range_len.
      apply for_loop_first_raises; [lia |].
      unfold bind at 1. unfold print at 1.
      unfold bind at 1. unfold call at 1. rewrite Hq. cbn [world trace vars].
      unfold lift, np_assign_slice, sampler_fid_shape. fold b.
      assert (Hlen : py_slice_len (Z.to_nat n) (0 * b) (0 * b + b)
                     = Z.to_nat b).
      { unfold py_slice_len. rewrite Z.mul_0_l, Z.add_0_l.
        destruct (Z.ltb_spec 0 0); [lia |].
        destruct (Z.ltb_spec b 0); [lia |]. f_equal. lia. }
      rewrite Hlen, broadcast_shape_channels_mismatch by assumption.
      destruct (decide _); [discriminate | reflexivity].
    + cbn [trace]. rewrite E1, <- !app_assoc. reflexivity.
Qed.

Lemma fid_array_refuses_witness :
  let self := {| self_config := Demo.small_config "regular_gan";
                 self_fid_n_samples := (-3000)%Z;
                 self_paths := 8 |} in
  exists s',
    evaluate_fid nat Demo.quiet self 0 0 0 Demo.start
      = (Raise ValueError, s') /\
    trace s' = [RunSampler; SaveImages 0 0; Print MsgSample;
                Print MsgSamplesForInceptStart].
Proof.
  intros self.
  destruct (fid_array_refuses nat Demo.quiet self 0 0 0 Demo.start
              ltac:(reflexivity)) as [Hneg _].
  exact (Hneg ltac:(vm_compute; reflexivity)).
Defined.
